(** * Vibe Security Watchdog: a shallow embedding of the scan engine

    The development follows the TypeScript sources:
    - [types.ts]                      : the issue and configuration records;
    - [index.ts]                      : the orchestrator [runFullScan] and the
                                        debounced watch scheduler;
    - [scanners/secret-scanner.ts]    : [parseEnvFile], [matchesSensitivePattern],
                                        [scanSecrets];
    - [scanners/sql-injection-scanner.ts] : [scanFileForSQLInjection];
    - [scanners/rls-scanner.ts]       : [checkRLSStatus], [scanRLS], and the
                                        direct-database variant of [scanRLS];
    - [security-watchdog.ts]          : the standalone command line [runScan],
                                        [walkDir];
    - [scanners/api-key-guardian.ts]  : [scanAPIKeys];
    - [reporter.ts]                   : [reportToTerminal],
                                        [formatIssuesForBrowser];
    - [sql-recipes.ts]                : [printRLSRecipes];
    - [app/api/security-watchdog/route.ts] : the endpoint [GET].

    JavaScript strings are modelled as [string] (byte strings, UTF-8 text
    kept as it is in the sources); lengths and offsets count bytes, which
    is what JavaScript counts on ASCII text.  The regular-expression
    engine, the file system, the network and the clock are the environment
    of the program: they are a type class, records of functions, or
    explicit inputs. *)

From Stdlib Require Import List String Ascii Bool Arith ZArith Lia.
From Stdlib Require Import DecimalString DecimalNat Sorted.
Import ListNotations.
Open Scope string_scope.
Open Scope nat_scope.

(* ------------------------------------------------------------------ *)
(** * JavaScript string helpers *)
(* ------------------------------------------------------------------ *)

Module JS.

(** The characters that cannot be written inside a literal. *)
Definition nl : string := String (ascii_of_nat 10) EmptyString.
Definition dq : string := String (ascii_of_nat 34) EmptyString.

(** Template-literal interpolation of a number. *)
Definition of_nat (n : nat) : string :=
  NilEmpty.string_of_uint (Nat.to_uint n).

(** [Array.prototype.join]. *)
Fixpoint join (sep : string) (parts : list string) : string :=
  match parts with
  | [] => ""
  | [p] => p
  | p :: rest => p ++ sep ++ join sep rest
  end.

(** [.filter(Boolean)] on an array of strings: the empty string is the
    only falsy string. *)
Definition truthy (s : string) : bool :=
  match s with EmptyString => false | _ => true end.

Definition filter_truthy (parts : list string) : list string :=
  filter truthy parts.

(** [s.startsWith(p)]. *)
Definition startsWith (p s : string) : bool := String.prefix p s.

(** [s.includes(p)]. *)
Fixpoint includes (p s : string) : bool :=
  String.prefix p s ||
  match s with
  | EmptyString => false
  | String _ s' => includes p s'
  end.

(** [arr.includes(x)] on an array of strings. *)
Definition mem (x : string) (l : list string) : bool :=
  existsb (String.eqb x) l.

(** [[...new Set(l)]]: first occurrences, in insertion order. *)
Fixpoint uniq_acc (seen l : list string) : list string :=
  match l with
  | [] => []
  | x :: r => if mem x seen then uniq_acc seen r
              else x :: uniq_acc (x :: seen) r
  end.
Definition uniq (l : list string) : list string := uniq_acc [] l.

(** [\s] and [trim] on the ASCII white space characters (tab, line feed,
    vertical tab, form feed, carriage return, space). *)
Definition is_space (c : ascii) : bool :=
  match nat_of_ascii c with
  | 9 | 10 | 11 | 12 | 13 | 32 => true
  | _ => false
  end.

Fixpoint trimStart (s : string) : string :=
  match s with
  | EmptyString => EmptyString
  | String c r => if is_space c then trimStart r else s
  end.

Fixpoint trimEnd (s : string) : string :=
  match s with
  | EmptyString => EmptyString
  | String c r =>
      match trimEnd r with
      | EmptyString => if is_space c then EmptyString else String c EmptyString
      | r' => String c r'
      end
  end.

Definition trim (s : string) : string := trimEnd (trimStart s).

(** [s.split(/\r?\n/)]. *)
Fixpoint splitLines (s : string) : list string :=
  match s with
  | EmptyString => [EmptyString]
  | String c r =>
      if Ascii.eqb c (ascii_of_nat 10) then EmptyString :: splitLines r
      else
        let keep := match splitLines r with
                    | h :: t => String c h :: t
                    | [] => [String c EmptyString]
                    end in
        if Ascii.eqb c (ascii_of_nat 13) then
          match r with
          | String c2 r2 =>
              if Ascii.eqb c2 (ascii_of_nat 10)
              then EmptyString :: splitLines r2
              else keep
          | EmptyString => keep
          end
        else keep
  end.

(** [s.indexOf(c)] for a one-character needle; [None] is [-1]. *)
Fixpoint indexOf (c : ascii) (s : string) : option nat :=
  match s with
  | EmptyString => None
  | String d r => if Ascii.eqb c d then Some 0
                  else option_map S (indexOf c r)
  end.

(** [s.substring(n)]. *)
Fixpoint drop (n : nat) (s : string) : string :=
  match n, s with
  | 0, _ => s
  | S n', String _ r => drop n' r
  | S _, EmptyString => EmptyString
  end.

(** [s.substring(0, n)]. *)
Definition take (n : nat) (s : string) : string := String.substring 0 n s.

(** [s.split('\n').length]. *)
Fixpoint count_newlines (s : string) : nat :=
  match s with
  | EmptyString => 0
  | String c r => (if Ascii.eqb c (ascii_of_nat 10) then 1 else 0)
                  + count_newlines r
  end.

(** [array.forEach((x, index) => ...)]: the elements with their index. *)
Fixpoint indexed_from {A} (n : nat) (l : list A) : list (nat * A) :=
  match l with
  | [] => []
  | x :: r => (n, x) :: indexed_from (S n) r
  end.
Definition indexed {A} (l : list A) : list (nat * A) := indexed_from 0 l.

(** A [Map] with string keys: bindings in insertion order. *)
Definition Map (A : Type) : Type := list (string * list A).

Fixpoint map_get {A} (k : string) (m : Map A) : option (list A) :=
  match m with
  | [] => None
  | (k', v) :: r => if String.eqb k k' then Some v else map_get k r
  end.

(** [if (!m.has(k)) m.set(k, []); m.get(k).push(x)]. *)
Fixpoint map_push {A} (k : string) (x : A) (m : Map A) : Map A :=
  match m with
  | [] => [(k, [x])]
  | (k', v) :: r =>
      if String.eqb k k' then (k', (v ++ [x])%list) :: r
      else (k', v) :: map_push k x r
  end.

(** [x === s] and [x === n] for an optional field [x]. *)
Definition is_string (x : option string) (s : string) : bool :=
  match x with Some y => String.eqb y s | None => false end.

Definition is_number (x : option nat) (n : nat) : bool :=
  match x with Some y => Nat.eqb y n | None => false end.

End JS.

(* ------------------------------------------------------------------ *)
(** * The issue model ([types.ts]) *)
(* ------------------------------------------------------------------ *)

Inductive Severity := critical | warning | info.

(** ['rls-check'] is not in the declared union, but the direct-database
    scanner and the recipe printer use it. *)
Inductive IssueCategory :=
  secret_leak | rls_missing | rls_no_auth | rls_check | general.

Definition Severity_eqb (a b : Severity) : bool :=
  match a, b with
  | critical, critical | warning, warning | info, info => true
  | _, _ => false
  end.

Definition IssueCategory_eqb (a b : IssueCategory) : bool :=
  match a, b with
  | secret_leak, secret_leak | rls_missing, rls_missing
  | rls_no_auth, rls_no_auth | rls_check, rls_check
  | general, general => true
  | _, _ => false
  end.

Record SecurityIssue := mkIssue {
  id : string;
  category : IssueCategory;
  severity : Severity;
  title : string;
  message : string;
  file : option string;
  line : option nat;
  key : option string;
  table : option string;
  timestamp : Z
}.

Record SensitivePattern := mkPattern {
  pattern : string;
  sp_severity : Severity;
  sp_message : string
}.

Record SecretScannerConfig := {
  envFiles : list string;
  sensitivePatterns : list SensitivePattern
}.

Record RLSScannerConfig := {
  rls_enabled_flag : bool;          (* [enabled] *)
  scanDirs : list string;
  extensions : list string;
  excludeDirs : list string;
  supabaseUrl : string;
  supabaseServiceRoleKey : string;
  whitelistedTables : list string
}.

Record ReporterConfig := {
  terminal : bool;
  browserOverlay : bool;
  overlayAutoCloseMs : Z;
  soundAlert : bool
}.

Record WatcherConfig := {
  debounceMs : nat;
  additionalWatchPatterns : list string
}.

Record VibeSecurityConfig := {
  enabled : bool;
  secretScanner : SecretScannerConfig;
  rlsScanner : RLSScannerConfig;
  reporter : ReporterConfig;
  watcher : WatcherConfig
}.

(** [getDefaultConfig] of [index.ts]. *)
Definition getDefaultConfig : VibeSecurityConfig := {|
  enabled := true;
  secretScanner := {|
    envFiles := [".env"; ".env.local"; ".env.development"];
    sensitivePatterns :=
      [ mkPattern "SUPABASE_SERVICE_ROLE_KEY" critical
          "Supabase Service Role Key istemci tarafına ifşa edilmemelidir.";
        mkPattern "DATABASE_URL" critical
          "Veritabanı bağlantı string'i istemci tarafında görünmemelidir.";
        mkPattern "SECRET" critical
          "SECRET içeren anahtarlar istemci tarafına ifşa edilmemelidir.";
        mkPattern "PRIVATE_KEY" critical
          "Özel anahtarlar istemci tarafına ifşa edilmemelidir." ] |};
  rlsScanner := {|
    rls_enabled_flag := true;
    scanDirs := ["src"];
    extensions := [".ts"; ".tsx"; ".js"; ".jsx"];
    excludeDirs := ["node_modules"; ".next"; "dist"];
    supabaseUrl := "";
    supabaseServiceRoleKey := "";
    whitelistedTables := [] |};
  reporter := {|
    terminal := true;
    browserOverlay := true;
    overlayAutoCloseMs := 0%Z;
    soundAlert := false |};
  watcher := {|
    debounceMs := 500;
    additionalWatchPatterns := [] |}
|}.

(* ------------------------------------------------------------------ *)
(** * The orchestrator ([index.ts]) *)
(* ------------------------------------------------------------------ *)

(** [runFullScan] is an [async] function: it runs synchronously up to its
    first [await], and is resumed once per awaited scanner.  Between two of
    its steps any other callback of the process may run, in particular
    another call of [runFullScan].  The embedding makes these steps
    explicit: [runFullScan_call] is the synchronous prefix, and
    [runFullScan_resume] continues a suspended run with what the awaited
    scanner produced. *)

Module Orchestrator.

(** What an awaited scanner promise settles to. *)
Inductive Outcome :=
| Fulfilled (issues : list SecurityIssue)
| Rejected (msg : string).

(** The [await] at which a run is suspended. *)
Inductive Stage := AwaitSecrets | AwaitRLS | AwaitSQL | AwaitAPIKeys.

(** What the process does that is visible outside the orchestrator. *)
Inductive Event :=
| EvScanSecrets                                (* scanSecrets(...) started *)
| EvScanRLS                                    (* scanRLS(...) started *)
| EvScanSQLInjection                           (* scanSQLInjection(...) started *)
| EvScanAPIKeys                                (* scanAPIKeys(...) started *)
| EvReportToTerminal (issues : list SecurityIssue)
| EvPrintRLSRecipes (issues : list SecurityIssue)
| EvWriteVibeSummary (issues : list SecurityIssue)
| EvConsoleError (msg : string).               (* the [catch] branch *)

(** The module-level variables [latestIssues] and [isScanning], and the
    trace of what has been done so far. *)
Record State := mkState {
  latestIssues : list SecurityIssue;
  isScanning : bool;
  trace : list Event
}.

(** The local variables of a suspended run. *)
Record Run := mkRun {
  stage : Stage;
  allIssues : list SecurityIssue;
  run_config : VibeSecurityConfig
}.

Inductive Progress :=
| Suspended (r : Run)
| Returned (result : list SecurityIssue).

(** The statements of the [try] block after the last scanner (lines
    127-136): the read of [config.reporter.terminal] and the three calls.
    Each of them can throw: the read where the loaded object has no
    [reporter] (the declared type is not checked when the file is
    required), a call on whatever its callee throws. *)
Inductive Sink :=
| ReadReporterTerminal
| ReportToTerminal
| PrintRLSRecipes
| WriteVibeSummary.

(** How a statement ends. *)
Inductive Completion :=
| Completes
| Throws (msg : string).

(** How these statements end during one pass. *)
Definition Sinks := Sink -> Completion.

Definition initial : State :=
  {| latestIssues := []; isScanning := false; trace := [] |}.

Definition emit (e : Event) (st : State) : State :=
  {| latestIssues := latestIssues st;
     isScanning := isScanning st;
     trace := (trace st ++ [e])%list |}.

Definition set_isScanning (b : bool) (st : State) : State :=
  {| latestIssues := latestIssues st; isScanning := b; trace := trace st |}.

Definition set_latestIssues (l : list SecurityIssue) (st : State) : State :=
  {| latestIssues := l; isScanning := isScanning st; trace := trace st |}.

(** [getLatestIssues]. *)
Definition getLatestIssues (st : State) : list SecurityIssue :=
  latestIssues st.

(** Lines 92-99: the guard, the flag, and the start of the first scanner. *)
Definition runFullScan_call (config : VibeSecurityConfig) (st : State)
  : State * Progress :=
  if isScanning st then (st, Returned (latestIssues st))
  else
    (emit EvScanSecrets (set_isScanning true st),
     Suspended {| stage := AwaitSecrets; allIssues := []; run_config := config |}).

(** The [catch] and [finally] branches, then [return allIssues]. *)
Definition fault (msg : string) (all : list SecurityIssue) (st : State)
  : State * Progress :=
  (set_isScanning false (emit (EvConsoleError msg) st), Returned all).

(** Lines 127-139 and the [finally]: the sinks, the replacement of
    [latestIssues], the release of the flag.  A statement that throws
    sends the run to the [catch] branch, past the assignment of line
    139. *)
Definition finish (config : VibeSecurityConfig) (sinks : Sinks)
  (all : list SecurityIssue) (st : State) : State * Progress :=
  match sinks ReadReporterTerminal with
  | Throws msg => fault msg all st
  | Completes =>
      let st1 := if terminal (reporter config)
                 then emit (EvReportToTerminal all) st else st in
      match (if terminal (reporter config)
             then sinks ReportToTerminal else Completes) with
      | Throws msg => fault msg all st1
      | Completes =>
          let st2 := emit (EvPrintRLSRecipes all) st1 in
          match sinks PrintRLSRecipes with
          | Throws msg => fault msg all st2
          | Completes =>
              let st3 := emit (EvWriteVibeSummary all) st2 in
              match sinks WriteVibeSummary with
              | Throws msg => fault msg all st3
              | Completes =>
                  let st4 := set_latestIssues all st3 in
                  (set_isScanning false st4, Returned all)
              end
          end
      end
  end.

Definition suspend_at (s : Stage) (e : Event) (config : VibeSecurityConfig)
  (all : list SecurityIssue) (st : State) : State * Progress :=
  (emit e st,
   Suspended {| stage := s; allIssues := all; run_config := config |}).

(** One resumption: the awaited promise has settled to [o]; [sinks] is how
    the statements after the last scanner end, should the run get there. *)
Definition runFullScan_resume (r : Run) (o : Outcome) (sinks : Sinks)
  (st : State) : State * Progress :=
  match o with
  | Rejected msg => fault msg (allIssues r) st
  | Fulfilled issues =>
      let config := run_config r in
      let all := (allIssues r ++ issues)%list in      (* allIssues.push(...issues) *)
      match stage r with
      | AwaitSecrets =>
          if rls_enabled_flag (rlsScanner config)
          then suspend_at AwaitRLS EvScanRLS config all st
          else suspend_at AwaitSQL EvScanSQLInjection config all st
      | AwaitRLS => suspend_at AwaitSQL EvScanSQLInjection config all st
      | AwaitSQL => suspend_at AwaitAPIKeys EvScanAPIKeys config all st
      | AwaitAPIKeys => finish config sinks all st
      end
  end.

(** What the four scanners settle to during one pass. *)
Definition Scanners := Stage -> Outcome.

(** A run that nothing interleaves with: resumed until it returns.  A run
    is resumed at most four times. *)
Fixpoint drive (fuel : nat) (scan : Scanners) (sinks : Sinks)
  (p : State * Progress) : State * Progress :=
  match fuel with
  | 0 => p
  | S fuel' =>
      match p with
      | (st, Suspended r) =>
          drive fuel' scan sinks
            (runFullScan_resume r (scan (stage r)) sinks st)
      | (_, Returned _) => p
      end
  end.

Definition runFullScan (config : VibeSecurityConfig) (scan : Scanners)
  (sinks : Sinks) (st : State) : State * Progress :=
  drive 4 scan sinks (runFullScan_call config st).

(** The value of a call that has returned. *)
Definition result_of (p : State * Progress) : option (list SecurityIssue) :=
  match snd p with
  | Returned l => Some l
  | Suspended _ => None
  end.

(** The process: the orchestrator state and the runs that are suspended. *)
Record Process := mkProcess {
  orch : State;
  suspended : list Run
}.

Definition remove_nth {A} (n : nat) (l : list A) : list A :=
  (firstn n l ++ skipn (S n) l)%list.

(** One step of the process: a new call of [runFullScan], or the
    resumption of a suspended run whose scanner has settled. *)
Inductive step : Process -> Process -> Prop :=
| step_call : forall config p st' pr,
    runFullScan_call config (orch p) = (st', pr) ->
    step p {| orch := st';
              suspended := match pr with
                           | Suspended r => r :: suspended p
                           | Returned _ => suspended p
                           end |}
| step_resume : forall n r o sinks p st' pr,
    nth_error (suspended p) n = Some r ->
    runFullScan_resume r o sinks (orch p) = (st', pr) ->
    step p {| orch := st';
              suspended := match pr with
                           | Suspended r' => r' :: remove_nth n (suspended p)
                           | Returned _ => remove_nth n (suspended p)
                           end |}.

Inductive reachable : Process -> Prop :=
| reach_init : reachable {| orch := initial; suspended := [] |}
| reach_step : forall p q, reachable p -> step p q -> reachable q.

(** The events of a trace that start a pass. *)
Definition is_scan_start (e : Event) : bool :=
  match e with EvScanSecrets => true | _ => false end.

Definition scans_started (st : State) : nat :=
  List.length (filter is_scan_start (trace st)).

End Orchestrator.

(* ------------------------------------------------------------------ *)
(** * The environment of the scanners *)
(* ------------------------------------------------------------------ *)

(** A regular expression object, as [new RegExp(source, flags)] builds it. *)
Record RegExp := mkRegExp {
  source : string;
  flags : string
}.

(** The regular-expression engine of the runtime.
    - [regex_test re s] is [re.test(s)] on a fresh object ([lastIndex] 0);
    - [regex_exec_indices re s] lists [match.index] over the loop
      [while ((match = re.exec(s)) !== null)] on a fresh global object;
    - [regex_exec_group1 re s] lists [match[1]] over the same loop.
    The expressions of the scanners never match the empty string, so
    these loops end. *)
Class RegExpEngine := {
  regex_test : RegExp -> string -> bool;
  regex_exec_indices : RegExp -> string -> list nat;
  regex_exec_group1 : RegExp -> string -> list string
}.

(** The options the scanners pass to [glob]. *)
Record GlobOptions := {
  cwd : string;
  absolute : bool;
  dot : bool;
  nodir : bool;
  ignore : list string
}.

(** The file system under the project root.  [readFileSync] is [None]
    where the call throws; [relative p] is [path.relative(projectRoot, p)]. *)
Record FileSystem := {
  glob : string -> GlobOptions -> list string;
  readFileSync : string -> option string;
  existsSync : string -> bool;
  relative : string -> string
}.

(** [path.join(a, b)] for the simple segments the scanners join. *)
Definition path_join (a b : string) : string := a ++ "/" ++ b.

(** The output of one scanner invocation.  The clock is read as one
    instant [now] per invocation, so [duration] is 0. *)
Record ScanResult := {
  issues : list SecurityIssue;
  scannedAt : Z;
  duration : Z
}.

(* ------------------------------------------------------------------ *)
(** * The secret scanner ([scanners/secret-scanner.ts]) *)
(* ------------------------------------------------------------------ *)

Module SecretScanner.

Record EnvEntry := mkEntry {
  e_key : string;
  e_value : string;
  e_line : nat
}.

(** [cleaned = trimmed.replace(/^export\s+/, '')]. *)
Definition strip_export (trimmed : string) : string :=
  if JS.startsWith "export" trimmed then
    let rest := JS.drop 6 trimmed in
    match rest with
    | String c _ => if JS.is_space c then JS.trimStart rest else trimmed
    | EmptyString => trimmed
    end
  else trimmed.

Definition is_quote (c : ascii) : bool :=
  Ascii.eqb c (ascii_of_nat 34) || Ascii.eqb c (ascii_of_nat 39).

Fixpoint strip_trailing_quote (s : string) : string :=
  match s with
  | EmptyString => EmptyString
  | String c EmptyString => if is_quote c then EmptyString else s
  | String c r => String c (strip_trailing_quote r)
  end.

(** [v.replace(/^["']|["']$/g, '')]. *)
Definition strip_quotes (v : string) : string :=
  match v with
  | String c r => if is_quote c then strip_trailing_quote r
                  else strip_trailing_quote v
  | EmptyString => EmptyString
  end.

(** The body of the [forEach] of [parseEnvFile]: the entry of one line. *)
Definition parseLine (index : nat) (rawLine : string) : option EnvEntry :=
  let trimmed := JS.trim rawLine in
  if negb (JS.truthy trimmed) || JS.startsWith "#" trimmed then None
  else
    let cleaned := strip_export trimmed in
    match JS.indexOf "="%char cleaned with
    | None => None
    | Some eqIndex =>
        let key := JS.trim (JS.take eqIndex cleaned) in
        let value := strip_quotes (JS.trim (JS.drop (eqIndex + 1) cleaned)) in
        Some {| e_key := key; e_value := value; e_line := index + 1 |}
    end.

Fixpoint parseLines (l : list (nat * string)) : list EnvEntry :=
  match l with
  | [] => []
  | (index, rawLine) :: r =>
      match parseLine index rawLine with
      | Some e => e :: parseLines r
      | None => parseLines r
      end
  end.

Definition parseContent (content : string) : list EnvEntry :=
  parseLines (JS.indexed (JS.splitLines content)).

(** [parseEnvFile]: an unreadable file has no entries. *)
Definition parseEnvFile (fs : FileSystem) (filePath : string)
  : list EnvEntry :=
  match readFileSync fs filePath with
  | Some content => parseContent content
  | None => []
  end.

Definition marker : string := "NEXT_PUBLIC_".

(** [key.replace(/^NEXT_PUBLIC_/, '')]. *)
Definition stripMarker (key : string) : string :=
  if JS.startsWith marker key then JS.drop 12 key else key.

Section WithEngine.
Context {engine : RegExpEngine}.

(** The test of the loop body of [matchesSensitivePattern]. *)
Definition pattern_hits (key : string) (patternDef : SensitivePattern)
  : bool :=
  let regex := mkRegExp (pattern patternDef) "i" in
  regex_test regex key || regex_test regex (stripMarker key).

Definition matchesSensitivePattern (key : string)
  (patterns : list SensitivePattern) : option SensitivePattern :=
  if negb (JS.startsWith marker key) then None
  else find (pattern_hits key) patterns.

End WithEngine.

(** A location recorded in [allEntries]. *)
Record Location := mkLoc {
  l_file : string;
  l_line : nat
}.

(** [allEntries]: a [Map] from key to locations. *)
Definition EntryMap := JS.Map Location.

Definition checkForDuplicateKey (key : string) (allEntries : EntryMap)
  : option string :=
  let strippedKey := stripMarker key in
  match JS.map_get strippedKey allEntries with
  | Some locations =>
      let locStr :=
        JS.join ", "
          (map (fun l => l_file l ++ ":" ++ JS.of_nat (l_line l)) locations) in
      Some ("Not: Bu anahtar NEXT_PUBLIC_ olmadan şu konumlarda da tanımlı: "
            ++ locStr
            ++ ". İstemci tarafı için NEXT_PUBLIC_ versiyonunu kaldırın ve sunucu tarafı versiyonunu kullanın.")
  | None => None
  end.

(** The issue pushed for a matching entry (lines 154-187). *)
Definition secretIssue (now : Z) (relativeFile : string) (entry : EnvEntry)
  (match_ : SensitivePattern) (allEntries : EntryMap) : SecurityIssue :=
  let hasValue := 0 <? String.length (e_value entry) in
  let valueWarning :=
    if hasValue
    then "Değer atanmış (" ++ JS.of_nat (String.length (e_value entry))
         ++ " karakter). Bu değer istemci JavaScript bundle'ına dahil edilecek!"
    else "Değer boş, ancak anahtar tanımı bile risklidir." in
  let duplicateNote := checkForDuplicateKey (e_key entry) allEntries in
  let issueId := "secret-" ++ relativeFile ++ "-" ++ e_key entry ++ "-"
                 ++ JS.of_nat (e_line entry) in
  let fullMessage :=
    JS.join JS.nl (JS.filter_truthy
      [ sp_message match_;
        "";
        "📌 Konum: " ++ relativeFile ++ ":" ++ JS.of_nat (e_line entry);
        "🔑 Anahtar: " ++ e_key entry;
        "📊 " ++ valueWarning;
        "";
        "💡 Çözüm: NEXT_PUBLIC_ önekini kaldırın ve bu değişkeni sadece sunucu tarafı kodlarından (API routes, Server Components, Server Actions) erişin.";
        match duplicateNote with
        | Some note => JS.nl ++ note
        | None => ""
        end ]) in
  {| id := issueId;
     category := secret_leak;
     severity := sp_severity match_;
     title := "🚨 GÜVENLİK RİSKİ: '" ++ e_key entry
              ++ "' istemci tarafına ifşa ediliyor!";
     message := fullMessage;
     file := Some relativeFile;
     line := Some (e_line entry);
     key := Some (e_key entry);
     table := None;
     timestamp := now |}.

Definition gitignoreIssue (now : Z) : SecurityIssue :=
  {| id := "gitignore-env-missing";
     category := general;
     severity := warning;
     title := "⚠️ .env dosyaları .gitignore'a eklenmemiş!";
     message := JS.join JS.nl
       [ ".env dosyalarınız .gitignore dosyasında yer almıyor.";
         "Bu dosyalar yanlışlıkla git repository'sine commit edilebilir.";
         "";
         "💡 Çözüm: .gitignore dosyanıza şu satırları ekleyin:";
         "   .env";
         "   .env.local";
         "   .env*.local" ];
     file := Some ".gitignore";
     line := None;
     key := None;
     table := None;
     timestamp := now |}.

Section Scan.
Context {engine : RegExpEngine}.
Variable fs : FileSystem.
Variable projectRoot : string.
Variable now : Z.

(** Step 1: the files the patterns of [envFiles] match, without repeats. *)
Definition uniqueFiles (config : SecretScannerConfig) : list string :=
  JS.uniq
    (flat_map
       (fun p => glob fs p {| cwd := projectRoot; absolute := true;
                              dot := true; nodir := true; ignore := [] |})
       (envFiles config)).

(** Step 2: [fileEntries], in the order of [uniqueFiles]. *)
Definition fileEntries (files : list string)
  : list (string * list EnvEntry) :=
  map (fun filePath => (filePath, parseEnvFile fs filePath)) files.

Definition push_entries (filePath : string) (entries : list EnvEntry)
  (m : EntryMap) : EntryMap :=
  fold_left
    (fun m entry =>
       JS.map_push (e_key entry)
         {| l_file := relative fs filePath; l_line := e_line entry |} m)
    entries m.

Definition allEntries (fes : list (string * list EnvEntry)) : EntryMap :=
  fold_left (fun m fe => push_entries (fst fe) (snd fe) m) fes [].

(** Step 3, the inner loop body: the issue of one entry, if any. *)
Definition entryIssue (config : SecretScannerConfig) (all : EntryMap)
  (relativeFile : string) (entry : EnvEntry) : list SecurityIssue :=
  match matchesSensitivePattern (e_key entry) (sensitivePatterns config) with
  | Some match_ => [secretIssue now relativeFile entry match_ all]
  | None => []
  end.

Definition fileIssues (config : SecretScannerConfig) (all : EntryMap)
  (fe : string * list EnvEntry) : list SecurityIssue :=
  flat_map (entryIssue config all (relative fs (fst fe))) (snd fe).

(** Step 4: the [.gitignore] check; a failing read is swallowed. *)
Definition gitignoreCheck : list SecurityIssue :=
  let gitignorePath := path_join projectRoot ".gitignore" in
  if existsSync fs gitignorePath then
    match readFileSync fs gitignorePath with
    | Some gitignoreContent =>
        let hasEnvLocal := JS.includes ".env*.local" gitignoreContent
                           || JS.includes ".env.local" gitignoreContent in
        let hasEnv := JS.includes ".env" gitignoreContent in
        if negb hasEnvLocal && negb hasEnv then [gitignoreIssue now] else []
    | None => []
    end
  else [].

Definition scanSecrets (config : SecretScannerConfig) : ScanResult :=
  let files := uniqueFiles config in
  match files with
  | [] => {| issues := []; scannedAt := now; duration := 0 |}
  | _ =>
      let fes := fileEntries files in
      let all := allEntries fes in
      {| issues := (flat_map (fileIssues config all) fes
                    ++ gitignoreCheck)%list;
         scannedAt := now;
         duration := 0 |}
  end.

End Scan.

End SecretScanner.

(* ------------------------------------------------------------------ *)
(** * The SQL-injection scanner ([scanners/sql-injection-scanner.ts]) *)
(* ------------------------------------------------------------------ *)

Module SQLInjection.

Record Pattern := mkSqlPattern {
  regex : RegExp;
  p_id : string;
  p_title : string;
  p_message : string;
  p_fix : string
}.

Definition rpc_template_literal : Pattern := {|
  regex := mkRegExp
    ("\.rpc\(\s*['" ++ JS.dq ++ "`]\w+['" ++ JS.dq
     ++ "`]\s*,\s*\{[^}]*`[^`]*\$\{[^}]+\}[^`]*`[^}]*\}") "g";
  p_id := "rpc-template-literal";
  p_title := "supabase.rpc() içinde template literal ile değişken gömülüyor";
  p_message := "supabase.rpc() parametrelerinde template literal (${ }) kullanmayın. Değişkenleri doğrudan parametre objesi olarak geçirin.";
  p_fix := JS.join JS.nl
    [ "// ❌ Yanlış:";
      "supabase.rpc('search_users', { query: `%${userInput}%` })";
      "";
      "// ✅ Doğru:";
      "supabase.rpc('search_users', { query: userInput })" ] |}.

Definition rpc_string_concat : Pattern := {|
  regex := mkRegExp
    ("\.rpc\(\s*['" ++ JS.dq ++ "`]\w+['" ++ JS.dq
     ++ "`]\s*,\s*\{[^}]*:\s*[a-zA-Z_$]\w*\s*\+\s*['" ++ JS.dq ++ "`]") "g";
  p_id := "rpc-string-concat";
  p_title := "supabase.rpc() içinde string birleştirme (concatenation) tespit edildi";
  p_message := "SQL sorgularında string birleştirme (+) yapmayın. Bu SQL injection'a açık kapı bırakır.";
  p_fix := JS.join JS.nl
    [ "// ❌ Yanlış:";
      "supabase.rpc('search', { term: userInput + '%' })";
      "";
      "// ✅ Doğru:";
      "supabase.rpc('search', { term: userInput })";
      "// SQL fonksiyonu içinde: WHERE name LIKE term || '%'" ] |}.

Definition raw_sql_template_literal : Pattern := {|
  regex := mkRegExp
    "`\s*(?:SELECT|INSERT|UPDATE|DELETE|ALTER|DROP|CREATE|TRUNCATE)\b[^`]*\$\{[^}]+\}[^`]*`"
    "gi";
  p_id := "raw-sql-template-literal";
  p_title := "Ham SQL sorgusunda template literal ile değişken gömülüyor";
  p_message := "SQL sorgularında doğrudan değişken gömmeyin. Parametreli sorgular (prepared statements) kullanın.";
  p_fix := JS.join JS.nl
    [ "// ❌ Yanlış:";
      "const query = `SELECT * FROM users WHERE id = '${userId}'`";
      "";
      "// ✅ Doğru (Supabase):";
      "supabase.from('users').select('*').eq('id', userId)";
      "";
      "// ✅ Doğru (Raw SQL with params):";
      "supabase.rpc('get_user', { user_id: userId })" ] |}.

Definition raw_sql_string_concat : Pattern := {|
  regex := mkRegExp
    ("['" ++ JS.dq
     ++ "`]\s*(?:SELECT|INSERT|UPDATE|DELETE|ALTER|DROP|CREATE)\b[^'"
     ++ JS.dq ++ "`]*['" ++ JS.dq ++ "`]\s*\+\s*[a-zA-Z_$]\w*") "gi";
  p_id := "raw-sql-string-concat";
  p_title := "Ham SQL sorgusunda string birleştirme ile değişken gömülüyor";
  p_message := "SQL sorgularını string birleştirme (+) ile oluşturmayın. Bu klasik SQL injection vektörüdür.";
  p_fix := JS.join JS.nl
    [ "// ❌ Yanlış:";
      "const query = " ++ JS.dq ++ "SELECT * FROM users WHERE name = '"
        ++ JS.dq ++ " + userName + " ++ JS.dq ++ "'" ++ JS.dq;
      "";
      "// ✅ Doğru:";
      "supabase.from('users').select('*').eq('name', userName)" ] |}.

Definition filter_template_literal : Pattern := {|
  regex := mkRegExp "\.(?:filter|or|and)\(\s*`[^`]*\$\{[^}]+\}[^`]*`\s*\)" "g";
  p_id := "filter-template-literal";
  p_title := ".filter() / .or() içinde template literal ile değişken gömülüyor";
  p_message := "Supabase filter ifadelerinde template literal kullanmak güvensizdir.";
  p_fix := JS.join JS.nl
    [ "// ❌ Yanlış:";
      "supabase.from('posts').select().or(`author_id.eq.${userId},public.eq.true`)";
      "";
      "// ✅ Doğru:";
      "supabase.from('posts').select().or('author_id.eq.' + userId + ',public.eq.true')";
      "// Veya daha güvenli:";
      "supabase.from('posts').select().eq('author_id', userId).eq('public', true)" ] |}.

Definition search_template_literal : Pattern := {|
  regex := mkRegExp
    ("\.(?:textSearch|ilike|like)\(\s*['" ++ JS.dq ++ "`]\w+['" ++ JS.dq
     ++ "`]\s*,\s*`[^`]*\$\{[^}]+\}[^`]*`\s*\)") "g";
  p_id := "search-template-literal";
  p_title := "Arama sorgusunda template literal ile kullanıcı girişi gömülüyor";
  p_message := "textSearch/ilike/like sorgularında kullanıcı girdisini doğrudan template literal ile gömmeyin.";
  p_fix := JS.join JS.nl
    [ "// ❌ Yanlış:";
      "supabase.from('posts').select().ilike('title', `%${searchTerm}%`)";
      "";
      "// ✅ Doğru:";
      "supabase.from('posts').select().ilike('title', '%' + searchTerm + '%')";
      "// Veya sanitize edin:";
      "const sanitized = searchTerm.replace(/[%_]/g, '')";
      "supabase.from('posts').select().ilike('title', `%${sanitized}%`)" ] |}.

Definition SQL_INJECTION_PATTERNS : list Pattern :=
  [ rpc_template_literal; rpc_string_concat; raw_sql_template_literal;
    raw_sql_string_concat; filter_template_literal; search_template_literal ].

(** [flags.replace('g', '')]: the first occurrence only. *)
Fixpoint remove_first (c : ascii) (s : string) : string :=
  match s with
  | EmptyString => EmptyString
  | String d r => if Ascii.eqb c d then r else String d (remove_first c r)
  end.

(** Lines 152-154: the object the whole-file pass executes. *)
Definition fullRegex (p : Pattern) : RegExp :=
  let fl := flags (regex p) in
  let fl_m := fl ++ (if JS.includes "m" fl then "" else "m") in
  mkRegExp (source (regex p)) (remove_first "g"%char fl_m ++ "g").

Definition lineIssueId (p : Pattern) (relativePath : string) (lineNum : nat)
  : string :=
  "sqli-" ++ p_id p ++ "-" ++ relativePath ++ "-" ++ JS.of_nat lineNum.

Definition multiIssueId (p : Pattern) (relativePath : string) (lineNum : nat)
  : string :=
  "sqli-multi-" ++ p_id p ++ "-" ++ relativePath ++ "-" ++ JS.of_nat lineNum.

Definition lineIssue (now : Z) (p : Pattern) (relativePath : string)
  (lineNum : nat) (lineContent : string) : SecurityIssue :=
  {| id := lineIssueId p relativePath lineNum;
     category := general;
     severity := critical;
     title := "💉 SQL INJECTION RİSKİ: " ++ p_title p;
     message := JS.join JS.nl
       [ p_message p;
         "";
         "📄 Konum: " ++ relativePath ++ ":" ++ JS.of_nat lineNum;
         "📝 Satır: " ++ JS.trim lineContent;
         "";
         "🔧 Düzeltme Örneği:";
         p_fix p ];
     file := Some relativePath;
     line := Some lineNum;
     key := None;
     table := None;
     timestamp := now |}.

Definition multiIssue (now : Z) (p : Pattern) (relativePath : string)
  (lineNum : nat) : SecurityIssue :=
  {| id := multiIssueId p relativePath lineNum;
     category := general;
     severity := critical;
     title := "💉 SQL INJECTION RİSKİ: " ++ p_title p;
     message := JS.join JS.nl
       [ p_message p;
         "";
         "📄 Konum: " ++ relativePath ++ ":" ++ JS.of_nat lineNum;
         "";
         "🔧 Düzeltme Örneği:";
         p_fix p ];
     file := Some relativePath;
     line := Some lineNum;
     key := None;
     table := None;
     timestamp := now |}.

(** [issues.some((i) => i.id === issueId)]. *)
Definition has_id (issueId : string) (l : list SecurityIssue) : bool :=
  existsb (fun i => String.eqb (id i) issueId) l.

(** [issues.some((i) => i.file === relativePath && i.line === lineNum)]. *)
Definition has_location (relativePath : string) (lineNum : nat)
  (l : list SecurityIssue) : bool :=
  existsb (fun i => JS.is_string (file i) relativePath
                    && JS.is_number (line i) lineNum) l.

Section WithEngine.
Context {engine : RegExpEngine}.
Variable now : Z.

(** The body of the inner [for] of the per-line pass. *)
Definition linePatternStep (relativePath : string) (lineNum : nat)
  (lineContent : string) (acc : list SecurityIssue) (p : Pattern)
  : list SecurityIssue :=
  let re := mkRegExp (source (regex p)) (flags (regex p)) in
  if regex_test re lineContent then
    if has_id (lineIssueId p relativePath lineNum) acc then acc
    else (acc ++ [lineIssue now p relativePath lineNum lineContent])%list
  else acc.

(** The body of [lines.forEach]. *)
Definition lineStep (relativePath : string) (acc : list SecurityIssue)
  (il : nat * string) : list SecurityIssue :=
  let lineNum := fst il + 1 in
  fold_left (linePatternStep relativePath lineNum (snd il))
    SQL_INJECTION_PATTERNS acc.

Definition perLinePass (relativePath content : string)
  : list SecurityIssue :=
  fold_left (lineStep relativePath) (JS.indexed (JS.splitLines content)) [].

(** The body of the [while] of the whole-file pass, for one match. *)
Definition matchStep (relativePath content : string) (p : Pattern)
  (acc : list SecurityIssue) (index : nat) : list SecurityIssue :=
  let beforeMatch := JS.take index content in
  let lineNum := JS.count_newlines beforeMatch + 1 in
  if negb (has_id (multiIssueId p relativePath lineNum) acc)
     && negb (has_location relativePath lineNum acc)
  then (acc ++ [multiIssue now p relativePath lineNum])%list
  else acc.

Definition wholeFileStep (relativePath content : string)
  (acc : list SecurityIssue) (p : Pattern) : list SecurityIssue :=
  fold_left (matchStep relativePath content p)
    (regex_exec_indices (fullRegex p) content) acc.

Definition wholeFilePass (relativePath content : string)
  (acc : list SecurityIssue) : list SecurityIssue :=
  fold_left (wholeFileStep relativePath content) SQL_INJECTION_PATTERNS acc.

(** The [try] body of [scanFileForSQLInjection] on a file that was read. *)
Definition scanContent (relativePath content : string)
  : list SecurityIssue :=
  wholeFilePass relativePath content (perLinePass relativePath content).

Definition scanFileForSQLInjection (fs : FileSystem) (filePath : string)
  : list SecurityIssue :=
  match readFileSync fs filePath with
  | Some content => scanContent (relative fs filePath) content
  | None => []
  end.

Definition scanSQLInjection (fs : FileSystem) (projectRoot : string)
  (scanDirs extensions excludeDirs : list string) : ScanResult :=
  let allIssues :=
    flat_map
      (fun dir =>
         let dirPath := path_join projectRoot dir in
         if existsSync fs dirPath then
           flat_map
             (fun ext =>
                flat_map (scanFileForSQLInjection fs)
                  (glob fs ("**/*" ++ ext)
                     {| cwd := dirPath; absolute := true; dot := false;
                        nodir := false;
                        ignore := map (fun d => "**/" ++ d ++ "/**")
                                    excludeDirs |}))
             extensions
         else [])
      scanDirs in
  {| issues := allIssues; scannedAt := now; duration := 0 |}.

End WithEngine.

End SQLInjection.

(* ------------------------------------------------------------------ *)
(** * The RLS scanner ([scanners/rls-scanner.ts]) *)
(* ------------------------------------------------------------------ *)

Module RLSScanner.

(** What a [fetch] followed by [response.json()] comes to. *)
Inductive Response (A : Type) :=
| NetworkError (msg : string)       (* [fetch] rejects *)
| NotOk                             (* [response.ok] is false *)
| BadBody (msg : string)            (* [response.json()] rejects *)
| Body (data : A).
Arguments NetworkError {A} msg.
Arguments NotOk {A}.
Arguments BadBody {A} msg.
Arguments Body {A} data.

(** A JSON object with the two fields the scanner reads; a field is
    [None] where it is [null] or missing. *)
Record StatusRow := {
  rls_enabled : option bool;
  has_auth_policy : option bool
}.

(** The body of the [exec_sql] answer. *)
Inductive ExecBody :=
| NotAnArray
| Rows (rows : list StatusRow).

(** The external authority: the two remote procedures, as functions of
    the connection data and of the table asked about. *)
Record Authority := {
  check_rls_status : string -> string -> string -> Response (option StatusRow);
  exec_sql : string -> string -> string -> Response ExecBody
}.

Record RLSStatus := {
  rlsEnabled : bool;
  hasAuthPolicy : bool;
  error : option string
}.

(** [x ?? false]. *)
Definition or_false (x : option bool) : bool :=
  match x with Some b => b | None => false end.

Definition failed (msg : string) : RLSStatus :=
  {| rlsEnabled := false; hasAuthPolicy := false; error := Some msg |}.

Definition checkRLSViaDirectQuery (auth : Authority)
  (tableName supabaseUrl serviceRoleKey : string) : RLSStatus :=
  match exec_sql auth supabaseUrl serviceRoleKey tableName with
  | NotOk =>
      failed ("RLS kontrolü için Supabase RPC fonksiyonları mevcut değil. Manuel kontrol önerilir. Detay: Supabase SQL Editor'da "
              ++ JS.dq ++ "SELECT relrowsecurity FROM pg_class WHERE relname = '"
              ++ tableName ++ "'" ++ JS.dq ++ " sorgusunu çalıştırın.")
  | Body (Rows (row :: _)) =>
      {| rlsEnabled := or_false (rls_enabled row);
         hasAuthPolicy := or_false (has_auth_policy row);
         error := None |}
  | Body _ =>
      failed ("'" ++ tableName ++ "' tablosu bulunamadı veya erişilemedi.")
  | NetworkError msg | BadBody msg =>
      failed ("Doğrudan SQL kontrolü başarısız: " ++ msg)
  end.

Definition checkRLSStatus (auth : Authority)
  (tableName supabaseUrl serviceRoleKey : string) : RLSStatus :=
  if negb (JS.truthy supabaseUrl) || negb (JS.truthy serviceRoleKey) then
    failed "Supabase bağlantı bilgileri eksik. SUPABASE_URL ve SUPABASE_SERVICE_ROLE_KEY ayarlanmalıdır."
  else
    match check_rls_status auth supabaseUrl serviceRoleKey tableName with
    | NotOk =>
        checkRLSViaDirectQuery auth tableName supabaseUrl serviceRoleKey
    | Body data =>
        {| rlsEnabled :=
             or_false (match data with Some r => rls_enabled r | None => None end);
           hasAuthPolicy :=
             or_false (match data with Some r => has_auth_policy r | None => None end);
           error := None |}
    | NetworkError msg | BadBody msg =>
        failed ("RLS durumu kontrol edilemedi: " ++ msg)
    end.

Record Usage := mkUsage {
  u_file : string;
  u_line : nat;
  u_context : string
}.

Record Query := mkQuery {
  q_table : string;
  q_line : nat;
  q_context : string
}.

Definition SUPABASE_FROM_REGEX : RegExp :=
  mkRegExp ("\.from\(\s*['" ++ JS.dq ++ "`]([a-zA-Z_][a-zA-Z0-9_]*)['"
            ++ JS.dq ++ "`]\s*\)") "g".

Definition usageLocations (usages : list Usage) : string :=
  JS.join JS.nl
    (map (fun u => "  📄 " ++ u_file u ++ ":" ++ JS.of_nat (u_line u)
                   ++ " → " ++ u_context u) usages).

Definition rlsDisabledIssue (now : Z) (tableName : string)
  (usages : list Usage) (rlsStatus : RLSStatus) : SecurityIssue :=
  {| id := "rls-disabled-" ++ tableName;
     category := rls_missing;
     severity := critical;
     title := "🚨 GÜVENLİK RİSKİ: '" ++ tableName
              ++ "' tablosunda RLS aktif değil! Verilerin ifşa olabilir.";
     message := JS.join JS.nl (JS.filter_truthy
       [ "'" ++ tableName ++ "' tablosunda Row Level Security (RLS) aktif değil.";
         "Bu, tüm kullanıcıların bu tablodaki tüm verilere erişebileceği anlamına gelir.";
         "";
         "📍 Bu tablo şu dosyalarda kullanılıyor:";
         usageLocations usages;
         "";
         match error rlsStatus with
         | Some e => if JS.truthy e then "⚠️  " ++ e else ""
         | None => ""
         end;
         "";
         "💡 Çözüm: Supabase Dashboard → Authentication → Policies bölümünden";
         "   ALTER TABLE public." ++ tableName ++ " ENABLE ROW LEVEL SECURITY;";
         "   komutuyla RLS'i aktif edin ve uygun politikalar oluşturun." ]);
     file := None;
     line := None;
     key := None;
     table := Some tableName;
     timestamp := now |}.

Definition rlsNoAuthIssue (now : Z) (tableName : string)
  (usages : list Usage) : SecurityIssue :=
  {| id := "rls-no-auth-" ++ tableName;
     category := rls_no_auth;
     severity := warning;
     title := "⚠️ '" ++ tableName ++ "' tablosunda auth.uid() kontrolü bulunamadı!";
     message := JS.join JS.nl
       [ "'" ++ tableName ++ "' tablosunda RLS aktif, ancak auth.uid() kontrolü içeren bir politika bulunamadı.";
         "Bu, kullanıcıların diğer kullanıcıların verilerine erişebileceği anlamına gelebilir.";
         "";
         "📍 Bu tablo şu dosyalarda kullanılıyor:";
         usageLocations usages;
         "";
         "💡 Çözüm: Tabloya auth.uid() kontrolü içeren bir RLS politikası ekleyin:";
         "   CREATE POLICY " ++ JS.dq ++ "Users can view own data" ++ JS.dq
           ++ " ON public." ++ tableName;
         "     FOR SELECT USING (auth.uid() = user_id);" ];
     file := None;
     line := None;
     key := None;
     table := Some tableName;
     timestamp := now |}.

(** [rlsStatus.error] as a condition: a present, non-empty string. *)
Definition has_error (s : RLSStatus) : bool :=
  match error s with Some e => JS.truthy e | None => false end.

Section WithEngine.
Context {engine : RegExpEngine}.
Variable fs : FileSystem.
Variable auth : Authority.
Variable projectRoot : string.
Variable now : Z.

(** The body of [lines.forEach] of [findSupabaseQueries]. *)
Definition lineQueries (il : nat * string) : list Query :=
  map (fun t => {| q_table := t; q_line := fst il + 1;
                   q_context := JS.trim (snd il) |})
      (regex_exec_group1 (mkRegExp (source SUPABASE_FROM_REGEX) "g") (snd il)).

Definition findSupabaseQueries (filePath : string) : list Query :=
  match readFileSync fs filePath with
  | Some content => flat_map lineQueries (JS.indexed (JS.splitLines content))
  | None => []
  end.

(** Step 1: the files to scan, one [glob] per directory and extension. *)
Definition sourceFiles (config : RLSScannerConfig) : list string :=
  flat_map
    (fun dir =>
       let dirPath := path_join projectRoot dir in
       if existsSync fs dirPath then
         flat_map
           (fun pat =>
              glob fs pat
                {| cwd := dirPath; absolute := true; dot := false;
                   nodir := false;
                   ignore := map (fun d => "**/" ++ d ++ "/**")
                               (excludeDirs config) |})
           (map (fun ext => "**/*" ++ ext) (extensions config))
       else [])
    (scanDirs config).

(** Step 2: [tableUsages]. *)
Definition addFile (m : JS.Map Usage) (filePath : string) : JS.Map Usage :=
  fold_left
    (fun m query =>
       JS.map_push (q_table query)
         {| u_file := relative fs filePath; u_line := q_line query;
            u_context := q_context query |} m)
    (findSupabaseQueries filePath) m.

Definition tableUsages (files : list string) : JS.Map Usage :=
  fold_left addFile files [].

(** Step 3, the loop body once the table is known not to be whitelisted:
    the issues of one table. *)
Definition tableIssues (config : RLSScannerConfig) (tableName : string)
  (usages : list Usage) : list SecurityIssue :=
  let rlsStatus := checkRLSStatus auth tableName (supabaseUrl config)
                     (supabaseServiceRoleKey config) in
  ((if negb (rlsEnabled rlsStatus)
    then [rlsDisabledIssue now tableName usages rlsStatus] else [])
   ++
   (if rlsEnabled rlsStatus && negb (hasAuthPolicy rlsStatus)
       && negb (has_error rlsStatus)
    then [rlsNoAuthIssue now tableName usages] else []))%list.

(** Step 3: the loop over [tableUsages], with the set [checkedTables]. *)
Fixpoint checkTables (config : RLSScannerConfig) (checkedTables : list string)
  (entries : JS.Map Usage) : list SecurityIssue :=
  match entries with
  | [] => []
  | (tableName, usages) :: rest =>
      if JS.mem tableName checkedTables
      then checkTables config checkedTables rest
      else
        let checked := tableName :: checkedTables in
        if JS.mem tableName (whitelistedTables config)
        then checkTables config checked rest
        else (tableIssues config tableName usages
              ++ checkTables config checked rest)%list
  end.

Definition scanRLS (config : RLSScannerConfig) : ScanResult :=
  if negb (rls_enabled_flag config)
  then {| issues := []; scannedAt := now; duration := 0 |}
  else
    let usages := tableUsages (sourceFiles config) in
    match usages with
    | [] => {| issues := []; scannedAt := now; duration := 0 |}
    | _ => {| issues := checkTables config [] usages;
              scannedAt := now; duration := 0 |}
    end.

End WithEngine.

End RLSScanner.

(* ------------------------------------------------------------------ *)
(** * The direct-database RLS scanner (the [pg] variant of [scanRLS]) *)
(* ------------------------------------------------------------------ *)

Module DirectDb.

(** The issues of this file are plain objects without [id], [line] or
    [timestamp]. *)
Record Issue := {
  severity : Severity;
  category : IssueCategory;
  table : option string;
  title : string;
  message : string;
  file : string
}.

Inductive Connect :=
| Connected
| ConnectFails (msg : string).

(** A row of the catalogue query; [policy_count] is what [parseInt]
    makes of the column, [None] for [NaN]. *)
Record Row := {
  table_name : string;
  rls_enabled : bool;
  policy_count : option nat
}.

Inductive QueryResult :=
| QueryRows (rows : list Row)
| QueryFails (msg : string).

(** The database behind [databaseUrl]: what the first connection (with
    [ssl]) does, what the retry without [ssl] does, and what the query
    answers.  [client.end()] never rejects. *)
Record Database := {
  connect_ssl : Connect;
  connect_plain : Connect;
  query : QueryResult
}.

Record UsageStub := {
  s_file : string;
  s_line : nat
}.

Record Result := {
  issues : list Issue;
  filteredTables : list (string * list UsageStub)
}.

Definition missingUrlIssue : Issue :=
  {| severity := warning;
     category := rls_check;
     table := None;
     title := "⚠️ Veritabanı URL bulunamadı!";
     message := "RLS taraması için DATABASE_URL (ör. .env.local içinde) gerekli.";
     file := ".env.local" |}.

Definition connectionErrorIssue (msg : string) : Issue :=
  {| severity := critical;
     category := rls_check;
     table := None;
     title := "🔴 Veritabanı Bağlantı Hatası: " ++ msg;
     message := "RLS taraması için veritabanına bağlanılamadı. IP kısıtlamaları veya yanlış URL olabilir.";
     file := ".env.local" |}.

Definition rowIssue (row : Row) : Issue :=
  let tableName := table_name row in
  if negb (rls_enabled row) then
    {| severity := critical;
       category := rls_check;
       table := Some tableName;
       title := "🔴 RLS KAPALI: '" ++ tableName ++ "' tablosu savunmasız!";
       message := "Bu tabloda RLS etkinleştirilmemiş. Herkes veri okuyabilir veya yazabilir.";
       file := "(direct db)" |}
  else
    match policy_count row with
    | Some 0 =>
        {| severity := warning;
           category := rls_check;
           table := Some tableName;
           title := "🟡 RLS AÇIK AMA POLİTİKA YOK: '" ++ tableName ++ "'";
           message := "RLS açık ancak hiç policy tanımlanmamış. Kimse veriye erişemez, bu kasıtlı değilse bir hata olabilir.";
           file := "(direct db)" |}
    | pc =>
        {| severity := info;
           category := rls_check;
           table := Some tableName;
           title := "✅ RLS AÇIK: '" ++ tableName ++ "' tablosunda "
                    ++ match pc with Some n => JS.of_nat n | None => "NaN" end
                    ++ " politika var.";
           message := "Standart kontrol başarılı.";
           file := "(direct db)" |}
    end.

(** [whitelisted && whitelisted.includes(tableName)]. *)
Definition is_whitelisted (whitelisted : option (list string))
  (tableName : string) : bool :=
  match whitelisted with
  | Some l => JS.mem tableName l
  | None => false
  end.

(** [filteredTables.set(k, v)]: a set replaces the binding in place. *)
Fixpoint map_set {A} (k : string) (v : A) (m : list (string * A))
  : list (string * A) :=
  match m with
  | [] => [(k, v)]
  | (k', v') :: r =>
      if String.eqb k k' then (k', v) :: r else (k', v') :: map_set k v r
  end.

(** The body of [for (const row of res.rows)]. *)
Definition rowStep (whitelisted : option (list string)) (acc : Result)
  (row : Row) : Result :=
  let tables := map_set (table_name row)
                  [{| s_file := "database -> public"; s_line := 1 |}]
                  (filteredTables acc) in
  if is_whitelisted whitelisted (table_name row)
  then {| issues := issues acc; filteredTables := tables |}
  else {| issues := (issues acc ++ [rowIssue row])%list;
          filteredTables := tables |}.

(** The connection, with its retry when the message mentions SSL: the
    message of the fault that leaves the inner [try], if any. *)
Definition connect (db : Database) : option string :=
  match connect_ssl db with
  | Connected => None
  | ConnectFails msg =>
      if JS.truthy msg && JS.includes "SSL" msg then
        match connect_plain db with
        | Connected => None
        | ConnectFails msg' => Some msg'
        end
      else Some msg
  end.

Definition scanRLS (db : Database) (databaseUrl : string)
  (whitelisted : option (list string)) : Result :=
  let empty := {| issues := []; filteredTables := [] |} in
  if negb (JS.truthy databaseUrl)
  then {| issues := [missingUrlIssue]; filteredTables := [] |}
  else
    match connect db with
    | Some msg =>
        {| issues := [connectionErrorIssue msg]; filteredTables := [] |}
    | None =>
        match query db with
        | QueryFails msg =>
            {| issues := [connectionErrorIssue msg]; filteredTables := [] |}
        | QueryRows rows => fold_left (rowStep whitelisted) rows empty
        end
    end.

End DirectDb.

(* ------------------------------------------------------------------ *)
(** * The watch scheduler ([startWatchdog] of [index.ts]) *)
(* ------------------------------------------------------------------ *)

(** Time is the simulated clock of the process, in milliseconds.  A timer
    armed by [setTimeout(cb, d)] at time [t] is due at [t + d]; the
    event loop runs the callback of a timer when the clock reaches its due
    time, unless [clearTimeout] removed it before. *)

Module Watchdog.

Record Timer := mkTimer {
  handle : nat;
  due : nat
}.

(** What the process does, with the time at which it does it. *)
Inductive Event :=
| EvChangeDetected (relativePath : string)   (* the console line *)
| EvLoadConfig                               (* loadConfig(projectRoot) *)
| EvRunFullScan (config : VibeSecurityConfig).

Record State := mkState {
  clock : nat;
  debounceTimer : option nat;     (* [let debounceTimer: Timeout | null] *)
  timers : list Timer;            (* the timers that are armed *)
  next_handle : nat;
  trace : list (nat * Event)
}.

Definition initial : State :=
  {| clock := 0; debounceTimer := None; timers := [];
     next_handle := 0; trace := [] |}.

Section Scheduler.
(** The configuration [startWatchdog] loaded, which fixes the debounce
    delay, and what [loadConfig] finds at a given time. *)
Variable config : VibeSecurityConfig.
Variable loadConfig : nat -> VibeSecurityConfig.
Variable relative : string -> string.

Definition clearTimeout (h : nat) (st : State) : State :=
  {| clock := clock st;
     debounceTimer := debounceTimer st;
     timers := filter (fun t => negb (Nat.eqb (handle t) h)) (timers st);
     next_handle := next_handle st;
     trace := trace st |}.

Definition log (e : Event) (st : State) : State :=
  {| clock := clock st;
     debounceTimer := debounceTimer st;
     timers := timers st;
     next_handle := next_handle st;
     trace := (trace st ++ [(clock st, e)])%list |}.

(** [debounceTimer = setTimeout(callback, delay)]. *)
Definition setTimeout (delay : nat) (st : State) : State :=
  {| clock := clock st;
     debounceTimer := Some (next_handle st);
     timers := (timers st
                ++ [{| handle := next_handle st; due := clock st + delay |}])%list;
     next_handle := S (next_handle st);
     trace := trace st |}.

(** The handler of the [change], [add] and [unlink] events. *)
Definition scheduleRescan (changedPath : string) (st : State) : State :=
  let st1 := match debounceTimer st with
             | Some h => clearTimeout h st
             | None => st
             end in
  let st2 := log (EvChangeDetected (relative changedPath)) st1 in
  setTimeout (debounceMs (watcher config)) st2.

(** The callback of the timer: reload, then scan. *)
Definition callback (st : State) : State :=
  let freshConfig := loadConfig (clock st) in
  log (EvRunFullScan freshConfig) (log EvLoadConfig st).

Definition set_clock (t : nat) (st : State) : State :=
  {| clock := t;
     debounceTimer := debounceTimer st;
     timers := timers st;
     next_handle := next_handle st;
     trace := trace st |}.

(** The armed timer that is due first (the oldest one among equals). *)
Fixpoint earliest (l : list Timer) : option Timer :=
  match l with
  | [] => None
  | t :: r =>
      match earliest r with
      | Some u => if due u <? due t then Some u else Some t
      | None => Some t
      end
  end.

(** The event loop up to time [t]: the timers due by then fire in the
    order of their due times.  A callback arms no timer, so each round
    removes one timer. *)
Fixpoint run_timers (fuel : nat) (t : nat) (st : State) : State :=
  match fuel with
  | 0 => st
  | S fuel' =>
      match earliest (timers st) with
      | Some tm =>
          if due tm <=? t then
            let st1 := clearTimeout (handle tm)
                         (set_clock (Nat.max (clock st) (due tm)) st) in
            run_timers fuel' t (callback st1)
          else st
      | None => st
      end
  end.

Definition advance (t : nat) (st : State) : State :=
  let st1 := run_timers (List.length (timers st)) t st in
  set_clock (Nat.max (clock st1) t) st1.

(** A file-system event at time [t]. *)
Definition on_event (st : State) (ev : nat * string) : State :=
  scheduleRescan (snd ev) (advance (fst ev) st).

(** The process from [st]: the file-system events [evs], then the clock
    runs on to [horizon]. *)
Definition run (evs : list (nat * string)) (horizon : nat) (st : State)
  : State :=
  advance horizon (fold_left on_event evs st).

(** The rescans of a trace: the callback events, with their times. *)
Definition is_callback_event (e : nat * Event) : bool :=
  match snd e with
  | EvChangeDetected _ => false
  | EvLoadConfig | EvRunFullScan _ => true
  end.

Definition rescans (st : State) : list (nat * Event) :=
  filter is_callback_event (trace st).

End Scheduler.

(** A burst: the events are in time order and two consecutive ones are
    less than [d] apart. *)
Fixpoint burst (d : nat) (last : nat) (times : list nat) : Prop :=
  match times with
  | [] => True
  | t :: r => last <= t /\ t < last + d /\ burst d t r
  end.

End Watchdog.

(* ------------------------------------------------------------------ *)
(** * The standalone command line ([security-watchdog.ts]) *)
(* ------------------------------------------------------------------ *)

Module CLI.

(** The issues of this file are plain objects; [category] also takes the
    values ['sql-injection'] and ['api-key']. *)
Record Issue := {
  severity : Severity;
  category : string;
  title : string;
  message : string;
  file : option string;
  line : option nat;
  key : option string;
  table : option string;
  context : option string
}.

Record EnvEntry := {
  e_key : string;
  e_value : string;
  e_line : nat;
  e_file : string
}.

Record Usage := {
  u_file : string;
  u_line : nat;
  u_context : string
}.

Record SqlPattern := {
  sp_regex : RegExp;
  sp_id : string;
  sp_title : string
}.

Record Rule := {
  r_id : string;
  r_service : string;
  r_envKeys : list string;
  r_codePatterns : list RegExp
}.

(** How a call of [runScan] ends. *)
Inductive Termination :=
| Exit (code : nat)        (* [process.exit(code)] *)
| Returns                  (* the function returns *)
| Uncaught.                (* an exception leaves the function *)

Record ScanRun := {
  termination : Termination;
  found : option (list Issue)   (* the issues, when the report is reached *)
}.

(** How the process is started. *)
Inductive Mode := ModeInit | ModeWatch | ModeScan.

Definition sqlPatterns : list SqlPattern :=
  [ {| sp_regex := mkRegExp
         ("\.rpc\(\s*['" ++ JS.dq ++ "`]\w+['" ++ JS.dq
          ++ "`]\s*,\s*\{[^}]*`[^`]*\$\{[^}]+\}[^`]*`[^}]*\}") "g";
       sp_id := "rpc-template";
       sp_title := "supabase.rpc() içinde template literal" |};
    {| sp_regex := mkRegExp
         ("\.rpc\(\s*['" ++ JS.dq ++ "`]\w+['" ++ JS.dq
          ++ "`]\s*,\s*\{[^}]*:\s*[a-zA-Z_$]\w*\s*\+\s*['" ++ JS.dq ++ "`]") "g";
       sp_id := "rpc-concat";
       sp_title := "supabase.rpc() içinde string birleştirme" |};
    {| sp_regex := mkRegExp
         "`\s*(?:SELECT|INSERT|UPDATE|DELETE|ALTER|DROP|CREATE|TRUNCATE)\b[^`]*\$\{[^}]+\}[^`]*`"
         "gi";
       sp_id := "raw-sql-tpl";
       sp_title := "Ham SQL'de template literal" |};
    {| sp_regex := mkRegExp
         ("['" ++ JS.dq
          ++ "`]\s*(?:SELECT|INSERT|UPDATE|DELETE|ALTER|DROP|CREATE)\b[^'"
          ++ JS.dq ++ "`]*['" ++ JS.dq ++ "`]\s*\+\s*[a-zA-Z_$]\w*") "gi";
       sp_id := "raw-sql-concat";
       sp_title := "Ham SQL'de string birleştirme" |};
    {| sp_regex := mkRegExp
         "\.(?:filter|or|and)\(\s*`[^`]*\$\{[^}]+\}[^`]*`\s*\)" "g";
       sp_id := "filter-tpl";
       sp_title := ".filter()/.or() içinde template literal" |} ].

Definition rules : list Rule :=
  [ {| r_id := "serper"; r_service := "Serper.dev";
       r_envKeys := ["SERPER"; "SERP_API"];
       r_codePatterns := [ mkRegExp "serper\.dev" "gi";
                           mkRegExp "SERPER_API_KEY" "g";
                           mkRegExp "SERP_API_KEY" "g" ] |};
    {| r_id := "openai"; r_service := "OpenAI";
       r_envKeys := ["OPENAI_API_KEY"; "OPENAI_SECRET"];
       r_codePatterns := [ mkRegExp "OPENAI_API_KEY" "g";
                           mkRegExp "openai\.com\/v1" "gi";
                           mkRegExp "new\s+OpenAI\s*\(" "g" ] |};
    {| r_id := "anthropic"; r_service := "Anthropic";
       r_envKeys := ["ANTHROPIC_API_KEY"; "CLAUDE_API_KEY"];
       r_codePatterns := [ mkRegExp "ANTHROPIC_API_KEY" "g";
                           mkRegExp "anthropic\.com" "gi" ] |};
    {| r_id := "google-ai"; r_service := "Google AI";
       r_envKeys := ["GOOGLE_API_KEY"; "GEMINI_API_KEY"];
       r_codePatterns := [ mkRegExp "GOOGLE_API_KEY" "g";
                           mkRegExp "GEMINI_API_KEY" "g";
                           mkRegExp "generativelanguage\.googleapis\.com" "gi" ] |} ].

(** [rel.replace(/\\/g, '/')]. *)
Fixpoint slashes (s : string) : string :=
  match s with
  | EmptyString => EmptyString
  | String c r =>
      String (if Ascii.eqb c (ascii_of_nat 92) then "/"%char else c) (slashes r)
  end.

Section WithEngine.
Context {engine : RegExpEngine}.
Variable fs : FileSystem.
Variable projectRoot : string.

(** [walkDir]: the files under a directory with one of the extensions,
    outside the excluded directories. *)
Variable walkDir : string -> list string -> list string -> list string.

Definition parseEnvFile (filePath : string) : list SecretScanner.EnvEntry :=
  match readFileSync fs filePath with
  | Some content => SecretScanner.parseContent content
  | None => []
  end.

Definition with_file (envPattern : string) (e : SecretScanner.EnvEntry)
  : EnvEntry :=
  {| e_key := SecretScanner.e_key e;
     e_value := SecretScanner.e_value e;
     e_line := SecretScanner.e_line e;
     e_file := envPattern |}.

(** The entries of the environment files that exist (lines 341-346). *)
Definition envEntries (envPatterns : list string) : list EnvEntry :=
  flat_map
    (fun envPattern =>
       let envPath := path_join projectRoot envPattern in
       if existsSync fs envPath
       then map (with_file envPattern) (parseEnvFile envPath)
       else [])
    envPatterns.

(** Lines 348-361: one issue per entry and per pattern that matches. *)
Definition secretIssues (sensitive : list SensitivePattern)
  (entry : EnvEntry) : list Issue :=
  if negb (JS.startsWith "NEXT_PUBLIC_" (e_key entry)) then []
  else
    let strippedKey := SecretScanner.stripMarker (e_key entry) in
    flat_map
      (fun p =>
         let regex := mkRegExp (pattern p) "i" in
         if regex_test regex (e_key entry) || regex_test regex strippedKey
         then [ {| severity := sp_severity p;
                   category := "secret-leak";
                   title := "🚨 GÜVENLİK RİSKİ: '" ++ e_key entry
                            ++ "' istemci tarafına ifşa ediliyor!";
                   message := sp_message p;
                   file := Some (e_file entry);
                   line := Some (e_line entry);
                   key := Some (e_key entry);
                   table := None;
                   context := None |} ]
         else [])
      sensitive.

Definition fileUsages (filePath : string) : list (string * Usage) :=
  match readFileSync fs filePath with
  | Some content =>
      flat_map
        (fun il =>
           map (fun t => (t, {| u_file := relative fs filePath;
                                u_line := fst il + 1;
                                u_context := JS.trim (snd il) |}))
               (regex_exec_group1
                  (mkRegExp (source RLSScanner.SUPABASE_FROM_REGEX) "g")
                  (snd il)))
        (JS.indexed (JS.splitLines content))
  | None => []
  end.

Definition findSupabaseFromCalls (files : list string) : JS.Map Usage :=
  fold_left (fun m tu => JS.map_push (fst tu) (snd tu) m)
    (flat_map fileUsages files) [].

(** Lines 371-375: the usages outside the scanner's own files. *)
Definition filterTables (tables : JS.Map Usage) : JS.Map Usage :=
  flat_map
    (fun tu =>
       let realUsages :=
         filter (fun u => negb (JS.includes "security-watchdog" (u_file u)))
           (snd tu) in
       match realUsages with
       | [] => []
       | _ => [(fst tu, realUsages)]
       end)
    tables.

Definition rlsIssues (whitelisted : list string) (filtered : JS.Map Usage)
  : list Issue :=
  flat_map
    (fun tu =>
       if JS.mem (fst tu) whitelisted then []
       else [ {| severity := info;
                 category := "rls-check";
                 title := "📋 '" ++ fst tu
                          ++ "' tablosu kullanılıyor — RLS durumu kontrol edilmeli";
                 message := "Bu tablo " ++ JS.of_nat (List.length (snd tu))
                            ++ " yerde kullanılıyor. RLS'in aktif olduğundan emin olun.";
                 file := Some (JS.join ", "
                           (map (fun u => u_file u ++ ":" ++ JS.of_nat (u_line u))
                              (snd tu)));
                 line := None;
                 key := None;
                 table := Some (fst tu);
                 context := None |} ])
    filtered.

Definition scanSQLInjection (files : list string) : list Issue :=
  flat_map
    (fun filePath =>
       match readFileSync fs filePath with
       | Some content =>
           let rel := relative fs filePath in
           if JS.includes "security-watchdog" rel then []
           else
             flat_map
               (fun il =>
                  flat_map
                    (fun p =>
                       if regex_test (mkRegExp (source (sp_regex p))
                                        (flags (sp_regex p))) (snd il)
                       then [ {| severity := critical;
                                 category := "sql-injection";
                                 title := "💉 SQL INJECTION RİSKİ: " ++ sp_title p;
                                 message := "Parametreli sorgu kullanın. String interpolation/concatenation ile SQL oluşturmayın.";
                                 file := Some rel;
                                 line := Some (fst il + 1);
                                 key := None;
                                 table := None;
                                 context := Some (JS.trim (snd il)) |} ]
                       else [])
                    sqlPatterns)
               (JS.indexed (JS.splitLines content))
       | None => []
       end)
    files.

Definition apiEnvIssues (entries : list EnvEntry) : list Issue :=
  flat_map
    (fun entry =>
       if negb (JS.startsWith "NEXT_PUBLIC_" (e_key entry)) then []
       else
         flat_map
           (fun rule =>
              flat_map
                (fun keyPattern =>
                   if regex_test (mkRegExp keyPattern "i") (e_key entry)
                   then [ {| severity := critical;
                             category := "api-key";
                             title := "🔑 " ++ r_service rule
                                      ++ " API anahtarı NEXT_PUBLIC_ ile ifşa ediliyor!";
                             message := "NEXT_PUBLIC_ önekini kaldırın ve API Route üzerinden proksileyin.";
                             file := Some (e_file entry);
                             line := Some (e_line entry);
                             key := Some (e_key entry);
                             table := None;
                             context := None |} ]
                   else [])
                (r_envKeys rule))
           rules)
    entries.

Definition isClient (rel content : string) : bool :=
  regex_test (mkRegExp ("^['" ++ JS.dq ++ "`]use client['" ++ JS.dq ++ "`]") "m")
    content
  || (JS.startsWith "src/components/" rel
      || (JS.startsWith "src/app/" rel && negb (JS.includes "/api/" rel))).

Definition apiCodeIssues (files : list string) : list Issue :=
  flat_map
    (fun filePath =>
       match readFileSync fs filePath with
       | Some content =>
           let rel := slashes (relative fs filePath) in
           if JS.includes "security-watchdog" rel then []
           else if negb (isClient rel content) then []
           else
             flat_map
               (fun rule =>
                  flat_map
                    (fun cp =>
                       flat_map
                         (fun il =>
                            if regex_test (mkRegExp (source cp) (flags cp)) (snd il)
                            then [ {| severity := warning;
                                      category := "api-key";
                                      title := "🔑 " ++ r_service rule
                                               ++ " istemci tarafı kodda referans ediliyor!";
                                      message := "API çağrısını sunucu tarafına (API Route) taşıyın.";
                                      file := Some rel;
                                      line := Some (fst il + 1);
                                      key := None;
                                      table := None;
                                      context := None |} ]
                            else [])
                         (JS.indexed (JS.splitLines content)))
                    (r_codePatterns rule))
               rules
       | None => []
       end)
    files.

Definition scanAPIKeys (files : list string) (entries : list EnvEntry)
  : list Issue :=
  (apiEnvIssues entries ++ apiCodeIssues files)%list.

Definition gitignoreIssue : Issue :=
  {| severity := warning;
     category := "general";
     title := "⚠️ .env dosyaları .gitignore'a eklenmemiş!";
     message := ".env dosyalarınız yanlışlıkla commit edilebilir.";
     file := Some ".gitignore";
     line := None;
     key := None;
     table := None;
     context := None |}.

(** The issues of a scan, from line 323 to the [.gitignore] check; [None]
    where the unguarded read of [.gitignore] throws. *)
Definition collect (config : VibeSecurityConfig) : option (list Issue) :=
  let rc := rlsScanner config in
  let allFiles :=
    flat_map
      (fun dir =>
         let dirPath := path_join projectRoot dir in
         if existsSync fs dirPath
         then walkDir dirPath (extensions rc) (excludeDirs rc)
         else [])
      (scanDirs rc) in
  let allEnvEntries := envEntries (envFiles (secretScanner config)) in
  let secrets :=
    flat_map (secretIssues (sensitivePatterns (secretScanner config)))
      allEnvEntries in
  let rls :=
    if rls_enabled_flag rc
    then rlsIssues (whitelistedTables rc)
           (filterTables (findSupabaseFromCalls allFiles))
    else [] in
  let sqlIssues := scanSQLInjection allFiles in
  let apiIssues := scanAPIKeys allFiles allEnvEntries in
  let before := (secrets ++ rls ++ sqlIssues ++ apiIssues)%list in
  let gitignorePath := path_join projectRoot ".gitignore" in
  if existsSync fs gitignorePath then
    match readFileSync fs gitignorePath with
    | Some content =>
        if negb (JS.includes ".env" content)
        then Some (before ++ [gitignoreIssue])%list
        else Some before
    | None => None
    end
  else Some before.

(** [issues.filter(i => i.severity === 'critical').length]. *)
Definition criticalCount (l : list Issue) : nat :=
  List.length (filter (fun i => Severity_eqb (severity i) critical) l).

(** The report (lines 442-496), as far as the control flow goes. *)
Definition report (l : list Issue) : Termination :=
  match l with
  | [] => Returns
  | _ => if 0 <? criticalCount l then Exit 1 else Returns
  end.

(** [runScan]; [loaded] is what [loadConfig] returns, [None] for [null]. *)
Definition runScan (loaded : option VibeSecurityConfig) : ScanRun :=
  match loaded with
  | None => {| termination := Exit 1; found := None |}
  | Some config =>
      if negb (enabled config)
      then {| termination := Returns; found := None |}
      else
        match collect config with
        | None => {| termination := Uncaught; found := None |}
        | Some l => {| termination := report l; found := Some l |}
        end
  end.

(** The exit code of the process in the one-shot mode: the script calls
    [runScan()] and ends.  A process that ends on its own exits with 0, one
    that dies of an uncaught exception with 1. *)
Definition exit_code (loaded : option VibeSecurityConfig) : nat :=
  match termination (runScan loaded) with
  | Exit code => code
  | Returns => 0
  | Uncaught => 1
  end.

End WithEngine.

End CLI.

(* ------------------------------------------------------------------ *)
(** * The API-key guardian ([scanners/api-key-guardian.ts]) *)
(* ------------------------------------------------------------------ *)

Module APIKeyGuardian.

Record APIKeyRule := {
  r_id : string;
  service : string;
  envKeyPatterns : list string;
  codePatterns : list RegExp;
  clientFilePatterns : list RegExp;
  r_message : string;
  r_fix : string
}.

(** The three client patterns the last three rules share. *)
Definition appAndComponents : list RegExp :=
  [ mkRegExp "^src\/app\/(?!api\/).*\.(tsx?|jsx?)$" "";
    mkRegExp "^src\/components\/.*\.(tsx?|jsx?)$" "";
    mkRegExp ("['" ++ JS.dq ++ "`]use client['" ++ JS.dq ++ "`]") "" ].

Definition DEFAULT_API_KEY_RULES : list APIKeyRule :=
  [ {| r_id := "serper-dev";
       service := "Serper.dev";
       envKeyPatterns := ["SERPER"; "SERP_API"];
       codePatterns :=
         [ mkRegExp ("['" ++ JS.dq ++ "`]https?:\/\/(?:google\.)?serper\.dev") "gi";
           mkRegExp "serper\.dev" "gi";
           mkRegExp "SERPER_API_KEY" "g";
           mkRegExp "SERP_API_KEY" "g";
           mkRegExp ("x-api-key['" ++ JS.dq ++ "`]\s*:\s*.*serper") "gi";
           mkRegExp ("headers\s*:\s*\{[^}]*['" ++ JS.dq ++ "`]X-API-KEY['"
                     ++ JS.dq ++ "`]") "gi" ];
       clientFilePatterns :=
         [ mkRegExp "^src\/app\/(?!api\/).*\.(tsx?|jsx?)$" "";
           mkRegExp "^src\/components\/.*\.(tsx?|jsx?)$" "";
           mkRegExp "^src\/hooks\/.*\.(tsx?|jsx?)$" "";
           mkRegExp "^src\/lib\/client" "i";
           mkRegExp "^app\/(?!api\/).*\.(tsx?|jsx?)$" "";
           mkRegExp "^pages\/(?!api\/).*\.(tsx?|jsx?)$" "";
           mkRegExp "^components\/.*\.(tsx?|jsx?)$" "";
           mkRegExp ("['" ++ JS.dq ++ "`]use client['" ++ JS.dq ++ "`]") "" ];
       r_message := "Serper.dev API anahtarı istemci tarafında kullanılıyor! Bu anahtar tarayıcıda görünür olacak ve kötüye kullanılabilir.";
       r_fix := JS.join JS.nl
         [ "// ❌ Yanlış: Client component'te doğrudan Serper.dev çağrısı";
           "'use client'";
           "const res = await fetch('https://google.serper.dev/search', {";
           "  headers: { 'X-API-KEY': process.env.NEXT_PUBLIC_SERPER_API_KEY }";
           "})";
           "";
           "// ✅ Doğru: API Route üzerinden proxy";
           "// src/app/api/search/route.ts";
           "export async function POST(req) {";
           "  const { query } = await req.json()";
           "  const res = await fetch('https://google.serper.dev/search', {";
           "    method: 'POST',";
           "    headers: {";
           "      'X-API-KEY': process.env.SERPER_API_KEY, // NEXT_PUBLIC_ yok!";
           "      'Content-Type': 'application/json',";
           "    },";
           "    body: JSON.stringify({ q: query }),";
           "  })";
           "  return Response.json(await res.json())";
           "}" ] |};
    {| r_id := "openai";
       service := "OpenAI";
       envKeyPatterns := ["OPENAI_API_KEY"; "OPENAI_SECRET"];
       codePatterns :=
         [ mkRegExp "OPENAI_API_KEY" "g";
           mkRegExp "openai\.com\/v1" "gi";
           mkRegExp "new\s+OpenAI\s*\(" "g";
           mkRegExp "sk-[a-zA-Z0-9]{20,}" "g" ];
       clientFilePatterns := appAndComponents;
       r_message := "OpenAI API anahtarı istemci tarafında kullanılıyor! API maliyetleri kontrolsüz artabilir.";
       r_fix := JS.join JS.nl
         [ "// ✅ Doğru: OpenAI çağrılarını API Route'a taşıyın";
           "// src/app/api/chat/route.ts dosyasından çağırın." ] |};
    {| r_id := "anthropic";
       service := "Anthropic (Claude)";
       envKeyPatterns := ["ANTHROPIC_API_KEY"; "CLAUDE_API_KEY"];
       codePatterns :=
         [ mkRegExp "ANTHROPIC_API_KEY" "g";
           mkRegExp "anthropic\.com" "gi";
           mkRegExp "new\s+Anthropic\s*\(" "g";
           mkRegExp "sk-ant-[a-zA-Z0-9-]{20,}" "g" ];
       clientFilePatterns := appAndComponents;
       r_message := "Anthropic API anahtarı istemci tarafında kullanılıyor!";
       r_fix := "// ✅ Doğru: API Route kullanın." |};
    {| r_id := "google-ai";
       service := "Google AI (Gemini)";
       envKeyPatterns := ["GOOGLE_API_KEY"; "GEMINI_API_KEY"];
       codePatterns :=
         [ mkRegExp "GOOGLE_API_KEY" "g";
           mkRegExp "GEMINI_API_KEY" "g";
           mkRegExp "generativelanguage\.googleapis\.com" "gi";
           mkRegExp "new\s+GoogleGenerativeAI\s*\(" "g" ];
       clientFilePatterns := appAndComponents;
       r_message := "Google AI API anahtarı istemci tarafında kullanılıyor!";
       r_fix := "// ✅ Doğru: API Route kullanın." |} ].

(** [trimmed.substring(0, trimmed.indexOf('=') + k)] for [k] 0 or 1;
    where [indexOf] is [-1] the end index is at most 0. *)
Definition upToEquals (k : nat) (trimmed : string) : string :=
  match JS.indexOf "="%char trimmed with
  | Some i => JS.take (i + k) trimmed
  | None => ""
  end.

Definition envIssue (now : Z) (rule : APIKeyRule) (envFile : string)
  (index : nat) (trimmed : string) : SecurityIssue :=
  {| id := "apikey-env-" ++ r_id rule ++ "-" ++ envFile ++ "-"
           ++ JS.of_nat (index + 1);
     category := secret_leak;
     severity := critical;
     title := "🔑 " ++ service rule
              ++ " API anahtarı NEXT_PUBLIC_ ile ifşa ediliyor!";
     message := JS.join JS.nl
       [ r_message rule;
         "";
         "📄 Konum: " ++ envFile ++ ":" ++ JS.of_nat (index + 1);
         "🔑 Satır: " ++ upToEquals 1 trimmed ++ "***";
         "";
         "🔧 Düzeltme:";
         "1. NEXT_PUBLIC_ önekini kaldırın";
         "2. API çağrısını sunucu tarafına (API Route) taşıyın";
         "";
         r_fix rule ];
     file := Some envFile;
     line := Some (index + 1);
     key := Some (upToEquals 0 trimmed);
     table := None;
     timestamp := now |}.

Definition codeIssue (now : Z) (rule : APIKeyRule) (relativePath : string)
  (lineIndex : nat) (lineContent : string) : SecurityIssue :=
  {| id := "apikey-code-" ++ r_id rule ++ "-" ++ relativePath ++ "-"
           ++ JS.of_nat (lineIndex + 1);
     category := secret_leak;
     severity := warning;
     title := "🔑 " ++ service rule ++ " istemci tarafı kodda referans ediliyor!";
     message := JS.join JS.nl
       [ "'" ++ relativePath ++ "' dosyası istemci tarafında çalışıyor ve "
           ++ service rule ++ " referansı içeriyor.";
         "";
         "📄 Konum: " ++ relativePath ++ ":" ++ JS.of_nat (lineIndex + 1);
         "📝 Satır: " ++ JS.take 120 (JS.trim lineContent);
         "";
         r_message rule;
         "";
         "🔧 Düzeltme:";
         r_fix rule ];
     file := Some relativePath;
     line := Some (lineIndex + 1);
     key := None;
     table := None;
     timestamp := now |}.

Section WithEngine.
Context {engine : RegExpEngine}.
Variable fs : FileSystem.
Variable projectRoot : string.
Variable now : Z.

Definition isClientSideFile (relativePath content : string)
  (clientPatterns : list RegExp) : bool :=
  if regex_test
       (mkRegExp ("^['" ++ JS.dq ++ "`]use client['" ++ JS.dq ++ "`]") "m")
       content
  then true
  else
    let normalizedPath := CLI.slashes relativePath in
    existsb
      (fun pattern =>
         if JS.includes "use client" (source pattern) then false
         else regex_test pattern normalizedPath)
      clientPatterns.

(** The body of [lines.forEach] of [checkEnvForAPIKeys]. *)
Definition envLineIssues (rules : list APIKeyRule) (envFile : string)
  (il : nat * string) : list SecurityIssue :=
  let trimmed := JS.trim (snd il) in
  if negb (JS.truthy trimmed) || JS.startsWith "#" trimmed then []
  else if negb (JS.startsWith "NEXT_PUBLIC_" trimmed) then []
  else
    flat_map
      (fun rule =>
         flat_map
           (fun keyPattern =>
              if regex_test (mkRegExp keyPattern "i") trimmed
              then [envIssue now rule envFile (fst il) trimmed]
              else [])
           (envKeyPatterns rule))
      rules.

Definition checkEnvForAPIKeys (rules : list APIKeyRule)
  : list SecurityIssue :=
  flat_map
    (fun envFile =>
       let envPath := path_join projectRoot envFile in
       if existsSync fs envPath then
         match readFileSync fs envPath with
         | Some content =>
             flat_map (envLineIssues rules envFile)
               (JS.indexed (JS.splitLines content))
         | None => []
         end
       else [])
    [".env"; ".env.local"; ".env.development"; ".env.production"].

(** The body of the innermost [forEach] of [checkCodeForAPIKeys]. *)
Definition codeLineStep (rule : APIKeyRule) (codePattern : RegExp)
  (relativePath : string) (acc : list SecurityIssue) (il : nat * string)
  : list SecurityIssue :=
  let lineRegex := mkRegExp (source codePattern) (flags codePattern) in
  if regex_test lineRegex (snd il) then
    let i := codeIssue now rule relativePath (fst il) (snd il) in
    if SQLInjection.has_id (id i) acc then acc else (acc ++ [i])%list
  else acc.

Definition codeRuleStep (relativePath content : string)
  (acc : list SecurityIssue) (rule : APIKeyRule) : list SecurityIssue :=
  if negb (isClientSideFile relativePath content (clientFilePatterns rule))
  then acc
  else
    fold_left
      (fun acc codePattern =>
         fold_left (codeLineStep rule codePattern relativePath)
           (JS.indexed (JS.splitLines content)) acc)
      (codePatterns rule) acc.

Definition codeFileStep (rules : list APIKeyRule)
  (acc : list SecurityIssue) (filePath : string) : list SecurityIssue :=
  match readFileSync fs filePath with
  | Some content =>
      fold_left (codeRuleStep (relative fs filePath) content) rules acc
  | None => acc
  end.

Definition checkCodeForAPIKeys (rules : list APIKeyRule)
  (scanDirs extensions excludeDirs : list string) : list SecurityIssue :=
  fold_left
    (fun acc dir =>
       let dirPath := path_join projectRoot dir in
       if existsSync fs dirPath then
         fold_left
           (fun acc ext =>
              fold_left (codeFileStep rules)
                (glob fs ("**/*" ++ ext)
                   {| cwd := dirPath; absolute := true; dot := false;
                      nodir := false;
                      ignore := map (fun d => "**/" ++ d ++ "/**")
                                  excludeDirs |})
                acc)
           extensions acc
       else acc)
    scanDirs [].

Definition scanAPIKeys (customRules : list APIKeyRule)
  (scanDirs extensions excludeDirs : list string) : ScanResult :=
  let rules := (DEFAULT_API_KEY_RULES ++ customRules)%list in
  let envIssues := checkEnvForAPIKeys rules in
  let codeIssues := checkCodeForAPIKeys rules scanDirs extensions excludeDirs in
  {| issues := (envIssues ++ codeIssues)%list;
     scannedAt := now;
     duration := 0 |}.

End WithEngine.

End APIKeyGuardian.

(* ------------------------------------------------------------------ *)
(** * One pass of the orchestrator over a project *)
(* ------------------------------------------------------------------ *)

(** The four scanners as [runFullScan] calls them, on a file system and an
    authority, at the instant [now]. *)

Module Pipeline.

Section World.
Context {engine : RegExpEngine}.
Variable fs : FileSystem.
Variable auth : RLSScanner.Authority.
Variable projectRoot : string.

Definition scanners (config : VibeSecurityConfig) (now : Z)
  : Orchestrator.Scanners :=
  fun s =>
    let rc := rlsScanner config in
    Orchestrator.Fulfilled
      (issues
         match s with
         | Orchestrator.AwaitSecrets =>
             SecretScanner.scanSecrets fs projectRoot now (secretScanner config)
         | Orchestrator.AwaitRLS =>
             RLSScanner.scanRLS fs auth projectRoot now rc
         | Orchestrator.AwaitSQL =>
             SQLInjection.scanSQLInjection now fs projectRoot
               (scanDirs rc) (extensions rc) (excludeDirs rc)
         | Orchestrator.AwaitAPIKeys =>
             APIKeyGuardian.scanAPIKeys fs projectRoot now []
               (scanDirs rc) (extensions rc) (excludeDirs rc)
         end).

(** [runFullScan(projectRoot, config)] at the instant [now], followed to
    its end; [sinks] is how the statements after the last scanner end. *)
Definition runFullScan (config : VibeSecurityConfig) (now : Z)
  (sinks : Orchestrator.Sinks) (st : Orchestrator.State)
  : Orchestrator.State * Orchestrator.Progress :=
  Orchestrator.runFullScan config (scanners config now) sinks st.

End World.

End Pipeline.

(* ------------------------------------------------------------------ *)
(** * The webpack plugin ([VibeSecurityWebpackPlugin] of [index.ts]) *)
(* ------------------------------------------------------------------ *)

(** [apply] taps the [afterEnvironment] hook in development mode only, and
    the hook starts the watchdog unless this instance has started it. *)

Module WebpackPlugin.

(** The field [initialized] of a plugin instance. *)
Record Plugin := {
  initialized : bool
}.

Definition new : Plugin := {| initialized := false |}.

Inductive Effect := StartWatchdog.

(** [apply(compiler)]: whether the hook is tapped; [mode] is
    [compiler.options.mode]. *)
Definition apply (mode : string) : bool :=
  if negb (String.eqb mode "development") then false else true.

(** The callback tapped on [afterEnvironment]. *)
Definition afterEnvironment (p : Plugin) : Plugin * list Effect :=
  if negb (initialized p)
  then ({| initialized := true |}, [StartWatchdog])
  else (p, []).

(** The compiler runs the hook of a plugin applied in [mode] [n] times. *)
Fixpoint fire (tapped : bool) (n : nat) (p : Plugin) : Plugin * list Effect :=
  match n with
  | 0 => (p, [])
  | S n' =>
      if tapped then
        let (p1, e1) := afterEnvironment p in
        let (p2, e2) := fire tapped n' p1 in
        (p2, (e1 ++ e2)%list)
      else (p, [])
  end.

End WebpackPlugin.

(* ------------------------------------------------------------------ *)
(** * The reporter ([reporter.ts]) *)
(* ------------------------------------------------------------------ *)

Module Reporter.

(** The escape character of the ANSI colour codes, [\x1b]. *)
Definition esc : string := String (ascii_of_nat 27) EmptyString.

Definition reset : string := esc ++ "[0m".
Definition bold : string := esc ++ "[1m".
Definition dim : string := esc ++ "[2m".
Definition red : string := esc ++ "[31m".
Definition yellow : string := esc ++ "[33m".
Definition blue : string := esc ++ "[34m".
Definition cyan : string := esc ++ "[36m".
Definition white : string := esc ++ "[37m".
Definition bgRed : string := esc ++ "[41m".
Definition bgYellow : string := esc ++ "[43m".
Definition bgBlue : string := esc ++ "[44m".

Record Style := {
  badge : string;
  color : string;
  icon : string
}.

Definition SEVERITY_STYLES (s : Severity) : Style :=
  match s with
  | critical => {| badge := bgRed ++ white ++ bold ++ " CRITICAL " ++ reset;
                   color := red; icon := "🚨" |}
  | warning => {| badge := bgYellow ++ bold ++ " WARNING " ++ reset;
                  color := yellow; icon := "⚠️" |}
  | info => {| badge := bgBlue ++ white ++ " INFO " ++ reset;
               color := blue; icon := "ℹ️" |}
  end.

(** [s.repeat(n)]. *)
Fixpoint repeat (s : string) (n : nat) : string :=
  match n with
  | 0 => ""
  | S n' => s ++ repeat s n'
  end.

Definition DIVIDER : string := dim ++ repeat "─" 70 ++ reset.
Definition HEADER_LINE : string := dim ++ repeat "═" 70 ++ reset.

(** [s.split('\n')]. *)
Fixpoint split_nl (s : string) : list string :=
  match s with
  | EmptyString => [EmptyString]
  | String c r =>
      if Ascii.eqb c (ascii_of_nat 10) then EmptyString :: split_nl r
      else match split_nl r with
           | h :: t => String c h :: t
           | [] => [String c EmptyString]
           end
  end.

(** [Array.prototype.sort] with a comparator: the sort is stable, so an
    element goes before the elements it does not compare greater than. *)
Fixpoint insert {A} (cmp : A -> A -> Z) (x : A) (l : list A) : list A :=
  match l with
  | [] => [x]
  | y :: r => if (cmp x y <=? 0)%Z then x :: y :: r
              else y :: insert cmp x r
  end.

Definition sort {A} (cmp : A -> A -> Z) (l : list A) : list A :=
  fold_right (insert cmp) [] l.

(** [const order = { critical: 0, warning: 1, info: 2 }]. *)
Definition order (s : Severity) : Z :=
  match s with critical => 0 | warning => 1 | info => 2 end.

Definition bySeverity (a b : SecurityIssue) : Z :=
  (order (severity a) - order (severity b))%Z.

Definition count (s : Severity) (issues : list SecurityIssue) : nat :=
  List.length (filter (fun i => Severity_eqb (severity i) s) issues).

Definition sortedIssues (issues : list SecurityIssue) : list SecurityIssue :=
  sort bySeverity issues.

(** The body of [sortedIssues.forEach]. *)
Definition issueLines (issue : SecurityIssue) : list string :=
  let style := SEVERITY_STYLES (severity issue) in
  List.app
    [ DIVIDER;
      "  " ++ badge style ++ " " ++ color style ++ bold ++ title issue ++ reset;
      "" ]
    (List.app
       (map (fun line => "  " ++ dim ++ line ++ reset)
          (split_nl (message issue)))
       [ "" ]).

(** [reportToTerminal]: the lines it logs; [time] is what
    [new Date().toLocaleTimeString('tr-TR')] gives. *)
Definition reportToTerminal (time : string) (issues : list SecurityIssue)
  : list string :=
  match issues with
  | [] =>
      [ JS.nl ++ cyan ++ bold ++ "🛡️  Vibe Security Watchdog" ++ reset ++ " "
        ++ dim ++ "— Tarama tamamlandı, sorun bulunamadı. ✅" ++ reset
        ++ JS.nl ]
  | _ =>
      let criticalCount := count critical issues in
      let warningCount := count warning issues in
      let infoCount := count info issues in
      let summaryParts :=
        List.app
          (if 0 <? criticalCount
           then [red ++ bold ++ JS.of_nat criticalCount ++ " Kritik" ++ reset]
           else [])
          (List.app
             (if 0 <? warningCount
              then [yellow ++ JS.of_nat warningCount ++ " Uyarı" ++ reset]
              else [])
             (if 0 <? infoCount
              then [blue ++ JS.of_nat infoCount ++ " Bilgi" ++ reset]
              else [])) in
      List.app
        [ "";
          HEADER_LINE;
          bold ++ red ++ "  🛡️  VIBE SECURITY WATCHDOG — GÜVENLİK RAPORU"
            ++ reset;
          HEADER_LINE;
          "";
          "  📊 Toplam " ++ JS.of_nat (List.length issues)
            ++ " sorun bulundu: " ++ JS.join " · " summaryParts;
          "" ]
        (List.app
           (flat_map issueLines (sortedIssues issues))
           [ HEADER_LINE;
             "  " ++ dim ++ "Tarama zamanı: " ++ time ++ reset;
             "  " ++ dim ++ "Daha fazla bilgi: vibe-security.config.js"
               ++ reset;
             HEADER_LINE;
             "" ])
  end.

Record Summary := {
  s_critical : nat;
  s_warning : nat;
  s_info : nat
}.

Record BrowserReport := {
  b_timestamp : Z;
  issueCount : nat;
  summary : Summary;
  b_issues : list SecurityIssue
}.

(** [formatIssuesForBrowser]; [now] is [Date.now()]. *)
Definition formatIssuesForBrowser (now : Z) (issues : list SecurityIssue)
  : BrowserReport :=
  {| b_timestamp := now;
     issueCount := List.length issues;
     summary := {| s_critical := count critical issues;
                   s_warning := count warning issues;
                   s_info := count info issues |};
     b_issues :=
       map (fun issue =>
              {| id := id issue;
                 category := category issue;
                 severity := severity issue;
                 title := title issue;
                 message := message issue;
                 file := file issue;
                 line := line issue;
                 key := key issue;
                 table := table issue;
                 timestamp := timestamp issue |})
         issues |}.

End Reporter.

(* ------------------------------------------------------------------ *)
(** * The recipe printer ([sql-recipes.ts]) *)
(* ------------------------------------------------------------------ *)

Module SQLRecipes.
Import Reporter.

(** The colour of the table [C] that the reporter does not have. *)
Definition green : string := esc ++ "[32m".

(** [issues.filter(i => i.category === 'rls-missing' || i.category ===
    'rls-check')]. *)
Definition rlsIssues (issues : list SecurityIssue) : list SecurityIssue :=
  filter (fun i => IssueCategory_eqb (category i) rls_missing
                   || IssueCategory_eqb (category i) rls_check) issues.

(** [.filter((t) => !!t)] on optional strings. *)
Definition defined (l : list (option string)) : list string :=
  flat_map (fun o => match o with
                     | Some t => if JS.truthy t then [t] else []
                     | None => []
                     end) l.

Definition tableNames (issues : list SecurityIssue) : list string :=
  JS.uniq (defined (map table (rlsIssues issues))).

(** The body of [for (const tableName of tableNames)]. *)
Definition recipeLines (tableName : string) : list string :=
  [ yellow ++ bold ++ "  ── " ++ tableName ++ " ──" ++ reset;
    "";
    green ++ "  ALTER TABLE public." ++ tableName
      ++ " ENABLE ROW LEVEL SECURITY;" ++ reset;
    "";
    dim ++ "  -- SELECT: Sadece kendi verilerini görsün" ++ reset;
    green ++ "  CREATE POLICY " ++ JS.dq ++ tableName ++ "_select_own"
      ++ JS.dq ++ reset;
    green ++ "    ON public." ++ tableName ++ " FOR SELECT" ++ reset;
    green ++ "    USING (auth.uid() = user_id);" ++ reset;
    "";
    dim ++ "  -- INSERT: Kendi adına kayıt ekleyebilsin" ++ reset;
    green ++ "  CREATE POLICY " ++ JS.dq ++ tableName ++ "_insert_own"
      ++ JS.dq ++ reset;
    green ++ "    ON public." ++ tableName ++ " FOR INSERT" ++ reset;
    green ++ "    WITH CHECK (auth.uid() = user_id);" ++ reset;
    "";
    dim ++ "  -- UPDATE: Kendi kaydını güncelleyebilsin" ++ reset;
    green ++ "  CREATE POLICY " ++ JS.dq ++ tableName ++ "_update_own"
      ++ JS.dq ++ reset;
    green ++ "    ON public." ++ tableName ++ " FOR UPDATE" ++ reset;
    green ++ "    USING (auth.uid() = user_id)" ++ reset;
    green ++ "    WITH CHECK (auth.uid() = user_id);" ++ reset;
    "";
    dim ++ "  -- DELETE: Kendi kaydını silebilsin" ++ reset;
    green ++ "  CREATE POLICY " ++ JS.dq ++ tableName ++ "_delete_own"
      ++ JS.dq ++ reset;
    green ++ "    ON public." ++ tableName ++ " FOR DELETE" ++ reset;
    green ++ "    USING (auth.uid() = user_id);" ++ reset;
    "" ].

(** [printRLSRecipes]: the lines it logs. *)
Definition printRLSRecipes (issues : list SecurityIssue) : list string :=
  match rlsIssues issues with
  | [] => []
  | _ =>
      match tableNames issues with
      | [] => []
      | names =>
          List.app
            [ "";
              cyan ++ bold ++ "  📝 OTOMATİK SQL REÇETELERİ" ++ reset;
              dim ++ "  Aşağıdaki SQL'i Supabase SQL Editor'a yapıştırın:"
                ++ reset;
              "" ]
            (List.app
               (flat_map recipeLines names)
               [ dim ++ "  ⚠️  " ++ JS.dq ++ "user_id" ++ JS.dq
                   ++ " sütununu tablolarınıza göre düzenleyin." ++ reset;
                 "" ])
      end
  end.

End SQLRecipes.

(* ------------------------------------------------------------------ *)
(** * The file walker of the command line ([walkDir]) *)
(* ------------------------------------------------------------------ *)

Module Walker.

(** What [readdirSync] with [withFileTypes] lists: files, directories
    with what listing them gives ([None] where [readdirSync] throws),
    and entries that are neither. *)
#[warnings="-register-all"] Inductive Entry :=
| File (name : string)
| Directory (name : string) (listing : option (list Entry))
| Other (name : string).

(** [s.endsWith(suffix)]. *)
Definition endsWith (suffix s : string) : bool :=
  let n := String.length s in
  let k := String.length suffix in
  if n <? k then false else String.eqb (JS.drop (n - k) s) suffix.

Section Walk.
Variable extensions : list string.
Variable excludeDirs : list string.

(** The body of [for (const entry of entries)]. *)
Fixpoint walkEntry (currentDir : string) (entry : Entry) : list string :=
  match entry with
  | Directory name listing =>
      if negb (JS.mem name excludeDirs) then
        match listing with
        | Some entries =>
            flat_map (walkEntry (path_join currentDir name)) entries
        | None => []
        end
      else []
  | File name =>
      if existsb (fun ext => endsWith ext name) extensions
      then [path_join currentDir name] else []
  | Other _ => []
  end.

End Walk.

(** [walkDir(currentDir, extensions, excludeDirs)], where listing
    [currentDir] gives [listing]. *)
Definition walkDir (listing : option (list Entry)) (currentDir : string)
  (extensions excludeDirs : list string) : list string :=
  match listing with
  | Some entries => flat_map (walkEntry extensions excludeDirs currentDir) entries
  | None => []
  end.

End Walker.

(* ------------------------------------------------------------------ *)
(** * The order of the report of the command line ([runScan]) *)
(* ------------------------------------------------------------------ *)

Module CLIReport.
Import CLI.

(** [(order[x.severity] || 2)]: 0 is falsy. *)
Definition rank (s : Severity) : Z :=
  let o := Reporter.order s in
  if (o =? 0)%Z then 2%Z else o.

(** The comparator of [[...issues].sort(...)] in [runScan]. *)
Definition byRank (a b : Issue) : Z :=
  (rank (severity a) - rank (severity b))%Z.

Definition sorted (issues : list Issue) : list Issue :=
  Reporter.sort byRank issues.

End CLIReport.

(* ------------------------------------------------------------------ *)
(** * The endpoint of the overlay ([app/api/security-watchdog/route.ts]) *)
(* ------------------------------------------------------------------ *)

Module Endpoint.
Import Orchestrator.

Inductive Body :=
| ErrorBody (error : string)
| Data (report : Reporter.BrowserReport).

Record Response := {
  status : nat;
  headers : list (string * string);
  body : Body
}.

(** [getLatestIssuesForBrowser] of [index.ts]. *)
Definition getLatestIssuesForBrowser (now : Z) (st : State)
  : Reporter.BrowserReport :=
  Reporter.formatIssuesForBrowser now (getLatestIssues st).

(** [GET]; [NODE_ENV] is [process.env.NODE_ENV], [None] where it is not
    set.  Nothing in [getLatestIssuesForBrowser] throws, so the [catch]
    branch is never taken. *)
Definition GET (NODE_ENV : option string) (now : Z) (st : State)
  : Response :=
  if negb (JS.is_string NODE_ENV "development") then
    {| status := 403;
       headers := [];
       body := ErrorBody
                 "Bu endpoint sadece development ortamında kullanılabilir." |}
  else
    {| status := 200;
       headers := [ ("Cache-Control", "no-store, no-cache, must-revalidate");
                    ("Access-Control-Allow-Origin", "*") ];
       body := Data (getLatestIssuesForBrowser now st) |}.

End Endpoint.

(* ------------------------------------------------------------------ *)
(** * A regular-expression engine for the expressions of the scanners *)
(* ------------------------------------------------------------------ *)

(** The theorems below hold for every engine.  To run the scanners on
    concrete files, this module gives one engine: a parser for the syntax
    the pattern tables use (literals, escapes, classes, groups,
    alternation, the greedy quantifiers [*], [+], [?], the assertions [^],
    [$], [\b]) and a backtracking matcher with the priorities of the
    JavaScript one.  Characters are bytes; the flags [i] and [m] are read
    on ASCII.  An expression outside this syntax matches nothing. *)

Module MiniRegex.

Inductive cset :=
| CChar (c : ascii)
| CRange (lo hi : ascii)
| CSpace                       (* \s *)
| CWord                        (* \w *)
| CDigit.                      (* \d *)

Inductive re :=
| Eps
| Lit (c : ascii)
| Class (negated : bool) (items : list cset)
| AnyChar                      (* . *)
| Seq (a b : re)
| Alt (a b : re)
| Star (a : re)
| Group (a : re)               (* the capturing group *)
| WordBoundary                 (* \b *)
| Bol                          (* ^ *)
| Eol.                         (* $ *)

Definition ch (n : nat) : ascii := ascii_of_nat n.

Definition between (lo hi c : ascii) : bool :=
  (nat_of_ascii lo <=? nat_of_ascii c) && (nat_of_ascii c <=? nat_of_ascii hi).

Definition is_digit (c : ascii) : bool := between "0" "9" c.
Definition is_upper (c : ascii) : bool := between "A" "Z" c.
Definition is_lower (c : ascii) : bool := between "a" "z" c.
Definition is_word (c : ascii) : bool :=
  is_digit c || is_upper c || is_lower c || Ascii.eqb c "_".

Definition to_lower (c : ascii) : ascii :=
  if is_upper c then ascii_of_nat (nat_of_ascii c + 32) else c.
Definition to_upper (c : ascii) : ascii :=
  if is_lower c then ascii_of_nat (nat_of_ascii c - 32) else c.

Definition is_line_end (c : ascii) : bool :=
  Ascii.eqb c (ch 10) || Ascii.eqb c (ch 13).

(** ** The parser *)

(** The atom an escape [\c] stands for. *)
Definition escape (c : ascii) : option re :=
  if Ascii.eqb c "s" then Some (Class false [CSpace])
  else if Ascii.eqb c "S" then Some (Class true [CSpace])
  else if Ascii.eqb c "w" then Some (Class false [CWord])
  else if Ascii.eqb c "W" then Some (Class true [CWord])
  else if Ascii.eqb c "d" then Some (Class false [CDigit])
  else if Ascii.eqb c "D" then Some (Class true [CDigit])
  else if Ascii.eqb c "b" then Some WordBoundary
  else if Ascii.eqb c "n" then Some (Lit (ch 10))
  else if Ascii.eqb c "r" then Some (Lit (ch 13))
  else if Ascii.eqb c "t" then Some (Lit (ch 9))
  else if is_word c then None
  else Some (Lit c).

Definition class_escape (c : ascii) : option cset :=
  if Ascii.eqb c "s" then Some CSpace
  else if Ascii.eqb c "w" then Some CWord
  else if Ascii.eqb c "d" then Some CDigit
  else if Ascii.eqb c "n" then Some (CChar (ch 10))
  else if Ascii.eqb c "r" then Some (CChar (ch 13))
  else if Ascii.eqb c "t" then Some (CChar (ch 9))
  else if is_word c then None
  else Some (CChar c).

(** The items of a class, up to the closing bracket. *)
Fixpoint parse_items (s : string) : option (list cset * string) :=
  match s with
  | EmptyString => None
  | String c rest =>
      if Ascii.eqb c "]" then Some ([], rest)
      else if Ascii.eqb c "\" then
        match rest with
        | String e rest' =>
            match class_escape e, parse_items rest' with
            | Some i, Some (l, out) => Some (i :: l, out)
            | _, _ => None
            end
        | EmptyString => None
        end
      else
        match rest with
        | String d (String hi rest') =>
            if Ascii.eqb d "-" && negb (Ascii.eqb hi "]") then
              match parse_items rest' with
              | Some (l, out) => Some (CRange c hi :: l, out)
              | None => None
              end
            else
              match parse_items rest with
              | Some (l, out) => Some (CChar c :: l, out)
              | None => None
              end
        | _ =>
            match parse_items rest with
            | Some (l, out) => Some (CChar c :: l, out)
            | None => None
            end
        end
  end.

(** The quantifier after an atom; a lazy quantifier is not supported. *)
Definition quantifier (a : re) (s : string) : option (re * string) :=
  match s with
  | String q rest =>
      let lazy := match rest with
                  | String l _ => Ascii.eqb l "?"
                  | EmptyString => false
                  end in
      if Ascii.eqb q "*" then if lazy then None else Some (Star a, rest)
      else if Ascii.eqb q "+" then
        if lazy then None else Some (Seq a (Star a), rest)
      else if Ascii.eqb q "?" then
        if lazy then None else Some (Alt a Eps, rest)
      else Some (a, s)
  | EmptyString => Some (a, s)
  end.

Fixpoint parse_alt (fuel : nat) (s : string) : option (re * string) :=
  match fuel with
  | 0 => None
  | S f =>
      match parse_seq f s with
      | Some (a, String c rest) =>
          if Ascii.eqb c "|" then
            match parse_alt f rest with
            | Some (b, out) => Some (Alt a b, out)
            | None => None
            end
          else Some (a, String c rest)
      | other => other
      end
  end
with parse_seq (fuel : nat) (s : string) : option (re * string) :=
  match fuel with
  | 0 => None
  | S f =>
      match s with
      | EmptyString => Some (Eps, s)
      | String c _ =>
          if Ascii.eqb c ")" || Ascii.eqb c "|" then Some (Eps, s)
          else
            match parse_atom f s with
            | Some (a, rest1) =>
                match quantifier a rest1 with
                | Some (aq, rest2) =>
                    match parse_seq f rest2 with
                    | Some (b, out) => Some (Seq aq b, out)
                    | None => None
                    end
                | None => None
                end
            | None => None
            end
      end
  end
with parse_atom (fuel : nat) (s : string) : option (re * string) :=
  match fuel with
  | 0 => None
  | S f =>
      match s with
      | EmptyString => None
      | String c rest =>
          if Ascii.eqb c "(" then
            let (capturing, inner) :=
              match rest with
              | String q (String k rest') =>
                  if Ascii.eqb q "?" && Ascii.eqb k ":" then (false, rest')
                  else (true, rest)
              | _ => (true, rest)
              end in
            match inner with
            | String q _ =>
                if Ascii.eqb q "?" then None
                else
                  match parse_alt f inner with
                  | Some (a, String close out) =>
                      if Ascii.eqb close ")"
                      then Some (if capturing then Group a else a, out)
                      else None
                  | _ => None
                  end
            | EmptyString => None
            end
          else if Ascii.eqb c "[" then
            let (negated, body) :=
              match rest with
              | String n rest' =>
                  if Ascii.eqb n "^" then (true, rest') else (false, rest)
              | EmptyString => (false, rest)
              end in
            match parse_items body with
            | Some (items, out) => Some (Class negated items, out)
            | None => None
            end
          else if Ascii.eqb c "\" then
            match rest with
            | String e out =>
                match escape e with
                | Some a => Some (a, out)
                | None => None
                end
            | EmptyString => None
            end
          else if Ascii.eqb c "." then Some (AnyChar, rest)
          else if Ascii.eqb c "^" then Some (Bol, rest)
          else if Ascii.eqb c "$" then Some (Eol, rest)
          else if Ascii.eqb c "*" || Ascii.eqb c "+" || Ascii.eqb c "?"
                  || Ascii.eqb c "{" || Ascii.eqb c "}" then None
          else Some (Lit c, rest)
      end
  end.

Definition parse (src : string) : option re :=
  match parse_alt (S (3 * String.length src)) src with
  | Some (r, EmptyString) => Some r
  | _ => None
  end.

(** ** The matcher *)

Record Flags := {
  ignoreCase : bool;
  multiline : bool
}.

Definition parse_flags (f : string) : Flags :=
  {| ignoreCase := JS.includes "i" f; multiline := JS.includes "m" f |}.

Definition item_has (c : ascii) (i : cset) : bool :=
  match i with
  | CChar d => Ascii.eqb c d
  | CRange lo hi => between lo hi c
  | CSpace => JS.is_space c
  | CWord => is_word c
  | CDigit => is_digit c
  end.

Definition class_has (fl : Flags) (items : list cset) (c : ascii) : bool :=
  existsb (item_has c) items
  || (ignoreCase fl
      && (existsb (item_has (to_lower c)) items
          || existsb (item_has (to_upper c)) items)).

Definition lit_eq (fl : Flags) (c d : ascii) : bool :=
  Ascii.eqb c d || (ignoreCase fl && Ascii.eqb (to_lower c) (to_lower d)).

Definition opt_word (c : option ascii) : bool :=
  match c with Some x => is_word x | None => false end.

Definition head (s : string) : option ascii :=
  match s with String c _ => Some c | EmptyString => None end.

(** A matcher state: the character before the position, the rest of the
    subject, the text of the capturing group. *)
Record Pos := {
  prev : option ascii;
  rest : string;
  cap : option string
}.

Definition Cont := Pos -> option Pos.

(** [m fl r p k]: the first way, in priority order, of matching [r] at
    [p] that the continuation [k] accepts. *)
Fixpoint m (fl : Flags) (r : re) (p : Pos) (k : Cont) : option Pos :=
  match r with
  | Eps => k p
  | Lit c =>
      match rest p with
      | String d s' =>
          if lit_eq fl c d
          then k {| prev := Some d; rest := s'; cap := cap p |}
          else None
      | EmptyString => None
      end
  | Class negated items =>
      match rest p with
      | String d s' =>
          if xorb negated (class_has fl items d)
          then k {| prev := Some d; rest := s'; cap := cap p |}
          else None
      | EmptyString => None
      end
  | AnyChar =>
      match rest p with
      | String d s' =>
          if is_line_end d then None
          else k {| prev := Some d; rest := s'; cap := cap p |}
      | EmptyString => None
      end
  | Seq a b => m fl a p (fun p' => m fl b p' k)
  | Alt a b =>
      match m fl a p k with
      | Some out => Some out
      | None => m fl b p k
      end
  | Star a =>
      (fix loop (n : nat) (p : Pos) : option Pos :=
         match n with
         | 0 => k p
         | S n' =>
             match m fl a p
                     (fun p' =>
                        if String.length (rest p') <? String.length (rest p)
                        then loop n' p' else None)
             with
             | Some out => Some out
             | None => k p
             end
         end) (S (String.length (rest p))) p
  | Group a =>
      m fl a p
        (fun p' =>
           k {| prev := prev p'; rest := rest p';
                cap := Some (JS.take (String.length (rest p)
                                      - String.length (rest p')) (rest p)) |})
  | WordBoundary =>
      if xorb (opt_word (prev p)) (opt_word (head (rest p))) then k p else None
  | Bol =>
      match prev p with
      | None => k p
      | Some c => if multiline fl && is_line_end c then k p else None
      end
  | Eol =>
      match rest p with
      | EmptyString => k p
      | String c _ => if multiline fl && is_line_end c then k p else None
      end
  end.

(** A match: where it starts, and the position after it. *)
Record Match := {
  index : nat;
  after : Pos
}.

(** The leftmost match at or after the position [(pv, s)], which is at
    offset [i] of the subject. *)
Fixpoint search (fl : Flags) (r : re) (pv : option ascii) (s : string)
  (i : nat) : option Match :=
  match m fl r {| prev := pv; rest := s; cap := None |} Some with
  | Some p => Some {| index := i; after := p |}
  | None =>
      match s with
      | String c s' => search fl r (Some c) s' (S i)
      | EmptyString => None
      end
  end.

(** The loop [while ((match = re.exec(s)) !== null)] of a global
    expression.  Where a match is empty the JavaScript loop does not end;
    the list stops there. *)
Fixpoint exec_all (fuel : nat) (fl : Flags) (r : re) (total : nat)
  (pv : option ascii) (s : string) : list Match :=
  match fuel with
  | 0 => []
  | S fuel' =>
      match search fl r pv s (total - String.length s) with
      | None => []
      | Some mt =>
          let s' := rest (after mt) in
          if total - String.length s' <=? index mt then [mt]
          else mt :: exec_all fuel' fl r total (prev (after mt)) s'
      end
  end.

Definition test (re_ : RegExp) (s : string) : bool :=
  match parse (source re_) with
  | Some r =>
      match search (parse_flags (flags re_)) r None s 0 with
      | Some _ => true
      | None => false
      end
  | None => false
  end.

Definition matches (re_ : RegExp) (s : string) : list Match :=
  match parse (source re_) with
  | Some r =>
      exec_all (S (String.length s)) (parse_flags (flags re_)) r
        (String.length s) None s
  | None => []
  end.

Definition group1 (mt : Match) : string :=
  match cap (after mt) with Some t => t | None => "" end.

Definition engine : RegExpEngine := {|
  regex_test := test;
  regex_exec_indices := fun re_ s => map index (matches re_ s);
  regex_exec_group1 := fun re_ s => map group1 (matches re_ s)
|}.

End MiniRegex.

(* ================================================================== *)
(** * Facts about lists and strings *)
(* ================================================================== *)

Module Facts.

(** ** Lists *)

Lemma fold_left_filter :
  forall {A B} (f : B -> bool) (g : A -> B -> A) l acc,
    fold_left (fun a x => if f x then g a x else a) l acc
    = fold_left g (filter f l) acc.
Proof.
  intros A B f g l. induction l as [|x r IH]; intro acc; [reflexivity|].
  cbn. destruct (f x); cbn; apply IH.
Qed.

Lemma fold_left_map :
  forall {A B C} (h : B -> C) (g : A -> C -> A) l acc,
    fold_left (fun a x => g a (h x)) l acc = fold_left g (map h l) acc.
Proof.
  intros A B C h g l. induction l as [|x r IH]; intro acc; [reflexivity|].
  cbn. apply IH.
Qed.

Lemma fold_left_flat_map :
  forall {A B C} (F : B -> list C) (g : A -> C -> A) l acc,
    fold_left (fun a x => fold_left g (F x) a) l acc
    = fold_left g (flat_map F l) acc.
Proof.
  intros A B C F g l. induction l as [|x r IH]; intro acc; [reflexivity|].
  cbn. rewrite fold_left_app. apply IH.
Qed.

Lemma fold_left_ext_in :
  forall {A B} (f g : A -> B -> A) l acc,
    (forall a x, In x l -> f a x = g a x) ->
    fold_left f l acc = fold_left g l acc.
Proof.
  intros A B f g l. induction l as [|x r IH]; intros acc H; [reflexivity|].
  cbn. rewrite H by (left; reflexivity). apply IH.
  intros a y Hy. apply H. right. exact Hy.
Qed.

(** An invariant of a loop holds at its end. *)
Lemma fold_left_invariant :
  forall {A B} (P : A -> Prop) (f : A -> B -> A) l acc,
    P acc -> (forall a x, P a -> In x l -> P (f a x)) ->
    P (fold_left f l acc).
Proof.
  intros A B P f l. induction l as [|x r IH]; intros acc H0 Hstep; [exact H0|].
  cbn. apply IH.
  - apply Hstep; [exact H0 | left; reflexivity].
  - intros a y Ha Hy. apply Hstep; [exact Ha | right; exact Hy].
Qed.

(** ** Strings *)

Lemma append_inj_l : forall a x y : string, a ++ x = a ++ y -> x = y.
Proof.
  induction a as [|c a IH]; intros x y H; [exact H|].
  cbn in H. injection H as H. apply IH. exact H.
Qed.

Lemma of_nat_inj : forall n m, JS.of_nat n = JS.of_nat m -> n = m.
Proof.
  intros n m H. unfold JS.of_nat in H.
  assert (Hu : Nat.to_uint n = Nat.to_uint m).
  { pose proof (NilEmpty.usu (Nat.to_uint n)) as Hn.
    pose proof (NilEmpty.usu (Nat.to_uint m)) as Hm.
    rewrite H in Hn. rewrite Hn in Hm. injection Hm as Hm. exact Hm. }
  rewrite <- (Unsigned.of_to n), <- (Unsigned.of_to m), Hu. reflexivity.
Qed.

Lemma mem_In : forall x l, JS.mem x l = true <-> In x l.
Proof.
  intros x l. unfold JS.mem. rewrite existsb_exists. split.
  - intros [y [Hy Heq]]. apply String.eqb_eq in Heq. subst. exact Hy.
  - intro H. exists x. split; [exact H | apply String.eqb_refl].
Qed.

End Facts.

(* ================================================================== *)
(** * Properties of the orchestrator *)
(* ================================================================== *)

Module OrchestratorProofs.
Import Orchestrator.

(** The scanners a pass awaits, in order. *)
Definition stages (config : VibeSecurityConfig) : list Stage :=
  (AwaitSecrets
   :: (if rls_enabled_flag (rlsScanner config) then [AwaitRLS] else [])
   ++ [AwaitSQL; AwaitAPIKeys])%list.

(** The issues collected up to the first fault, and that fault. *)
Fixpoint gather (scan : Scanners) (l : list Stage)
  (acc : list SecurityIssue) : list SecurityIssue * option string :=
  match l with
  | [] => (acc, None)
  | s :: r =>
      match scan s with
      | Fulfilled found => gather scan r (acc ++ found)%list
      | Rejected msg => (acc, Some msg)
      end
  end.

(** The issue ids of a list, sorted. *)
Fixpoint insert_sorted (x : string) (l : list string) : list string :=
  match l with
  | [] => [x]
  | y :: r => if String.leb x y then x :: l else y :: insert_sorted x r
  end.

Definition sort_strings (l : list string) : list string :=
  fold_right insert_sorted [] l.

Definition sorted_ids (l : list SecurityIssue) : list string :=
  sort_strings (map id l).

(** The event that starts the scanner awaited at a stage. *)
Definition start_event (s : Stage) : Event :=
  match s with
  | AwaitSecrets => EvScanSecrets
  | AwaitRLS => EvScanRLS
  | AwaitSQL => EvScanSQLInjection
  | AwaitAPIKeys => EvScanAPIKeys
  end.

(** The stages up to the first one whose scanner throws, that one
    included. *)
Fixpoint reached (scan : Scanners) (l : list Stage) : list Stage :=
  match l with
  | [] => []
  | s :: r =>
      match scan s with
      | Fulfilled _ => s :: reached scan r
      | Rejected _ => [s]
      end
  end.

(** The statements after the last scanner, in order: the read of the
    reporter's flag, then the calls. *)
Definition tail (config : VibeSecurityConfig) : list Sink :=
  (ReadReporterTerminal
   :: (if terminal (reporter config) then [ReportToTerminal] else [])
   ++ [PrintRLSRecipes; WriteVibeSummary])%list.

(** The message of the first statement of a list that throws. *)
Fixpoint first_throw (sinks : Sinks) (l : list Sink) : option string :=
  match l with
  | [] => None
  | k :: r =>
      match sinks k with
      | Completes => first_throw sinks r
      | Throws msg => Some msg
      end
  end.

(** The statements of a list that are run: up to the first one that
    throws, that one included. *)
Fixpoint run_upto (sinks : Sinks) (l : list Sink) : list Sink :=
  match l with
  | [] => []
  | k :: r =>
      match sinks k with
      | Completes => k :: run_upto sinks r
      | Throws _ => [k]
      end
  end.

(** What running a statement shows in the trace. *)
Definition call_event (all : list SecurityIssue) (k : Sink) : list Event :=
  match k with
  | ReadReporterTerminal => []
  | ReportToTerminal => [EvReportToTerminal all]
  | PrintRLSRecipes => [EvPrintRLSRecipes all]
  | WriteVibeSummary => [EvWriteVibeSummary all]
  end.

(** The fault that ends a pass, if any: that of the first scanner that
    throws, else that of the first statement after the scanners that
    throws. *)
Definition pass_fault (config : VibeSecurityConfig) (scan : Scanners)
  (sinks : Sinks) : option string :=
  match snd (gather scan (stages config) []) with
  | Some msg => Some msg
  | None => first_throw sinks (tail config)
  end.

(** What a pass adds to the trace: the scanners it starts; when they all
    return, the sinks it calls; and the fault, when there is one. *)
Definition pass_events (config : VibeSecurityConfig) (scan : Scanners)
  (sinks : Sinks) : list Event :=
  let g := gather scan (stages config) [] in
  (map start_event (reached scan (stages config))
   ++ match snd g with
      | Some _ => []
      | None => flat_map (call_event (fst g)) (run_upto sinks (tail config))
      end
   ++ match pass_fault config scan sinks with
      | Some msg => [EvConsoleError msg]
      | None => []
      end)%list.

(** All the statements complete. *)
Definition sinks_complete : Sinks := fun _ => Completes.

Lemma drive_returned :
  forall fuel scan sinks st l,
    drive fuel scan sinks (st, Returned l) = (st, Returned l).
Proof. intros [|fuel] scan sinks st l; reflexivity. Qed.

Lemma first_throw_none :
  forall sinks l,
    first_throw sinks l = None <-> forall k, In k l -> sinks k = Completes.
Proof.
  intros sinks l. induction l as [|k r IH].
  - split; [intros _ k [] | reflexivity].
  - cbn [first_throw]. destruct (sinks k) eqn:E.
    + rewrite IH. split.
      * intros H k' [<-|Hk']; [exact E | apply H; exact Hk'].
      * intros H k' Hk'. apply H. right. exact Hk'.
    + split; [discriminate|]. intro H.
      rewrite (H k (or_introl eq_refl)) in E. discriminate E.
Qed.

Lemma gather_none :
  forall scan l acc,
    snd (gather scan l acc) = None
    <-> forall s, In s l -> exists found, scan s = Fulfilled found.
Proof.
  intros scan l. induction l as [|s r IH]; intro acc.
  - split; [intros _ s [] | reflexivity].
  - cbn [gather]. destruct (scan s) as [found|msg] eqn:E.
    + rewrite IH. split.
      * intros H s' [<-|Hs']; [exists found; exact E | apply H; exact Hs'].
      * intros H s' Hs'. apply H. right. exact Hs'.
    + split; [discriminate|]. intro H.
      destruct (H s (or_introl eq_refl)) as [found Hf].
      rewrite Hf in E. discriminate E.
Qed.

Lemma pass_fault_none :
  forall config scan sinks,
    pass_fault config scan sinks = None
    <-> (forall s, In s (stages config) -> exists found, scan s = Fulfilled found)
        /\ (forall k, In k (tail config) -> sinks k = Completes).
Proof.
  intros config scan sinks. unfold pass_fault.
  rewrite <- (gather_none scan (stages config) []), <- first_throw_none.
  destruct (snd (gather scan (stages config) [])) as [msg|].
  - split; [discriminate | intros [H _]; discriminate H].
  - split; [intro H; split; [reflexivity | exact H] | intros [_ H]; exact H].
Qed.

(** The statements after the last scanner: the state they leave and what
    the run returns, by the first of them that throws. *)
Lemma finish_spec :
  forall config sinks all st,
    finish config sinks all st
    = ({| latestIssues := match first_throw sinks (tail config) with
                          | None => all
                          | Some _ => latestIssues st
                          end;
          isScanning := false;
          trace := (trace st
                    ++ flat_map (call_event all) (run_upto sinks (tail config))
                    ++ match first_throw sinks (tail config) with
                       | Some msg => [EvConsoleError msg]
                       | None => []
                       end)%list |},
       Returned all).
Proof.
  intros config sinks all st. unfold finish, tail, fault.
  destruct (sinks ReadReporterTerminal) eqn:E0;
  destruct (terminal (reporter config)) eqn:T;
  destruct (sinks ReportToTerminal) eqn:E1;
  destruct (sinks PrintRLSRecipes) eqn:E2;
  destruct (sinks WriteVibeSummary) eqn:E3;
  cbn [app first_throw run_upto flat_map call_event];
  rewrite ?E0, ?E1, ?E2, ?E3;
  cbn [app first_throw run_upto flat_map call_event];
  rewrite ?E0, ?E1, ?E2, ?E3;
  cbn [app first_throw run_upto flat_map call_event];
  rewrite ?E0, ?E1, ?E2, ?E3;
  unfold emit, set_isScanning, set_latestIssues;
  cbn [latestIssues isScanning trace app flat_map];
  rewrite <- ?app_assoc; cbn [app]; rewrite ?app_nil_r; reflexivity.
Qed.

(** The scanners of a pass that starts while none is in flight: the run
    awaits them in order and goes to the [catch] at the first that
    throws, to the statements after the last scanner when none does. *)
Lemma runFullScan_scanners :
  forall config scan sinks st,
    isScanning st = false ->
    let g := gather scan (stages config) [] in
    let st' := {| latestIssues := latestIssues st;
                  isScanning := true;
                  trace := (trace st
                            ++ map start_event
                                 (reached scan (stages config)))%list |} in
    runFullScan config scan sinks st
    = match snd g with
      | Some msg => fault msg (fst g) st'
      | None => finish config sinks (fst g) st'
      end.
Proof.
  intros config scan sinks st Hidle.
  unfold runFullScan, runFullScan_call, stages.
  rewrite Hidle.
  destruct (scan AwaitSecrets) as [i1|m1] eqn:E1;
  destruct (scan AwaitRLS) as [i2|m2] eqn:E2;
  destruct (scan AwaitSQL) as [i3|m3] eqn:E3;
  destruct (scan AwaitAPIKeys) as [i4|m4] eqn:E4;
  destruct (rls_enabled_flag (rlsScanner config)) eqn:F;
  repeat (cbn [drive runFullScan_resume suspend_at stage
               allIssues run_config gather reached app fst snd map
               start_event];
          rewrite ?E1, ?E2, ?E3, ?E4, ?F, ?finish_spec);
  cbv zeta; unfold fault, emit, set_isScanning;
  cbn [latestIssues isScanning trace];
  rewrite <- ?app_assoc; reflexivity.
Qed.

(** A pass that starts while none is in flight: what it returns and the
    state it leaves, by the fault that ends it. *)
Lemma runFullScan_idle :
  forall config scan sinks st,
    isScanning st = false ->
    let g := gather scan (stages config) [] in
    runFullScan config scan sinks st
    = ({| latestIssues := match pass_fault config scan sinks with
                          | None => fst g
                          | Some _ => latestIssues st
                          end;
          isScanning := false;
          trace := (trace st ++ pass_events config scan sinks)%list |},
       Returned (fst g)).
Proof.
  intros config scan sinks st Hidle. cbv zeta.
  rewrite (runFullScan_scanners config scan sinks st Hidle). cbv zeta.
  unfold pass_events, pass_fault.
  destruct (snd (gather scan (stages config) [])) as [msg|].
  - unfold fault, emit, set_isScanning.
    cbn [latestIssues isScanning trace app].
    rewrite <- app_assoc. reflexivity.
  - rewrite finish_spec. cbn [latestIssues trace].
    rewrite <- app_assoc. reflexivity.
Qed.

(** X1: in a process, the flag is set exactly while one run is suspended:
    there is never a second one. *)
Lemma at_most_one_scan :
  forall p,
    reachable p ->
    List.length (suspended p) = if isScanning (orch p) then 1 else 0.
Proof.
  induction 1 as [|p q Hp IH Hstep]; [reflexivity|].
  destruct Hstep as [config p st' pr Hcall | n r o sinks p st' pr Hnth Hres].
  - unfold runFullScan_call in Hcall.
    destruct (isScanning (orch p)) eqn:Hflag.
    + inversion Hcall; subst. cbn. rewrite Hflag. exact IH.
    + inversion Hcall; subst. cbn. rewrite IH. reflexivity.
  - destruct (isScanning (orch p)) eqn:Hflag.
    + destruct (suspended p) as [|r0 [|r1 l]] eqn:Hs; try discriminate.
      destruct n as [|[|n]]; cbn in Hnth; try discriminate.
      inversion Hnth; subst r0. cbn [remove_nth firstn skipn app].
      unfold runFullScan_resume in Hres.
      destruct o as [found|msg].
      * destruct (stage r);
          [ destruct (rls_enabled_flag (rlsScanner (run_config r))) | | | ];
          try rewrite finish_spec in Hres;
          inversion Hres; subst; cbn; try rewrite Hflag; reflexivity.
      * inversion Hres; subst; reflexivity.
    + destruct (suspended p); [|discriminate].
      destruct n; discriminate.
Qed.

(** C1: a call of runFullScan while a scan is in flight starts no scanner,
    leaves latestIssues, the flag and the trace as they are, and returns
    the current latestIssues; this holds for the call itself and for the
    call followed to its end. *)
Theorem runFullScan_in_flight_is_noop :
  forall (config : VibeSecurityConfig) (scan : Scanners) (sinks : Sinks)
         (st : State),
    isScanning st = true ->
    runFullScan_call config st = (st, Returned (latestIssues st))
    /\ runFullScan config scan sinks st = (st, Returned (getLatestIssues st))
    /\ scans_started (fst (runFullScan config scan sinks st))
       = scans_started st.
Proof.
  intros config scan sinks st Hflag.
  unfold runFullScan, runFullScan_call. rewrite Hflag.
  repeat split; reflexivity.
Qed.

(** The state in which the first pass of the process is suspended. *)
Definition first_pass_in_flight : State :=
  fst (runFullScan_call getDefaultConfig initial).

Lemma runFullScan_in_flight_is_noop_witness :
  isScanning first_pass_in_flight = true
  /\ runFullScan_call getDefaultConfig first_pass_in_flight
     = (first_pass_in_flight, Returned (latestIssues first_pass_in_flight))
  /\ runFullScan getDefaultConfig (fun _ => Fulfilled []) sinks_complete
       first_pass_in_flight
     = (first_pass_in_flight, Returned (getLatestIssues first_pass_in_flight))
  /\ scans_started
       (fst (runFullScan getDefaultConfig (fun _ => Fulfilled [])
               sinks_complete first_pass_in_flight))
     = scans_started first_pass_in_flight.
Proof.
  split; [reflexivity|].
  apply (runFullScan_in_flight_is_noop getDefaultConfig
           (fun _ => Fulfilled []) sinks_complete first_pass_in_flight).
  reflexivity.
Defined.

(** An issue of an earlier pass, an issue of the current one. *)
Definition stale_issue : SecurityIssue :=
  {| id := "rls-disabled-orders"; category := rls_missing;
     severity := critical; title := "orders"; message := "";
     file := None; line := None; key := None; table := Some "orders";
     timestamp := 1%Z |}.

Definition fresh_issue : SecurityIssue :=
  {| id := "gitignore-env-missing"; category := general;
     severity := warning; title := ".gitignore"; message := "";
     file := Some ".gitignore"; line := None; key := None; table := None;
     timestamp := 2%Z |}.

Definition after_earlier_pass : State :=
  {| latestIssues := [stale_issue]; isScanning := false; trace := [] |}.

(** The secret scanner finds one issue, then the RLS scanner throws. *)
Definition rls_throws : Scanners :=
  fun s => match s with
           | AwaitSecrets => Fulfilled [fresh_issue]
           | AwaitRLS => Rejected "fetch failed"
           | _ => Fulfilled []
           end.

(** The secret scanner finds one issue and every scanner returns. *)
Definition all_return : Scanners :=
  fun s => match s with
           | AwaitSecrets => Fulfilled [fresh_issue]
           | _ => Fulfilled []
           end.

(** The configuration object has no [reporter]: the read of
    [config.reporter.terminal] throws. *)
Definition no_reporter : Sinks :=
  fun k => match k with
           | ReadReporterTerminal =>
               Throws "Cannot read properties of undefined (reading 'terminal')"
           | _ => Completes
           end.

(** C2, as stated, fails: the RLS scanner throws after the secret scanner
    has found an issue; the pass returns that issue, but latestIssues
    still holds the list of the earlier pass. *)
Lemma runFullScan_fault_counterexample :
  let out := runFullScan getDefaultConfig rls_throws sinks_complete
               after_earlier_pass in
  snd out = Returned [fresh_issue]
  /\ latestIssues (fst out) = [stale_issue]
  /\ latestIssues (fst out) <> [fresh_issue].
Proof.
  cbv zeta. repeat split; try reflexivity.
  intro H. vm_compute in H. discriminate H.
Qed.

(** C2, amended: a pass replaces latestIssues with its issues exactly
    when it reaches the assignment, that is when every scanner it awaits
    returns and every statement after the last scanner (the read of the
    reporter's flag, reportToTerminal, printRLSRecipes, writeVibeSummary)
    completes; a pass in which a scanner or one of these statements
    throws logs the fault, releases the flag and returns the issues
    collected before the fault, and leaves latestIssues as it was. *)
Theorem runFullScan_replaces_only_on_success :
  forall (config : VibeSecurityConfig) (scan : Scanners) (sinks : Sinks)
         (st : State),
    isScanning st = false ->
    let out := runFullScan config scan sinks st in
    let collected := fst (gather scan (stages config) []) in
    snd out = Returned collected
    /\ isScanning (fst out) = false
    /\ match pass_fault config scan sinks with
       | None => latestIssues (fst out) = collected
       | Some msg =>
           latestIssues (fst out) = latestIssues st
           /\ In (EvConsoleError msg) (trace (fst out))
       end
    /\ (pass_fault config scan sinks = None
        <-> (forall s, In s (stages config) ->
                       exists found, scan s = Fulfilled found)
            /\ (forall k, In k (tail config) -> sinks k = Completes)).
Proof.
  intros config scan sinks st Hidle. cbv zeta.
  rewrite (runFullScan_idle config scan sinks st Hidle).
  cbn [fst snd latestIssues isScanning trace].
  split; [reflexivity|]. split; [reflexivity|].
  split; [|apply pass_fault_none].
  unfold pass_events.
  destruct (pass_fault config scan sinks) as [msg|]; [|reflexivity].
  split; [reflexivity|].
  apply in_or_app. right. apply in_or_app. right. apply in_or_app. right.
  left. reflexivity.
Qed.

Lemma runFullScan_replaces_only_on_success_witness :
  isScanning after_earlier_pass = false
  /\ (let out := runFullScan getDefaultConfig rls_throws sinks_complete
                   after_earlier_pass in
      snd out = Returned [fresh_issue]
      /\ pass_fault getDefaultConfig rls_throws sinks_complete
         = Some "fetch failed"
      /\ latestIssues (fst out) = latestIssues after_earlier_pass)
  /\ (let out := runFullScan getDefaultConfig all_return no_reporter
                   after_earlier_pass in
      snd out = Returned [fresh_issue]
      /\ latestIssues (fst out) = latestIssues after_earlier_pass)
  /\ (let out := runFullScan getDefaultConfig all_return sinks_complete
                   after_earlier_pass in
      pass_fault getDefaultConfig all_return sinks_complete = None
      /\ latestIssues (fst out) = [fresh_issue]).
Proof.
  split; [reflexivity|].
  pose proof (runFullScan_replaces_only_on_success getDefaultConfig
                rls_throws sinks_complete after_earlier_pass eq_refl) as H1.
  pose proof (runFullScan_replaces_only_on_success getDefaultConfig
                all_return no_reporter after_earlier_pass eq_refl) as H2.
  pose proof (runFullScan_replaces_only_on_success getDefaultConfig
                all_return sinks_complete after_earlier_pass eq_refl) as H3.
  cbv zeta in H1, H2, H3 |- *.
  destruct H1 as [R1 [_ [L1 _]]]. destruct H2 as [R2 [_ [L2 _]]].
  destruct H3 as [_ [_ [L3 _]]].
  split; [|split].
  - split; [exact R1|]. split; [reflexivity|]. apply L1.
  - split; [exact R2|]. apply L2.
  - split; [reflexivity|]. exact L3.
Defined.

End OrchestratorProofs.

(* ================================================================== *)
(** * Properties of the secret scanner *)
(* ================================================================== *)

Module SecretScannerProofs.
Import SecretScanner Facts.

Lemma uniq_acc_In :
  forall l seen x,
    In x (JS.uniq_acc seen l) -> In x l /\ JS.mem x seen = false.
Proof.
  induction l as [|y r IH]; intros seen x H; [contradiction|].
  cbn in H. destruct (JS.mem y seen) eqn:Hm.
  - destruct (IH _ _ H) as [Hin Hs]. split; [right; exact Hin | exact Hs].
  - destruct H as [<- | H].
    + split; [left; reflexivity | exact Hm].
    + destruct (IH _ _ H) as [Hin Hs]. split; [right; exact Hin|].
      cbn in Hs. apply orb_false_elim in Hs. apply Hs.
Qed.

Lemma uniq_NoDup : forall l, NoDup (JS.uniq l).
Proof.
  unfold JS.uniq. intro l. generalize (@nil string).
  induction l as [|y r IH]; intro seen; cbn; [constructor|].
  destruct (JS.mem y seen); [apply IH|].
  constructor; [|apply IH].
  intro H. apply uniq_acc_In in H. destruct H as [_ H].
  cbn in H. rewrite String.eqb_refl in H. discriminate H.
Qed.

Lemma parseLine_line :
  forall index rawLine e,
    parseLine index rawLine = Some e -> e_line e = index + 1.
Proof.
  intros index rawLine e. unfold parseLine.
  destruct (negb _ || _); [discriminate|].
  destruct (JS.indexOf _ _); [|discriminate].
  intro H. inversion H. reflexivity.
Qed.

Lemma parseLines_line_gt :
  forall l n e, In e (parseLines (JS.indexed_from n l)) -> n < e_line e.
Proof.
  induction l as [|a r IH]; intros n e H; [contradiction|].
  cbn in H. destruct (parseLine n a) eqn:E.
  - destruct H as [<- | H].
    + rewrite (parseLine_line _ _ _ E). lia.
    + apply IH in H. lia.
  - apply IH in H. lia.
Qed.

Lemma parseLines_NoDup :
  forall l n, NoDup (map e_line (parseLines (JS.indexed_from n l))).
Proof.
  induction l as [|a r IH]; intro n; cbn; [constructor|].
  destruct (parseLine n a) eqn:E; [|apply IH].
  cbn. constructor; [|apply IH].
  intro H. apply in_map_iff in H. destruct H as [e' [Heq Hin]].
  apply parseLines_line_gt in Hin.
  rewrite (parseLine_line _ _ _ E) in Heq. lia.
Qed.

Lemma parseEnvFile_NoDup :
  forall fs filePath, NoDup (map e_line (parseEnvFile fs filePath)).
Proof.
  intros fs filePath. unfold parseEnvFile, parseContent.
  destruct (readFileSync fs filePath); [apply parseLines_NoDup|constructor].
Qed.

(** The issue [i] is a secret-leak issue at the location of [entry], with
    its key. *)
Definition reports (relativeFile : string) (entry : EnvEntry)
  (i : SecurityIssue) : bool :=
  IssueCategory_eqb (category i) secret_leak
  && JS.is_string (file i) relativeFile
  && JS.is_number (line i) (e_line entry)
  && JS.is_string (key i) (e_key entry).

Section Facts.
Context {engine : RegExpEngine}.
Variable fs : FileSystem.
Variable projectRoot : string.
Variable now : Z.
Variable config : SecretScannerConfig.

Lemma entryIssue_self :
  forall all rel e,
    filter (reports rel e) (entryIssue now config all rel e)
    = entryIssue now config all rel e.
Proof.
  intros all rel e. unfold entryIssue.
  destruct (matchesSensitivePattern _ _); [|reflexivity].
  cbn. unfold reports. cbn.
  rewrite !String.eqb_refl, Nat.eqb_refl. reflexivity.
Qed.

Lemma entryIssue_other_line :
  forall all rel rel' e e',
    e_line e' <> e_line e ->
    filter (reports rel e) (entryIssue now config all rel' e') = [].
Proof.
  intros all rel rel' e e' Hne. unfold entryIssue.
  destruct (matchesSensitivePattern _ _); [|reflexivity].
  cbn. unfold reports. cbn.
  apply Nat.eqb_neq in Hne. rewrite Hne.
  rewrite !andb_false_r. reflexivity.
Qed.

Lemma entryIssue_other_file :
  forall all rel rel' e e',
    rel' <> rel ->
    filter (reports rel e) (entryIssue now config all rel' e') = [].
Proof.
  intros all rel rel' e e' Hne. unfold entryIssue.
  destruct (matchesSensitivePattern _ _); [|reflexivity].
  cbn. unfold reports. cbn.
  apply String.eqb_neq in Hne. rewrite Hne. reflexivity.
Qed.

Lemma entries_no_report :
  forall all rel rel' e es,
    (forall e', In e' es -> rel' <> rel \/ e_line e' <> e_line e) ->
    filter (reports rel e) (flat_map (entryIssue now config all rel') es) = [].
Proof.
  intros all rel rel' e es. induction es as [|a r IH]; intro H; [reflexivity|].
  cbn. rewrite filter_app, IH by (intros; apply H; right; assumption).
  rewrite app_nil_r.
  destruct (H a (or_introl eq_refl)) as [Hf | Hl].
  - apply entryIssue_other_file; exact Hf.
  - apply entryIssue_other_line; exact Hl.
Qed.

Lemma entries_report :
  forall all rel e es,
    NoDup (map e_line es) -> In e es ->
    filter (reports rel e) (flat_map (entryIssue now config all rel) es)
    = entryIssue now config all rel e.
Proof.
  intros all rel e es. induction es as [|a r IH]; intros Hnd Hin;
    [contradiction|].
  cbn in Hnd. inversion Hnd as [|x l Hnotin Hnd']; subst.
  cbn. rewrite filter_app.
  destruct Hin as [-> | Hin].
  - rewrite entryIssue_self, entries_no_report; [apply app_nil_r|].
    intros e' He'. right. intro Heq. apply Hnotin. rewrite <- Heq.
    apply in_map. exact He'.
  - rewrite IH by assumption.
    rewrite entryIssue_other_line; [reflexivity|].
    intro Heq. apply Hnotin. rewrite Heq. apply in_map. exact Hin.
Qed.

Lemma files_no_report :
  forall all e rel files,
    ~ In rel (map (relative fs) files) ->
    filter (reports rel e)
      (flat_map (fileIssues fs now config all) (fileEntries fs files)) = [].
Proof.
  intros all e rel files. induction files as [|b r IH]; intro Hnotin;
    [reflexivity|].
  change (fileEntries fs (b :: r))
    with ((b, parseEnvFile fs b) :: fileEntries fs r).
  cbn [flat_map]. rewrite filter_app. unfold fileIssues at 1. cbn [fst snd].
  rewrite entries_no_report.
  - cbn [app]. apply IH. intro H. apply Hnotin. right. exact H.
  - intros e' _. left. intro Heq. apply Hnotin. left. exact Heq.
Qed.

Lemma files_report :
  forall all e f files,
    NoDup (map (relative fs) files) -> In f files ->
    In e (parseEnvFile fs f) ->
    filter (reports (relative fs f) e)
      (flat_map (fileIssues fs now config all) (fileEntries fs files))
    = entryIssue now config all (relative fs f) e.
Proof.
  intros all e f files. induction files as [|a r IH]; intros Hnd Hin He;
    [contradiction|].
  cbn in Hnd. inversion Hnd as [|x l Hnotin Hnd']; subst.
  change (fileEntries fs (a :: r))
    with ((a, parseEnvFile fs a) :: fileEntries fs r).
  cbn [flat_map]. rewrite filter_app. unfold fileIssues at 1. cbn [fst snd].
  destruct Hin as [-> | Hin].
  - rewrite entries_report by (auto using parseEnvFile_NoDup).
    rewrite files_no_report by exact Hnotin. apply app_nil_r.
  - rewrite IH by assumption.
    rewrite entries_no_report; [reflexivity|].
    intros e' _. left. intro Heq. apply Hnotin. rewrite Heq.
    apply in_map. exact Hin.
Qed.

Lemma gitignoreCheck_no_report :
  forall rel e, filter (reports rel e) (gitignoreCheck fs projectRoot now) = [].
Proof.
  intros rel e. unfold gitignoreCheck.
  destruct (existsSync _ _); [|reflexivity].
  destruct (readFileSync _ _); [|reflexivity].
  destruct (negb _ && negb _); reflexivity.
Qed.

(** The issues of the scan at the location of an entry are exactly the
    issues of the loop body on that entry. *)
Lemma scanSecrets_reports :
  forall filePath entry,
    (forall a b,
        In a (uniqueFiles fs projectRoot config) ->
        In b (uniqueFiles fs projectRoot config) ->
        relative fs a = relative fs b -> a = b) ->
    In filePath (uniqueFiles fs projectRoot config) ->
    In entry (parseEnvFile fs filePath) ->
    filter (reports (relative fs filePath) entry)
      (issues (scanSecrets fs projectRoot now config))
    = entryIssue now config
        (allEntries fs (fileEntries fs (uniqueFiles fs projectRoot config)))
        (relative fs filePath) entry.
Proof.
  intros filePath entry Hinj Hfile Hentry.
  unfold scanSecrets.
  destruct (uniqueFiles fs projectRoot config) as [|f0 fl] eqn:Hu;
    [contradiction|].
  cbn [issues]. rewrite filter_app, gitignoreCheck_no_report, app_nil_r.
  apply files_report; try assumption.
  apply NoDup_map_NoDup_ForallPairs.
  - intros a b Ha Hb Heq. apply Hinj; assumption.
  - rewrite <- Hu. apply uniq_NoDup.
Qed.

End Facts.

Lemma startsWith_marker :
  forall rest, JS.startsWith "NEXT_PUBLIC_" ("NEXT_PUBLIC_" ++ rest) = true.
Proof. intro rest. destruct rest; reflexivity. Qed.

Lemma stripMarker_marker :
  forall rest, stripMarker ("NEXT_PUBLIC_" ++ rest) = rest.
Proof.
  intro rest. unfold stripMarker. change marker with "NEXT_PUBLIC_".
  rewrite startsWith_marker. reflexivity.
Qed.

Lemma find_first :
  forall {A} (f : A -> bool) before x after,
    (forall y, In y before -> f y = false) ->
    f x = true ->
    find f (before ++ x :: after) = Some x.
Proof.
  intros A f before x after Hb Hx. induction before as [|y r IH].
  - cbn. rewrite Hx. reflexivity.
  - cbn. rewrite (Hb y (or_introl eq_refl)). apply IH.
    intros z Hz. apply Hb. right. exact Hz.
Qed.

(** C4, amended: for an entry of a scanned environment file whose key is
    NEXT_PUBLIC_ followed by [rest], the secret-leak issues of scanSecrets
    with the file, line and key of the entry are: exactly one, with the
    severity of the first pattern of the table (in table order) whose
    expression matches, case-insensitively, the key or [rest]; none when
    no pattern of the table matches either; and none when the key does
    not start with NEXT_PUBLIC_, whatever the patterns match. *)
Theorem scanSecrets_one_issue_per_exposed_entry :
  forall {engine : RegExpEngine} (fs : FileSystem) (projectRoot : string)
         (now : Z) (config : SecretScannerConfig)
         (filePath : string) (entry : EnvEntry),
    (forall a b,
        In a (uniqueFiles fs projectRoot config) ->
        In b (uniqueFiles fs projectRoot config) ->
        relative fs a = relative fs b -> a = b) ->
    In filePath (uniqueFiles fs projectRoot config) ->
    In entry (parseEnvFile fs filePath) ->
    let mine := filter (reports (relative fs filePath) entry)
                  (issues (scanSecrets fs projectRoot now config)) in
    let matches (p : SensitivePattern) (rest : string) :=
      regex_test (mkRegExp (pattern p) "i") (e_key entry)
      || regex_test (mkRegExp (pattern p) "i") rest in
    (forall rest before p0 after,
        e_key entry = "NEXT_PUBLIC_" ++ rest ->
        sensitivePatterns config = (before ++ p0 :: after)%list ->
        (forall q, In q before -> matches q rest = false) ->
        matches p0 rest = true ->
        exists i,
          mine = [i]
          /\ category i = secret_leak
          /\ severity i = sp_severity p0
          /\ file i = Some (relative fs filePath)
          /\ line i = Some (e_line entry)
          /\ key i = Some (e_key entry))
    /\ (forall rest,
          e_key entry = "NEXT_PUBLIC_" ++ rest ->
          (forall q, In q (sensitivePatterns config) ->
                     matches q rest = false) ->
          mine = [])
    /\ (JS.startsWith "NEXT_PUBLIC_" (e_key entry) = false -> mine = []).
Proof.
  intros engine fs projectRoot now config filePath entry Hinj Hfile Hentry
    mine matches.
  assert (Hmine : mine = entryIssue now config
            (allEntries fs (fileEntries fs (uniqueFiles fs projectRoot config)))
            (relative fs filePath) entry)
    by (apply scanSecrets_reports; assumption).
  assert (Hhits : forall rest q,
             e_key entry = "NEXT_PUBLIC_" ++ rest ->
             pattern_hits (e_key entry) q = matches q rest).
  { intros rest q Hkey. unfold pattern_hits, matches.
    rewrite Hkey at 2. rewrite stripMarker_marker. reflexivity. }
  split; [|split].
  - intros rest before p0 after Hkey Htable Hbefore Hp0.
    assert (Hfind : find (pattern_hits (e_key entry)) (sensitivePatterns config)
                    = Some p0).
    { rewrite Htable. apply find_first.
      - intros q Hq. rewrite (Hhits rest q Hkey). apply Hbefore. exact Hq.
      - rewrite (Hhits rest p0 Hkey). exact Hp0. }
    eexists. rewrite Hmine. unfold entryIssue, matchesSensitivePattern.
    rewrite Hfind. change marker with "NEXT_PUBLIC_".
    rewrite Hkey at 1. rewrite startsWith_marker.
    cbn [negb]. repeat split; reflexivity.
  - intros rest Hkey Hnone. rewrite Hmine.
    unfold entryIssue, matchesSensitivePattern.
    destruct (negb (JS.startsWith marker (e_key entry))); [reflexivity|].
    destruct (find (pattern_hits (e_key entry)) (sensitivePatterns config))
      as [p0|] eqn:Hfind; [|reflexivity].
    apply find_some in Hfind. destruct Hfind as [Hin Hhit].
    rewrite (Hhits rest p0 Hkey), (Hnone p0 Hin) in Hhit. discriminate Hhit.
  - intro Hmark. rewrite Hmine. unfold entryIssue, matchesSensitivePattern.
    change marker with "NEXT_PUBLIC_". rewrite Hmark. reflexivity.
Qed.

(** A project with one environment file and a [.gitignore] that does not
    mention it. *)
Definition demo_env : string :=
  "# database" ++ JS.nl
  ++ "NEXT_PUBLIC_DATABASE_URL=postgres://user:pw@host/db" ++ JS.nl
  ++ "API_HOST=localhost" ++ JS.nl.

Definition demo_fs : FileSystem := {|
  glob := fun p _ => if String.eqb p ".env.local"
                     then ["/app/.env.local"] else [];
  readFileSync := fun p =>
    if String.eqb p "/app/.env.local" then Some demo_env
    else if String.eqb p "/app/.gitignore" then Some "node_modules"
    else None;
  existsSync := fun p => String.eqb p "/app/.gitignore";
  relative := JS.drop 5
|}.

Definition demo_entry : EnvEntry :=
  {| e_key := "NEXT_PUBLIC_DATABASE_URL";
     e_value := "postgres://user:pw@host/db";
     e_line := 2 |}.

(** Two patterns anchored at the start of the name: they can only match
    the key without its marker. *)
Definition anchored : SecretScannerConfig := {|
  envFiles := [".env.local"];
  sensitivePatterns :=
    [ mkPattern "^SECRET" critical "Secrets stay on the server.";
      mkPattern "^DATABASE_URL$" warning "The database URL stays on the server." ]
|}.

Lemma scanSecrets_one_issue_per_exposed_entry_witness :
  let mine := filter (reports ".env.local" demo_entry)
                (issues (scanSecrets (engine := MiniRegex.engine)
                           demo_fs "/app" 0%Z anchored)) in
  In "/app/.env.local" (uniqueFiles demo_fs "/app" anchored)
  /\ In demo_entry (parseEnvFile demo_fs "/app/.env.local")
  /\ regex_test (RegExpEngine := MiniRegex.engine)
       (mkRegExp "^DATABASE_URL$" "i") "NEXT_PUBLIC_DATABASE_URL" = false
  /\ regex_test (RegExpEngine := MiniRegex.engine)
       (mkRegExp "^DATABASE_URL$" "i") "DATABASE_URL" = true
  /\ exists i,
       mine = [i]
       /\ category i = secret_leak
       /\ severity i = warning
       /\ file i = Some ".env.local"
       /\ line i = Some 2
       /\ key i = Some "NEXT_PUBLIC_DATABASE_URL".
Proof.
  cbv zeta.
  assert (Hfile : In "/app/.env.local" (uniqueFiles demo_fs "/app" anchored))
    by (vm_compute; left; reflexivity).
  assert (Hentry : In demo_entry (parseEnvFile demo_fs "/app/.env.local"))
    by (vm_compute; left; reflexivity).
  split; [exact Hfile|]. split; [exact Hentry|].
  split; [vm_compute; reflexivity|]. split; [vm_compute; reflexivity|].
  refine (proj1 (scanSecrets_one_issue_per_exposed_entry
                   (engine := MiniRegex.engine) demo_fs "/app" 0%Z
                   anchored "/app/.env.local" demo_entry _ Hfile Hentry)
            "DATABASE_URL"
            [ mkPattern "^SECRET" critical "Secrets stay on the server." ]
            (mkPattern "^DATABASE_URL$" warning
               "The database URL stays on the server.")
            [] _ _ _ _).
  - intros a b Ha Hb _. vm_compute in Ha, Hb.
    destruct Ha as [<-|[]]. destruct Hb as [<-|[]]. reflexivity.
  - reflexivity.
  - reflexivity.
  - intros q [<-|[]]. vm_compute. reflexivity.
  - vm_compute. reflexivity.
Defined.

(** The pattern table of the configuration the repository ships
    ([vibe-security.config.js]). *)
Definition shipped_patterns : list SensitivePattern :=
  [ mkPattern "SUPABASE_SERVICE_ROLE_KEY" critical
      "Supabase Service Role Key istemci tarafına asla ifşa edilmemelidir! Bu anahtar tüm RLS kurallarını atlar.";
    mkPattern "DATABASE_URL" critical
      "Veritabanı bağlantı string'i istemci tarafında görünür olmamalıdır.";
    mkPattern "SECRET" critical
      "SECRET içeren anahtarlar istemci tarafına ifşa edilmemelidir.";
    mkPattern "PRIVATE_KEY" critical
      "Özel anahtarlar (private keys) istemci tarafına asla ifşa edilmemelidir.";
    mkPattern "PASSWORD" warning
      "Parola içeren değişkenler istemci tarafında görünür olmamalıdır.";
    mkPattern "SMTP" warning
      "SMTP ayarları sunucu tarafında kalmalıdır.";
    mkPattern "API_SECRET" critical
      "API gizli anahtarları istemci tarafına ifşa edilmemelidir.";
    mkPattern "JWT_SECRET" critical
      "JWT secret sunucu tarafında kalmalıdır. İfşa edilmesi token sahteciğine yol açar.";
    mkPattern "STRIPE_SECRET_KEY" critical
      "Stripe Secret Key istemci tarafına asla ifşa edilmemelidir.";
    mkPattern "AWS_SECRET_ACCESS_KEY" critical
      "AWS gizli erişim anahtarı istemci tarafına ifşa edilmemelidir." ].

Definition shipped : SecretScannerConfig :=
  {| envFiles := [".env"; ".env.local"; ".env.development";
                  ".env.production"; ".env.*.local"];
     sensitivePatterns := shipped_patterns |}.

(** A project whose environment file exposes a key that two patterns of
    the shipped table match. *)
Definition two_hits_fs : FileSystem := {|
  glob := fun p _ => if String.eqb p ".env.local"
                     then ["/app/.env.local"] else [];
  readFileSync := fun p =>
    if String.eqb p "/app/.env.local"
    then Some "NEXT_PUBLIC_SECRET_PASSWORD=hunter2"
    else None;
  existsSync := fun _ => false;
  relative := JS.drop 5
|}.

(** C4, as stated, fails: with the shipped table the key
    NEXT_PUBLIC_SECRET_PASSWORD matches the pattern PASSWORD, whose
    severity is warning, but the one issue of the entry is critical: it
    carries the severity of SECRET, which comes first in the table. *)
Lemma scanSecrets_severity_counterexample :
  let p := mkPattern "PASSWORD" warning
             "Parola içeren değişkenler istemci tarafında görünür olmamalıdır." in
  let entry := {| e_key := "NEXT_PUBLIC_SECRET_PASSWORD";
                  e_value := "hunter2"; e_line := 1 |} in
  In p (sensitivePatterns shipped)
  /\ In entry (parseEnvFile two_hits_fs "/app/.env.local")
  /\ regex_test (RegExpEngine := MiniRegex.engine)
       (mkRegExp (pattern p) "i") (e_key entry) = true
  /\ map severity
       (filter (reports ".env.local" entry)
          (issues (scanSecrets (engine := MiniRegex.engine) two_hits_fs
                     "/app" 0%Z shipped)))
     = [critical]
  /\ critical <> sp_severity p.
Proof.
  cbv zeta. split; [do 4 right; left; reflexivity|].
  split; [vm_compute; left; reflexivity|].
  split; [vm_compute; reflexivity|].
  split; [vm_compute; reflexivity | discriminate].
Qed.

Lemma prefix_app_l :
  forall p q s, String.prefix (p ++ q) s = true -> String.prefix p s = true.
Proof.
  induction p as [|c p IH]; intros q s H; [destruct s; reflexivity|].
  destruct s as [|d s]; [discriminate H|].
  cbn in H |- *. destruct (Ascii.ascii_dec c d); [|discriminate H].
  eapply IH. exact H.
Qed.

Lemma includes_app_l :
  forall p q s, JS.includes (p ++ q) s = true -> JS.includes p s = true.
Proof.
  intros p q s. induction s as [|d s IH]; intro H.
  - destruct p; [reflexivity | discriminate H].
  - cbn [JS.includes] in H |- *. apply orb_true_iff in H.
    apply orb_true_iff. destruct H as [H|H].
    + left. eapply prefix_app_l. exact H.
    + right. apply IH. exact H.
Qed.

Definition gitignore_id : string := "gitignore-env-missing".

Lemma secret_ids :
  forall {engine : RegExpEngine} fs now config all fes i,
    In i (flat_map (fileIssues fs now config all) fes) ->
    id i <> gitignore_id.
Proof.
  intros engine fs now config all fes i H.
  apply in_flat_map in H. destruct H as [fe [_ H]].
  unfold fileIssues in H. apply in_flat_map in H.
  destruct H as [e [_ H]]. unfold entryIssue in H.
  destruct (matchesSensitivePattern _ _); [|contradiction].
  destruct H as [<-|[]]. cbn. discriminate.
Qed.

Lemma gitignoreCheck_In :
  forall fs projectRoot now i,
    In i (gitignoreCheck fs projectRoot now) ->
    i = gitignoreIssue now
    /\ existsSync fs (path_join projectRoot ".gitignore") = true
    /\ exists content,
         readFileSync fs (path_join projectRoot ".gitignore") = Some content
         /\ JS.includes ".env" content = false.
Proof.
  intros fs projectRoot now i. unfold gitignoreCheck.
  destruct (existsSync _ _); [|contradiction].
  destruct (readFileSync _ _) as [content|]; [|contradiction].
  destruct (negb (_ || _)) eqn:H1; cbn [andb]; [|contradiction].
  destruct (JS.includes ".env" content) eqn:H2; cbn [negb]; [contradiction|].
  intros [<-|[]]. repeat split. exists content.
  split; [reflexivity | exact H2].
Qed.

(** C10: with no file matching any pattern of envFiles, scanSecrets
    returns no issue at all.  In any scan, the missing-gitignore warning
    is among the issues exactly when some environment file was found and
    the project has a readable .gitignore whose text does not contain
    .env; so a project without .gitignore never gets it. *)
Theorem scanSecrets_gitignore_warning :
  forall {engine : RegExpEngine} (fs : FileSystem) (projectRoot : string)
         (now : Z) (config : SecretScannerConfig),
    let found := issues (scanSecrets fs projectRoot now config) in
    let gitignorePath := path_join projectRoot ".gitignore" in
    ((forall p, In p (envFiles config) ->
                glob fs p {| cwd := projectRoot; absolute := true;
                             dot := true; nodir := true; ignore := [] |} = [])
     -> found = [])
    /\ ((exists i, In i found /\ id i = gitignore_id)
        <-> (uniqueFiles fs projectRoot config <> []
             /\ existsSync fs gitignorePath = true
             /\ exists content,
                  readFileSync fs gitignorePath = Some content
                  /\ JS.includes ".env" content = false))
    /\ (existsSync fs gitignorePath = false ->
        forall i, In i found -> id i <> gitignore_id).
Proof.
  intros engine fs projectRoot now config found gitignorePath.
  assert (Hiff : (exists i, In i found /\ id i = gitignore_id)
        <-> (uniqueFiles fs projectRoot config <> []
             /\ existsSync fs gitignorePath = true
             /\ exists content,
                  readFileSync fs gitignorePath = Some content
                  /\ JS.includes ".env" content = false)).
  { subst found. unfold scanSecrets.
    destruct (uniqueFiles fs projectRoot config) as [|f0 fl] eqn:Hu.
    - cbn [issues]. split.
      + intros [i [[] _]].
      + intros [H _]. contradiction H. reflexivity.
    - cbn [issues]. split.
      + intros [i [Hin Hid]]. apply in_app_or in Hin.
        destruct Hin as [Hin|Hin].
        * exfalso. exact (secret_ids _ _ _ _ _ _ Hin Hid).
        * apply gitignoreCheck_In in Hin. destruct Hin as [_ [He Hc]].
          split; [discriminate|]. split; assumption.
      + intros [_ [He [content [Hr Hc]]]].
        exists (gitignoreIssue now). split; [|reflexivity].
        apply in_or_app. right. unfold gitignoreCheck.
        fold gitignorePath. rewrite He, Hr, Hc.
        destruct (JS.includes ".env*.local" content) eqn:H1.
        { apply (includes_app_l ".env" "*.local") in H1.
          rewrite H1 in Hc. discriminate Hc. }
        destruct (JS.includes ".env.local" content) eqn:H2.
        { apply (includes_app_l ".env" ".local") in H2.
          rewrite H2 in Hc. discriminate Hc. }
        left. reflexivity. }
  split; [|split].
  - intro Hnone. subst found. unfold scanSecrets.
    assert (Hu : uniqueFiles fs projectRoot config = []).
    { unfold uniqueFiles.
      replace (flat_map _ (envFiles config)) with (@nil string);
        [reflexivity|].
      symmetry. induction (envFiles config) as [|p r IH]; [reflexivity|].
      cbn. rewrite (Hnone p (or_introl eq_refl)). cbn.
      apply IH. intros q Hq. apply Hnone. right. exact Hq. }
    rewrite Hu. reflexivity.
  - exact Hiff.
  - intros Hno i Hin Hid.
    destruct (proj1 Hiff (ex_intro _ i (conj Hin Hid))) as [_ [He _]].
    rewrite He in Hno. discriminate Hno.
Qed.

(** The same project without environment files. *)
Definition bare_fs : FileSystem := {|
  glob := fun _ _ => [];
  readFileSync := readFileSync demo_fs;
  existsSync := existsSync demo_fs;
  relative := relative demo_fs
|}.

Lemma scanSecrets_gitignore_warning_witness :
  (forall p, In p (envFiles (secretScanner getDefaultConfig)) ->
             glob bare_fs p {| cwd := "/app"; absolute := true;
                               dot := true; nodir := true; ignore := [] |} = [])
  /\ existsSync bare_fs (path_join "/app" ".gitignore") = true
  /\ issues (scanSecrets (engine := MiniRegex.engine) bare_fs "/app" 0%Z
               (secretScanner getDefaultConfig)) = []
  /\ exists i,
       In i (issues (scanSecrets (engine := MiniRegex.engine) demo_fs "/app"
                       0%Z (secretScanner getDefaultConfig)))
       /\ id i = gitignore_id.
Proof.
  assert (Hnone : forall p, In p (envFiles (secretScanner getDefaultConfig)) ->
             glob bare_fs p {| cwd := "/app"; absolute := true;
                               dot := true; nodir := true; ignore := [] |} = [])
    by (intros p _; reflexivity).
  split; [exact Hnone|]. split; [reflexivity|]. split.
  - exact (proj1 (scanSecrets_gitignore_warning (engine := MiniRegex.engine)
                    bare_fs "/app" 0%Z (secretScanner getDefaultConfig)) Hnone).
  - apply (proj2 (proj1 (proj2 (scanSecrets_gitignore_warning
                    (engine := MiniRegex.engine)
                    demo_fs "/app" 0%Z (secretScanner getDefaultConfig))))).
    split; [vm_compute; discriminate|]. split; [reflexivity|].
    exists "node_modules". split; reflexivity.
Defined.

End SecretScannerProofs.

(* ================================================================== *)
(** * Properties of the SQL-injection scanner *)
(* ================================================================== *)

Module SQLInjectionProofs.
Import SQLInjection Facts.

(** ** Issue identity *)

Lemma pattern_ids_distinct : NoDup (map p_id SQL_INJECTION_PATTERNS).
Proof.
  repeat constructor; cbn; intuition discriminate.
Qed.

Lemma lineIssueId_inj :
  forall p p' rel L L',
    In p SQL_INJECTION_PATTERNS -> In p' SQL_INJECTION_PATTERNS ->
    lineIssueId p rel L = lineIssueId p' rel L' ->
    p = p' /\ L = L'.
Proof.
  intros p p' rel L L' Hp Hp' H.
  assert (Hsame : forall q, lineIssueId q rel L = lineIssueId q rel L' -> L = L').
  { intros q Hq. unfold lineIssueId in Hq.
    do 4 apply append_inj_l in Hq.
    apply append_inj_l in Hq. apply of_nat_inj. exact Hq. }
  cbn in Hp, Hp'.
  repeat (destruct Hp as [Hp|Hp]; [subst p|]); try contradiction;
  repeat (destruct Hp' as [Hp'|Hp']; [subst p'|]); try contradiction;
  try (split; [reflexivity | exact (Hsame _ H)]);
  exfalso; cbn in H; discriminate H.
Qed.

Lemma multiIssueId_inj :
  forall p p' rel L L',
    In p SQL_INJECTION_PATTERNS -> In p' SQL_INJECTION_PATTERNS ->
    multiIssueId p rel L = multiIssueId p' rel L' ->
    p = p' /\ L = L'.
Proof.
  intros p p' rel L L' Hp Hp' H.
  assert (Hsame : forall q, multiIssueId q rel L = multiIssueId q rel L'
                            -> L = L').
  { intros q Hq. unfold multiIssueId in Hq.
    do 4 apply append_inj_l in Hq.
    apply append_inj_l in Hq. apply of_nat_inj. exact Hq. }
  cbn in Hp, Hp'.
  repeat (destruct Hp as [Hp|Hp]; [subst p|]); try contradiction;
  repeat (destruct Hp' as [Hp'|Hp']; [subst p'|]); try contradiction;
  try (split; [reflexivity | exact (Hsame _ H)]);
  exfalso; cbn in H; discriminate H.
Qed.

Lemma multi_is_no_line_id :
  forall p p' rel L L',
    In p SQL_INJECTION_PATTERNS -> In p' SQL_INJECTION_PATTERNS ->
    multiIssueId p rel L <> lineIssueId p' rel L'.
Proof.
  intros p p' rel L L' Hp Hp' H. cbn in Hp, Hp'.
  repeat (destruct Hp as [Hp|Hp]; [subst p|]); try contradiction;
  repeat (destruct Hp' as [Hp'|Hp']; [subst p'|]); try contradiction;
  cbn in H; discriminate H.
Qed.

Definition at_line (L : nat) (i : SecurityIssue) : bool :=
  JS.is_number (line i) L.

Section Facts.
Context {engine : RegExpEngine}.
Variable now : Z.
Variable rel : string.

(** The patterns whose expression matches the text of a line, in the
    order of the table. *)
Definition hits (text : string) : list Pattern :=
  filter (fun p => regex_test (mkRegExp (source (regex p)) (flags (regex p)))
                     text)
    SQL_INJECTION_PATTERNS.

(** The issues the per-line pass is about to push for one line. *)
Definition lineCandidates (il : nat * string) : list SecurityIssue :=
  map (fun p => lineIssue now p rel (fst il + 1) (snd il)) (hits (snd il)).

(** [if (issues.some(i => i.id === issueId)) continue; issues.push(...)]. *)
Definition pushUnlessKnown (acc : list SecurityIssue) (i : SecurityIssue)
  : list SecurityIssue :=
  if has_id (id i) acc then acc else (acc ++ [i])%list.

Lemma lineStep_candidates :
  forall acc il,
    lineStep now rel acc il = fold_left pushUnlessKnown (lineCandidates il) acc.
Proof.
  intros acc il. unfold lineStep, lineCandidates, hits.
  rewrite <- fold_left_map, <- fold_left_filter. reflexivity.
Qed.

Lemma perLinePass_candidates :
  forall content,
    perLinePass now rel content
    = fold_left pushUnlessKnown
        (flat_map lineCandidates (JS.indexed (JS.splitLines content))) [].
Proof.
  intro content. unfold perLinePass.
  rewrite <- fold_left_flat_map. apply fold_left_ext_in.
  intros a x _. apply lineStep_candidates.
Qed.

Lemma has_id_false :
  forall x l, has_id x l = false <-> ~ In x (map id l).
Proof.
  intros x l. unfold has_id. split.
  - intros H Hin. apply in_map_iff in Hin. destruct Hin as [i [Hi Hin]].
    assert (existsb (fun i => String.eqb (id i) x) l = true).
    { apply existsb_exists. exists i. split; [exact Hin|].
      apply String.eqb_eq. exact Hi. }
    congruence.
  - intro H. destruct (existsb _ l) eqn:E; [|reflexivity].
    apply existsb_exists in E. destruct E as [i [Hin Hi]].
    apply String.eqb_eq in Hi. exfalso. apply H. apply in_map_iff.
    exists i. split; assumption.
Qed.

Lemma pushUnlessKnown_fresh :
  forall xs acc,
    NoDup (map id xs) ->
    (forall x, In x xs -> ~ In (id x) (map id acc)) ->
    fold_left pushUnlessKnown xs acc = (acc ++ xs)%list.
Proof.
  induction xs as [|x r IH]; intros acc Hnd Hfresh;
    [symmetry; apply app_nil_r|].
  cbn in Hnd. inversion Hnd as [|y l Hnotin Hnd']; subst.
  cbn [fold_left]. unfold pushUnlessKnown at 2.
  rewrite (proj2 (has_id_false (id x) acc))
    by (apply Hfresh; left; reflexivity).
  rewrite IH.
  - rewrite <- app_assoc. reflexivity.
  - exact Hnd'.
  - intros y Hy Hin. rewrite map_app in Hin. apply in_app_or in Hin.
    destruct Hin as [Hin|Hin].
    + apply (Hfresh y); [right; exact Hy | exact Hin].
    + cbn in Hin. destruct Hin as [Heq|[]]. apply Hnotin.
      rewrite Heq. apply in_map. exact Hy.
Qed.

Lemma hits_In : forall text p, In p (hits text) -> In p SQL_INJECTION_PATTERNS.
Proof. intros text p H. apply filter_In in H. apply H. Qed.

Lemma hits_NoDup : forall text, NoDup (hits text).
Proof.
  intro text. apply NoDup_filter.
  apply (NoDup_map_inv p_id). apply pattern_ids_distinct.
Qed.

Lemma candidates_from_In :
  forall lines k i,
    In i (flat_map lineCandidates (JS.indexed_from k lines)) ->
    exists n text p,
      k <= n /\ In p SQL_INJECTION_PATTERNS
      /\ i = lineIssue now p rel (n + 1) text.
Proof.
  induction lines as [|t r IH]; intros k i H; [contradiction|].
  cbn [JS.indexed_from flat_map] in H.
  apply in_app_or in H. destruct H as [H|H].
  - unfold lineCandidates in H. cbn [fst snd] in H.
    apply in_map_iff in H. destruct H as [p [Hi Hp]].
    exists k, t, p. split; [lia|].
    split; [eapply hits_In; eauto | symmetry; exact Hi].
  - apply IH in H. destruct H as [n [text [p [Hk H]]]].
    exists n, text, p. split; [lia | exact H].
Qed.

Lemma lineCandidates_NoDup :
  forall il, NoDup (map id (lineCandidates il)).
Proof.
  intro il. unfold lineCandidates. rewrite map_map. cbn [id lineIssue].
  apply NoDup_map_NoDup_ForallPairs; [|apply hits_NoDup].
  intros p p' Hp Hp' H.
  apply lineIssueId_inj in H; [apply H | |]; eapply hits_In; eauto.
Qed.

Lemma candidates_NoDup :
  forall lines k,
    NoDup (map id (flat_map lineCandidates (JS.indexed_from k lines))).
Proof.
  induction lines as [|t r IH]; intro k; [constructor|].
  cbn [JS.indexed_from flat_map]. rewrite map_app. apply NoDup_app.
  - apply lineCandidates_NoDup.
  - apply IH.
  - intros x Hx Hx'.
    apply in_map_iff in Hx. destruct Hx as [i [Hi Hin]].
    apply in_map_iff in Hx'. destruct Hx' as [i' [Hi' Hin']].
    unfold lineCandidates in Hin. cbn [fst snd] in Hin.
    apply in_map_iff in Hin. destruct Hin as [p [Hp Hhit]].
    apply candidates_from_In in Hin'.
    destruct Hin' as [n [text [p' [Hk [Hp' Heq]]]]].
    subst i i'. cbn [id lineIssue] in Hi, Hi'. rewrite <- Hi' in Hi.
    apply lineIssueId_inj in Hi; [lia | eapply hits_In; eauto | exact Hp'].
Qed.

(** The per-line pass never skips a match: its result is the list of its
    candidates. *)
Lemma perLinePass_spec :
  forall content,
    perLinePass now rel content
    = flat_map lineCandidates (JS.indexed (JS.splitLines content)).
Proof.
  intro content. rewrite perLinePass_candidates.
  rewrite pushUnlessKnown_fresh; [reflexivity | | intros x _ []].
  apply candidates_NoDup.
Qed.

Lemma lineCandidates_at_line :
  forall il L,
    filter (at_line L) (lineCandidates il)
    = if Nat.eqb (fst il + 1) L then lineCandidates il else [].
Proof.
  intros il L. unfold lineCandidates.
  induction (hits (snd il)) as [|p r IH].
  - cbn. destruct (Nat.eqb _ _); reflexivity.
  - cbn [map filter]. rewrite IH. unfold at_line at 1.
    cbn [line lineIssue JS.is_number]. destruct (Nat.eqb _ _); reflexivity.
Qed.

Lemma candidates_at_line :
  forall lines k n text,
    nth_error lines n = Some text ->
    filter (at_line (k + n + 1))
      (flat_map lineCandidates (JS.indexed_from k lines))
    = lineCandidates (k + n, text).
Proof.
  induction lines as [|t r IH]; intros k n text H; [destruct n; discriminate|].
  cbn [JS.indexed_from flat_map]. rewrite filter_app, lineCandidates_at_line.
  cbn [fst]. destruct n as [|n].
  - cbn in H. injection H as ->. rewrite Nat.add_0_r, Nat.eqb_refl.
    assert (Hrest : filter (at_line (k + 1))
                      (flat_map lineCandidates (JS.indexed_from (S k) r)) = []).
    { clear. generalize (S k) (Nat.lt_succ_diag_r k).
      induction r as [|t r IH]; intros j Hj; [reflexivity|].
      cbn [JS.indexed_from flat_map].
      rewrite filter_app, lineCandidates_at_line. cbn [fst].
      destruct (Nat.eqb_spec (j + 1) (k + 1)); [lia|].
      apply IH. lia. }
    rewrite Hrest. apply app_nil_r.
  - cbn in H. destruct (Nat.eqb_spec (k + 1) (k + S n + 1)); [lia|].
    replace (k + S n) with (S k + n) by lia. cbn [app].
    apply IH. exact H.
Qed.


Lemma has_location_app :
  forall L a b,
    has_location rel L (a ++ b)
    = has_location rel L a || has_location rel L b.
Proof. intros L a b. unfold has_location. apply existsb_app. Qed.

Lemma has_location_false :
  forall L l i,
    has_location rel L l = false -> In i l ->
    file i = Some rel -> line i <> Some L.
Proof.
  intros L l i H Hin Hfile Hline. unfold has_location in H.
  assert (Ht : existsb (fun i => JS.is_string (file i) rel
                                 && JS.is_number (line i) L) l = true).
  { apply existsb_exists. exists i. split; [exact Hin|].
    rewrite Hfile, Hline. cbn. rewrite String.eqb_refl, Nat.eqb_refl.
    reflexivity. }
  congruence.
Qed.

(** What the whole-file pass has added to the issues [acc0] it started
    from: issues of whole-file matches, on lines where [acc0] has no
    issue, at most one per line. *)
Definition added (acc0 acc : list SecurityIssue) : Prop :=
  exists extra,
    acc = (acc0 ++ extra)%list
    /\ (forall i, In i extra ->
          exists p L, In p SQL_INJECTION_PATTERNS
                      /\ i = multiIssue now p rel L
                      /\ has_location rel L acc0 = false)
    /\ NoDup (map line extra).

Lemma matchStep_added :
  forall content acc0 p acc index,
    In p SQL_INJECTION_PATTERNS ->
    added acc0 acc -> added acc0 (matchStep now rel content p acc index).
Proof.
  intros content acc0 p acc index Hp [extra [Hacc [Hall Hnd]]].
  unfold matchStep.
  set (L := JS.count_newlines (JS.take index content) + 1).
  destruct (has_id _ acc); cbn [negb andb]; [exists extra; auto|].
  destruct (has_location rel L acc) eqn:Hloc; cbn [negb];
    [exists extra; auto|].
  subst acc. rewrite has_location_app in Hloc.
  apply orb_false_elim in Hloc. destruct Hloc as [Hloc0 Hloc1].
  exists (extra ++ [multiIssue now p rel L])%list. split; [|split].
  - symmetry. apply app_assoc.
  - intros i Hi. apply in_app_or in Hi. destruct Hi as [Hi|[<-|[]]].
    + apply Hall. exact Hi.
    + exists p, L. auto.
  - rewrite map_app. apply NoDup_app; [exact Hnd | repeat constructor; auto |].
    intros x Hx [Hx'|[]]. cbn [line multiIssue] in Hx'. subst x.
    apply in_map_iff in Hx. destruct Hx as [i [Hline Hi]].
    apply (has_location_false L extra i Hloc1 Hi); [|exact Hline].
    destruct (Hall i Hi) as [q [L' [_ [-> _]]]]. reflexivity.
Qed.

Lemma wholeFilePass_added :
  forall content acc0, added acc0 (wholeFilePass now rel content acc0).
Proof.
  intros content acc0. unfold wholeFilePass.
  apply fold_left_invariant.
  - exists []. split; [symmetry; apply app_nil_r|].
    split; [intros i []|constructor].
  - intros acc p Hacc Hp. unfold wholeFileStep.
    apply fold_left_invariant; [exact Hacc|].
    intros a index Ha _. apply matchStep_added; assumption.
Qed.

Lemma at_most_one_at_line :
  forall L l,
    NoDup (map line l) -> List.length (filter (at_line L) l) <= 1.
Proof.
  intros L l. induction l as [|x r IH]; intro Hnd; [cbn; lia|].
  cbn in Hnd. inversion Hnd as [|y l' Hnotin Hnd']; subst.
  cbn [filter]. destruct (at_line L x) eqn:Hx; [|apply IH; exact Hnd'].
  assert (Hrest : filter (at_line L) r = []).
  { destruct (filter (at_line L) r) as [|z zs] eqn:Hf; [reflexivity|].
    exfalso. assert (Hz : In z (filter (at_line L) r))
      by (rewrite Hf; left; reflexivity).
    apply filter_In in Hz. destruct Hz as [Hz Hlz].
    apply Hnotin. unfold at_line, JS.is_number in Hx, Hlz.
    destruct (line x) as [a|]; [|discriminate].
    destruct (line z) as [b|] eqn:Hb; [|discriminate].
    apply Nat.eqb_eq in Hx, Hlz. subst a b.
    rewrite <- Hb. apply in_map. exact Hz. }
  rewrite Hrest. cbn. lia.
Qed.

(** ** What the whole-file pass adds *)

(** The whole-file matches in the order of the pass, each with its
    pattern and the line on which it starts. *)
Definition wholeMatches (content : string) : list (Pattern * nat) :=
  flat_map
    (fun p =>
       map (fun index => (p, JS.count_newlines (JS.take index content) + 1))
         (regex_exec_indices (fullRegex p) content))
    SQL_INJECTION_PATTERNS.

(** Of a list of matches, the first one of each line, the lines of
    [seen] left out. *)
Fixpoint firsts (seen : list nat) (ms : list (Pattern * nat))
  : list (Pattern * nat) :=
  match ms with
  | [] => []
  | m :: r =>
      if existsb (fun s => Nat.eqb s (snd m)) seen then firsts seen r
      else m :: firsts (seen ++ [snd m]) r
  end.

(** The match starts on a line without an issue of the per-line pass. *)
Definition fresh (perLine : list SecurityIssue) (m : Pattern * nat) : bool :=
  negb (has_location rel (snd m) perLine).

Definition multiOf (m : Pattern * nat) : SecurityIssue :=
  multiIssue now (fst m) rel (snd m).

(** The body of the [while] of the whole-file pass, by pattern and line. *)
Definition pushMulti (acc : list SecurityIssue) (m : Pattern * nat)
  : list SecurityIssue :=
  if negb (has_id (multiIssueId (fst m) rel (snd m)) acc)
     && negb (has_location rel (snd m) acc)
  then (acc ++ [multiOf m])%list else acc.

Lemma wholeFilePass_matches :
  forall content acc,
    wholeFilePass now rel content acc
    = fold_left pushMulti (wholeMatches content) acc.
Proof.
  intros content acc. unfold wholeFilePass, wholeMatches.
  rewrite <- fold_left_flat_map. apply fold_left_ext_in.
  intros a p _. unfold wholeFileStep. rewrite <- fold_left_map.
  reflexivity.
Qed.

Lemma wholeMatches_In :
  forall content m, In m (wholeMatches content) ->
    In (fst m) SQL_INJECTION_PATTERNS.
Proof.
  intros content m H. unfold wholeMatches in H. apply in_flat_map in H.
  destruct H as [p [Hp H]]. apply in_map_iff in H.
  destruct H as [index [<- _]]. exact Hp.
Qed.

Lemma has_location_multi :
  forall L kept,
    has_location rel L (map multiOf kept)
    = existsb (fun s => Nat.eqb s L) (map snd kept).
Proof.
  intros L kept. unfold has_location.
  induction kept as [|m r IH]; [reflexivity|].
  cbn [map existsb]. rewrite IH.
  cbn [multiOf multiIssue file line JS.is_string JS.is_number].
  rewrite String.eqb_refl. reflexivity.
Qed.

(** An id of the whole-file pass is known only where its line has an
    issue. *)
Lemma known_id_has_location :
  forall acc0 kept p L,
    (forall i, In i acc0 ->
       exists q n text, In q SQL_INJECTION_PATTERNS
                        /\ i = lineIssue now q rel n text) ->
    (forall m, In m kept -> In (fst m) SQL_INJECTION_PATTERNS) ->
    In p SQL_INJECTION_PATTERNS ->
    has_location rel L (acc0 ++ map multiOf kept) = false ->
    has_id (multiIssueId p rel L) (acc0 ++ map multiOf kept) = false.
Proof.
  intros acc0 kept p L Hacc0 Hkept Hp Hloc.
  apply has_id_false. intro Hin. rewrite map_app in Hin.
  apply in_app_or in Hin. destruct Hin as [Hin|Hin].
  - apply in_map_iff in Hin. destruct Hin as [i [Hid Hi]].
    destruct (Hacc0 i Hi) as [q [n [text [Hq ->]]]].
    cbn [id lineIssue] in Hid. symmetry in Hid.
    exact (multi_is_no_line_id _ _ _ _ _ Hp Hq Hid).
  - rewrite map_map in Hin. apply in_map_iff in Hin.
    destruct Hin as [m [Hid Hm]]. cbn [id multiOf multiIssue] in Hid.
    apply multiIssueId_inj in Hid; [|apply Hkept; exact Hm | exact Hp].
    destruct Hid as [_ HL].
    rewrite has_location_app, has_location_multi in Hloc.
    apply orb_false_elim in Hloc. destruct Hloc as [_ Hloc].
    assert (Ht : existsb (fun s => Nat.eqb s L) (map snd kept) = true).
    { apply existsb_exists. exists (snd m).
      split; [apply in_map; exact Hm|]. rewrite HL. apply Nat.eqb_refl. }
    rewrite Ht in Hloc. discriminate Hloc.
Qed.

Lemma pushMulti_firsts :
  forall acc0 ms kept,
    (forall i, In i acc0 ->
       exists q n text, In q SQL_INJECTION_PATTERNS
                        /\ i = lineIssue now q rel n text) ->
    (forall m, In m kept -> In (fst m) SQL_INJECTION_PATTERNS) ->
    (forall m, In m ms -> In (fst m) SQL_INJECTION_PATTERNS) ->
    fold_left pushMulti ms (acc0 ++ map multiOf kept)%list
    = (acc0
       ++ map multiOf
            (kept ++ firsts (map snd kept) (filter (fresh acc0) ms)))%list.
Proof.
  intros acc0 ms. induction ms as [|m r IH]; intros kept Hacc0 Hkept Hms.
  - cbn. rewrite app_nil_r. reflexivity.
  - assert (Hr : forall m', In m' r -> In (fst m') SQL_INJECTION_PATTERNS)
      by (intros m' Hm'; apply Hms; right; exact Hm').
    cbn [fold_left filter]. unfold pushMulti at 2, fresh at 1.
    rewrite has_location_app, has_location_multi.
    destruct (has_location rel (snd m) acc0) eqn:Hloc0;
      cbn [orb negb andb]; rewrite ?andb_false_r;
      [apply IH; assumption|].
    cbn [firsts].
    destruct (existsb (fun s => Nat.eqb s (snd m)) (map snd kept)) eqn:Hseen;
      cbn [negb andb]; rewrite ?andb_false_r; [apply IH; assumption|].
    rewrite (known_id_has_location acc0 kept (fst m) (snd m) Hacc0 Hkept)
      by (try (apply Hms; left; reflexivity);
          rewrite has_location_app, has_location_multi, Hloc0, Hseen;
          reflexivity).
    cbn [negb andb].
    replace ((acc0 ++ map multiOf kept) ++ [multiOf m])%list
      with (acc0 ++ map multiOf (kept ++ [m]))%list
      by (rewrite map_app, app_assoc; reflexivity).
    rewrite IH; [| exact Hacc0 | | exact Hr].
    + do 2 f_equal. rewrite map_app. cbn [map]. rewrite <- app_assoc.
      reflexivity.
    + intros m' Hm'. apply in_app_or in Hm'.
      destruct Hm' as [Hm'|[<-|[]]];
        [apply Hkept; exact Hm' | apply Hms; left; reflexivity].
Qed.

Lemma firsts_covers :
  forall ms seen m,
    In m ms ->
    existsb (fun s => Nat.eqb s (snd m)) seen = true
    \/ exists m', In m' (firsts seen ms) /\ snd m' = snd m.
Proof.
  induction ms as [|a r IH]; intros seen m Hin; [contradiction|].
  cbn [firsts]. destruct Hin as [->|Hin].
  - destruct (existsb _ seen) eqn:Hs; [left; reflexivity|].
    right. exists m. split; [left; reflexivity | reflexivity].
  - destruct (existsb (fun s => Nat.eqb s (snd a)) seen) eqn:Hs.
    + apply IH. exact Hin.
    + destruct (IH (seen ++ [snd a])%list m Hin) as [H|[m' [Hm' Heq]]].
      * rewrite existsb_app in H. apply orb_true_iff in H.
        destruct H as [H|H]; [left; exact H|].
        cbn [existsb] in H. rewrite orb_false_r in H.
        apply Nat.eqb_eq in H.
        right. exists a. split; [left; reflexivity | exact H].
      * right. exists m'. split; [right; exact Hm' | exact Heq].
Qed.

Lemma has_location_true :
  forall L l,
    has_location rel L l = true ->
    filter (at_line L) l <> [].
Proof.
  intros L l H Hnil. unfold has_location in H.
  apply existsb_exists in H. destruct H as [i [Hi Hloc]].
  apply andb_true_iff in Hloc. destruct Hloc as [_ Hline].
  assert (Hin : In i (filter (at_line L) l))
    by (apply filter_In; split; [exact Hi | exact Hline]).
  rewrite Hnil in Hin. exact Hin.
Qed.

Lemma lineIssues_no_location :
  forall L l,
    (forall i, In i l -> file i = Some rel) ->
    has_location rel L l = false ->
    filter (at_line L) l = [].
Proof.
  intros L l Hfile H. induction l as [|i r IH]; [reflexivity|].
  unfold has_location in H. cbn [existsb] in H.
  apply orb_false_elim in H. destruct H as [Hi Hr].
  cbn [filter]. rewrite (Hfile i (or_introl eq_refl)) in Hi.
  cbn [JS.is_string] in Hi. rewrite String.eqb_refl in Hi.
  cbn [andb] in Hi. unfold at_line. rewrite Hi.
  apply IH; [|exact Hr]. intros j Hj. apply Hfile. right. exact Hj.
Qed.

End Facts.

(** C5, amended: in a file that can be read, the per-line pass yields
    exactly one issue for each pattern that matches the text of a line,
    so a line whose text matches k >= 1 patterns carries exactly those k
    issues in the result.  The whole-file pass adds an issue for a match
    only on a line that carries no issue yet: what it adds never shares a
    line with an issue of the per-line pass, and is exactly one issue for
    each line on which a whole-file match starts and the per-line pass
    found nothing, that of the first such match in the order of the pass.
    So no match goes unreported: the line on which a whole-file match
    starts always carries an issue. *)
Theorem scanFile_one_issue_per_line_match :
  forall {engine : RegExpEngine} (now : Z) (fs : FileSystem)
         (filePath content : string),
    readFileSync fs filePath = Some content ->
    let rel := relative fs filePath in
    let found := scanFileForSQLInjection now fs filePath in
    let perLine := perLinePass now rel content in
    let line_of index := JS.count_newlines (JS.take index content) + 1 in
    exists extra,
      found = (perLine ++ extra)%list
      /\ (forall n text,
            nth_error (JS.splitLines content) n = Some text ->
            let expected :=
              map (fun p => lineIssue now p rel (n + 1) text) (hits text) in
            filter (at_line (n + 1)) perLine = expected
            /\ (hits text <> [] -> filter (at_line (n + 1)) found = expected))
      /\ (forall i, In i extra ->
            exists p L, In p SQL_INJECTION_PATTERNS
                        /\ i = multiIssue now p rel L
                        /\ has_location rel L perLine = false)
      /\ (forall L, List.length (filter (at_line L) extra) <= 1)
      /\ extra
         = map (fun m => multiIssue now (fst m) rel (snd m))
             (firsts []
                (filter (fun m => negb (has_location rel (snd m) perLine))
                   (wholeMatches content)))
      /\ (forall p index,
            In p SQL_INJECTION_PATTERNS ->
            In index (regex_exec_indices (fullRegex p) content) ->
            filter (at_line (line_of index)) found <> []
            /\ (has_location rel (line_of index) perLine = false ->
                exists p',
                  In p' SQL_INJECTION_PATTERNS
                  /\ filter (at_line (line_of index)) found
                     = [multiIssue now p' rel (line_of index)])).
Proof.
  intros engine now fs filePath content Hread rel found perLine line_of.
  subst found. unfold scanFileForSQLInjection. rewrite Hread.
  fold rel. unfold scanContent. fold perLine.
  set (kept := firsts []
                 (filter (fun m => negb (has_location rel (snd m) perLine))
                    (wholeMatches content))).
  assert (HperLine : forall i, In i perLine ->
            exists q n text, In q SQL_INJECTION_PATTERNS
                             /\ i = lineIssue now q rel n text).
  { intros i Hi. subst perLine. rewrite perLinePass_spec in Hi.
    apply candidates_from_In in Hi.
    destruct Hi as [n [text [q [_ [Hq Hi]]]]].
    exists q, (n + 1), text. split; assumption. }
  assert (Hfound : wholeFilePass now rel content perLine
                   = (perLine ++ map (multiOf now rel) kept)%list).
  { rewrite wholeFilePass_matches.
    pose proof (pushMulti_firsts now rel perLine (wholeMatches content) []
                  HperLine (fun m (H : In m []) => match H with end)
                  (wholeMatches_In content)) as H.
    cbn [map app] in H. rewrite app_nil_r in H. exact H. }
  destruct (wholeFilePass_added now rel content perLine)
    as [extra [Hacc [Hall Hnd]]].
  assert (Hextra : extra = map (multiOf now rel) kept).
  { rewrite Hfound in Hacc. apply app_inv_head in Hacc. symmetry. exact Hacc. }
  assert (Hlines : forall n text,
            nth_error (JS.splitLines content) n = Some text ->
            filter (at_line (n + 1)) perLine
            = map (fun p => lineIssue now p rel (n + 1) text) (hits text)).
  { intros n text Hnth. subst perLine. rewrite perLinePass_spec.
    unfold JS.indexed.
    rewrite (candidates_at_line now rel _ 0 n text Hnth). reflexivity. }
  assert (Hone : forall L, List.length (filter (at_line L) extra) <= 1)
    by (intro L; apply at_most_one_at_line; exact Hnd).
  exists extra. split; [exact Hacc|]. split; [|split; [|split; [|split]]].
  - intros n text Hnth.
    set (expected := map (fun p => lineIssue now p rel (n + 1) text)
                       (hits text)).
    pose proof (Hlines n text Hnth) as Hper. fold expected in Hper.
    split; [exact Hper|].
    intro Hhits. rewrite Hacc, filter_app, Hper.
    destruct (filter (at_line (n + 1)) extra) as [|z zs] eqn:Hf;
      [apply app_nil_r|].
    exfalso.
    assert (Hz : In z (filter (at_line (n + 1)) extra))
      by (rewrite Hf; left; reflexivity).
    apply filter_In in Hz. destruct Hz as [Hz Hlz].
    destruct (Hall z Hz) as [p [L [_ [-> Hloc]]]].
    unfold at_line in Hlz. cbn [line multiIssue JS.is_number] in Hlz.
    apply Nat.eqb_eq in Hlz. subst L.
    destruct (hits text) as [|p0 ps] eqn:Hh; [apply Hhits; reflexivity|].
    assert (Hin : In (lineIssue now p0 rel (n + 1) text) perLine).
    { assert (H0 : In (lineIssue now p0 rel (n + 1) text)
                     (filter (at_line (n + 1)) perLine))
        by (rewrite Hper; unfold expected; left; reflexivity).
      apply filter_In in H0. apply H0. }
    apply (has_location_false rel (n + 1) perLine _ Hloc Hin); reflexivity.
  - exact Hall.
  - exact Hone.
  - exact Hextra.
  - intros p index Hp Hindex. set (L := line_of index).
    assert (Hm : In (p, L) (wholeMatches content)).
    { unfold wholeMatches. apply in_flat_map. exists p. split; [exact Hp|].
      apply in_map_iff. exists index. split; [reflexivity | exact Hindex]. }
    assert (Hfresh : has_location rel L perLine = false ->
              exists z, In z (filter (at_line L) extra)).
    { intro Hloc.
      assert (Hin : In (p, L)
                      (filter (fun m => negb (has_location rel (snd m) perLine))
                         (wholeMatches content))).
      { apply filter_In. split; [exact Hm|]. cbn [snd]. rewrite Hloc.
        reflexivity. }
      destruct (firsts_covers _ [] (p, L) Hin) as [H|[m' [Hm' Hsnd]]];
        [discriminate H|].
      exists (multiOf now rel m'). apply filter_In. split.
      - rewrite Hextra. apply in_map. exact Hm'.
      - unfold at_line. cbn [multiOf multiIssue line JS.is_number].
        cbn [snd] in Hsnd. rewrite Hsnd. apply Nat.eqb_refl. }
    split.
    + rewrite Hacc, filter_app.
      destruct (has_location rel L perLine) eqn:Hloc.
      * pose proof (has_location_true rel L perLine Hloc) as Hne.
        destruct (filter (at_line L) perLine); [contradiction | discriminate].
      * destruct (Hfresh eq_refl) as [z Hz].
        destruct (filter (at_line L) extra); [contradiction|].
        intro H. apply app_eq_nil in H. destruct H as [_ H]. discriminate H.
    + intro Hloc. rewrite Hacc, filter_app.
      rewrite (lineIssues_no_location rel L perLine)
        by (try exact Hloc; intros i Hi;
            destruct (HperLine i Hi) as [q [n [text [_ ->]]]]; reflexivity).
      cbn [app]. destruct (Hfresh Hloc) as [z Hz].
      pose proof (Hone L) as Hlen.
      destruct (filter (at_line L) extra) as [|z0 [|z1 zs]] eqn:Hf;
        [contradiction | | cbn in Hlen; lia].
      assert (Hz0 : In z0 (filter (at_line L) extra))
        by (rewrite Hf; left; reflexivity).
      apply filter_In in Hz0. destruct Hz0 as [Hz0 Hat].
      destruct (Hall z0 Hz0) as [p' [L' [Hp' [-> _]]]].
      unfold at_line in Hat. cbn [multiIssue line JS.is_number] in Hat.
      apply Nat.eqb_eq in Hat. subst L'.
      exists p'. split; [exact Hp' | reflexivity].
Qed.


(** A source file with one line that matches two patterns, and one with a
    template literal that spans two lines inside a call of [.or]. *)
Definition one_line : string :=
  "supabase.rpc('f', { q: `%${u}%` }); x.or(`a.eq.${u}`)".

Definition two_lines : string :=
  "db.or(`SELECT" ++ JS.nl ++ "${x}`)".

Definition sources : FileSystem := {|
  glob := fun _ _ => ["/app/src/a.ts"; "/app/src/b.ts"];
  readFileSync := fun p =>
    if String.eqb p "/app/src/a.ts" then Some one_line
    else if String.eqb p "/app/src/b.ts" then Some two_lines
    else None;
  existsSync := fun _ => true;
  relative := JS.drop 5
|}.

Lemma scanFile_one_issue_per_line_match_witness :
  readFileSync sources "/app/src/a.ts" = Some one_line
  /\ map id (filter (at_line 1)
               (scanFileForSQLInjection (engine := MiniRegex.engine) 0%Z
                  sources "/app/src/a.ts"))
     = [ "sqli-rpc-template-literal-src/a.ts-1";
         "sqli-filter-template-literal-src/a.ts-1" ]
  /\ readFileSync sources "/app/src/b.ts" = Some two_lines
  /\ In 2 (regex_exec_indices (RegExpEngine := MiniRegex.engine)
             (fullRegex filter_template_literal) two_lines)
  /\ exists p',
       filter (at_line 1)
         (scanFileForSQLInjection (engine := MiniRegex.engine) 0%Z
            sources "/app/src/b.ts")
       = [multiIssue 0%Z p' "src/b.ts" 1].
Proof.
  split; [reflexivity|].
  destruct (scanFile_one_issue_per_line_match (engine := MiniRegex.engine)
              0%Z sources "/app/src/a.ts" one_line eq_refl)
    as [extra [_ [Hlines _]]].
  destruct (Hlines 0 one_line eq_refl) as [_ Hfound].
  change (0 + 1) with 1 in Hfound.
  split; [rewrite Hfound; [vm_compute; reflexivity | vm_compute; discriminate]|].
  split; [reflexivity|].
  assert (Hindex : In 2 (regex_exec_indices (RegExpEngine := MiniRegex.engine)
                           (fullRegex filter_template_literal) two_lines))
    by (vm_compute; left; reflexivity).
  split; [exact Hindex|].
  destruct (scanFile_one_issue_per_line_match (engine := MiniRegex.engine)
              0%Z sources "/app/src/b.ts" two_lines eq_refl)
    as [extra' [_ [_ [_ [_ [_ Hcover]]]]]].
  assert (Hp : In filter_template_literal SQL_INJECTION_PATTERNS)
    by (do 4 right; left; reflexivity).
  destruct (Hcover filter_template_literal 2 Hp Hindex) as [_ Hone].
  destruct Hone as [p' [_ Hp']]; [vm_compute; reflexivity|].
  exists p'. exact Hp'.
Defined.

(** C5, as stated, fails: in this file two patterns have a whole-file
    match that starts on line 1 (the raw-SQL template literal at offset 6,
    the filter template literal at offset 2) and no pattern matches a line
    on its own; the scan reports the first of the two only. *)
Lemma scanFile_whole_file_counterexample :
  regex_exec_indices (RegExpEngine := MiniRegex.engine)
    (fullRegex raw_sql_template_literal) two_lines = [6]
  /\ regex_exec_indices (RegExpEngine := MiniRegex.engine)
       (fullRegex filter_template_literal) two_lines = [2]
  /\ JS.count_newlines (JS.take 6 two_lines) + 1 = 1
  /\ JS.count_newlines (JS.take 2 two_lines) + 1 = 1
  /\ map id (scanFileForSQLInjection (engine := MiniRegex.engine) 0%Z
               sources "/app/src/b.ts")
     = [ "sqli-multi-raw-sql-template-literal-src/b.ts-1" ].
Proof. repeat split; vm_compute; reflexivity. Qed.

End SQLInjectionProofs.

(* ================================================================== *)
(** * Properties of the RLS scanners *)
(* ================================================================== *)

Module RLSScannerProofs.
Import RLSScanner Facts.

(** ** The map of usages has each table once *)

Lemma map_push_keys :
  forall {A} k (x : A) m,
    NoDup (map fst m) -> NoDup (map fst (JS.map_push k x m)).
Proof.
  intros A k x m. induction m as [|[k' v] r IH]; intro Hnd.
  - cbn. repeat constructor. intros [].
  - cbn [JS.map_push]. destruct (String.eqb k k') eqn:E; [exact Hnd|].
    cbn in Hnd |- *. inversion Hnd as [|y l Hnotin Hnd']; subst.
    constructor; [|apply IH; exact Hnd'].
    intro Hin. apply Hnotin. clear - Hin E.
    induction r as [|[k2 v2] r IHr]; cbn in Hin |- *.
    + destruct Hin as [Hin|[]]. subst k'. rewrite String.eqb_refl in E.
      discriminate E.
    + destruct (String.eqb k k2); cbn in Hin; [exact Hin|].
      destruct Hin as [Hin|Hin]; [left; exact Hin | right; apply IHr; exact Hin].
Qed.

Section Facts.
Context {engine : RegExpEngine}.
Variable fs : FileSystem.
Variable auth : Authority.
Variable projectRoot : string.
Variable now : Z.
Variable config : RLSScannerConfig.

Lemma tableUsages_keys :
  forall files, NoDup (map fst (tableUsages fs files)).
Proof.
  intro files. unfold tableUsages.
  apply fold_left_invariant; [constructor|].
  intros m filePath Hm _. unfold addFile.
  apply fold_left_invariant; [exact Hm|].
  intros m' q Hm' _. apply map_push_keys. exact Hm'.
Qed.

(** The loop body of step 3 on one binding of [tableUsages]. *)
Definition perTable (tu : string * list Usage) : list SecurityIssue :=
  if JS.mem (fst tu) (whitelistedTables config) then []
  else tableIssues auth now config (fst tu) (snd tu).

Lemma checkTables_spec :
  forall entries checked,
    NoDup (map fst entries) ->
    (forall k, In k (map fst entries) -> ~ In k checked) ->
    checkTables auth now config checked entries = flat_map perTable entries.
Proof.
  induction entries as [|[t usages] r IH]; intros checked Hnd Hfresh;
    [reflexivity|].
  cbn in Hnd. inversion Hnd as [|y l Hnotin Hnd']; subst.
  cbn [checkTables flat_map].
  destruct (JS.mem t checked) eqn:Hm.
  - apply mem_In in Hm. exfalso.
    apply (Hfresh t); [left; reflexivity | exact Hm].
  - assert (Hrest : checkTables auth now config (t :: checked) r
                    = flat_map perTable r).
    { apply IH; [exact Hnd'|].
      intros k Hk [Heq|Hin].
      - subst k. apply Hnotin. exact Hk.
      - apply (Hfresh k); [right; exact Hk | exact Hin]. }
    unfold perTable at 1. cbn [fst snd].
    destruct (JS.mem t (whitelistedTables config)); rewrite Hrest; reflexivity.
Qed.

Lemma scanRLS_spec :
  rls_enabled_flag config = true ->
  issues (scanRLS fs auth projectRoot now config)
  = flat_map perTable (tableUsages fs (sourceFiles fs projectRoot config)).
Proof.
  intro Hen. unfold scanRLS. rewrite Hen. cbn [negb].
  destruct (tableUsages fs (sourceFiles fs projectRoot config)) eqn:Hu;
    [reflexivity|].
  cbn [issues]. rewrite <- Hu. apply checkTables_spec.
  - apply tableUsages_keys.
  - intros k _ [].
Qed.

Lemma tableIssues_table :
  forall t usages i,
    In i (tableIssues auth now config t usages) -> table i = Some t.
Proof.
  intros t usages i H. unfold tableIssues in H.
  apply in_app_or in H. destruct H as [H|H].
  - destruct (negb _); [destruct H as [<-|[]]; reflexivity | contradiction].
  - destruct (_ && _); [destruct H as [<-|[]]; reflexivity | contradiction].
Qed.

Lemma scanRLS_In :
  forall i,
    In i (issues (scanRLS fs auth projectRoot now config)) ->
    exists t usages,
      JS.mem t (whitelistedTables config) = false
      /\ In i (tableIssues auth now config t usages).
Proof.
  intros i H. destruct (rls_enabled_flag config) eqn:Hen.
  - rewrite (scanRLS_spec Hen) in H.
    apply in_flat_map in H. destruct H as [[t usages] [_ H]].
    unfold perTable in H. cbn [fst snd] in H.
    destruct (JS.mem t (whitelistedTables config)) eqn:Hw; [contradiction|].
    exists t, usages. split; [exact Hw | exact H].
  - unfold scanRLS in H. rewrite Hen in H. contradiction.
Qed.

End Facts.

(** ** The direct-database variant *)

Lemma direct_rows_issues :
  forall whitelisted rows acc i,
    In i (DirectDb.issues (fold_left (DirectDb.rowStep whitelisted) rows acc)) ->
    In i (DirectDb.issues acc)
    \/ exists row,
         In row rows
         /\ DirectDb.is_whitelisted whitelisted (DirectDb.table_name row) = false
         /\ i = DirectDb.rowIssue row.
Proof.
  intros whitelisted rows. induction rows as [|row r IH]; intros acc i H;
    [left; exact H|].
  cbn [fold_left] in H. apply IH in H. destruct H as [H|[row' [Hr H]]].
  - unfold DirectDb.rowStep in H.
    destruct (DirectDb.is_whitelisted whitelisted (DirectDb.table_name row))
      eqn:Hw; cbn [DirectDb.issues] in H; [left; exact H|].
    apply in_app_or in H. destruct H as [H|[<-|[]]]; [left; exact H|].
    right. exists row. split; [left; reflexivity | split; [exact Hw | reflexivity]].
  - right. exists row'. split; [right; exact Hr | exact H].
Qed.

Lemma rowIssue_table :
  forall row,
    DirectDb.table (DirectDb.rowIssue row) = Some (DirectDb.table_name row).
Proof.
  intro row. unfold DirectDb.rowIssue.
  destruct (negb _); [reflexivity|].
  destruct (DirectDb.policy_count row) as [[|n]|]; reflexivity.
Qed.

(** C7: a table named in whitelistedTables gets no RLS issue, whatever the
    authority answers about it and however many places use it; this holds
    for the scanner over the HTTP authority and for the direct-database
    one. *)
Theorem whitelisted_table_has_no_issue :
  forall {engine : RegExpEngine} (fs : FileSystem) (auth : Authority)
         (projectRoot : string) (now : Z) (config : RLSScannerConfig)
         (db : DirectDb.Database) (databaseUrl : string) (w : string),
    In w (whitelistedTables config) ->
    (forall i, In i (issues (scanRLS fs auth projectRoot now config)) ->
               table i <> Some w)
    /\ (forall i,
          In i (DirectDb.issues
                  (DirectDb.scanRLS db databaseUrl
                     (Some (whitelistedTables config)))) ->
          DirectDb.table i <> Some w).
Proof.
  intros engine fs auth projectRoot now config db databaseUrl w Hw.
  apply mem_In in Hw. split.
  - intros i Hi Ht. apply scanRLS_In in Hi.
    destruct Hi as [t [usages [Hnw Hi]]].
    apply tableIssues_table in Hi. rewrite Hi in Ht.
    injection Ht as ->. rewrite Hw in Hnw. discriminate Hnw.
  - intros i Hi Ht. unfold DirectDb.scanRLS in Hi.
    destruct (negb (JS.truthy databaseUrl)).
    { destruct Hi as [<-|[]]. discriminate Ht. }
    destruct (DirectDb.connect db).
    { destruct Hi as [<-|[]]. discriminate Ht. }
    destruct (DirectDb.query db) as [rows|msg].
    + apply direct_rows_issues in Hi. destruct Hi as [[]|[row [_ [Hnw ->]]]].
      rewrite rowIssue_table in Ht. injection Ht as Ht.
      cbn in Hnw. rewrite Ht, Hw in Hnw. discriminate Hnw.
    + destruct Hi as [<-|[]]. discriminate Ht.
Qed.


(** A project whose sources use two tables, one of them twice. *)
Definition db_ts : string :=
  "const a = await supabase.from('orders').select('*');" ++ JS.nl
  ++ "const b = await supabase.from('users').select('id');" ++ JS.nl
  ++ "await supabase.from('orders').delete();".

Definition two_tables : FileSystem := {|
  glob := fun p _ => if String.eqb p "**/*.ts" then ["/app/src/db.ts"] else [];
  readFileSync := fun p =>
    if String.eqb p "/app/src/db.ts" then Some db_ts else None;
  existsSync := fun p => String.eqb p "/app/src";
  relative := JS.drop 5
|}.

(** An authority nobody can reach, one that finds every table
    unprotected, and a database that refuses connections. *)
Definition offline : Authority := {|
  check_rls_status := fun _ _ _ => NetworkError "fetch failed";
  exec_sql := fun _ _ _ => NetworkError "fetch failed"
|}.

Definition all_disabled : Authority := {|
  check_rls_status := fun _ _ _ =>
    Body (Some {| rls_enabled := Some false; has_auth_policy := Some false |});
  exec_sql := fun _ _ _ => NotOk
|}.

Definition refusing : DirectDb.Database := {|
  DirectDb.connect_ssl := DirectDb.ConnectFails "connect ECONNREFUSED";
  DirectDb.connect_plain := DirectDb.ConnectFails "connect ECONNREFUSED";
  DirectDb.query := DirectDb.QueryRows []
|}.

Definition orders_whitelisted : RLSScannerConfig := {|
  rls_enabled_flag := true;
  scanDirs := ["src"];
  extensions := [".ts"; ".tsx"; ".js"; ".jsx"];
  excludeDirs := ["node_modules"; ".next"; "dist"];
  supabaseUrl := "https://project.supabase.co";
  supabaseServiceRoleKey := "service-role-key";
  whitelistedTables := ["orders"]
|}.

Definition unprotected : DirectDb.Database := {|
  DirectDb.connect_ssl := DirectDb.Connected;
  DirectDb.connect_plain := DirectDb.Connected;
  DirectDb.query := DirectDb.QueryRows
    [ {| DirectDb.table_name := "orders"; DirectDb.rls_enabled := false;
         DirectDb.policy_count := Some 0 |};
      {| DirectDb.table_name := "users"; DirectDb.rls_enabled := false;
         DirectDb.policy_count := Some 0 |} ]
|}.

Lemma whitelisted_table_has_no_issue_witness :
  In "orders" (whitelistedTables orders_whitelisted)
  /\ map table (issues (scanRLS (engine := MiniRegex.engine) two_tables
                          all_disabled "/app" 0%Z orders_whitelisted))
     = [Some "users"]
  /\ (forall i,
        In i (issues (scanRLS (engine := MiniRegex.engine) two_tables
                        all_disabled "/app" 0%Z orders_whitelisted)) ->
        table i <> Some "orders")
  /\ (forall i,
        In i (DirectDb.issues
                (DirectDb.scanRLS unprotected "postgres://db"
                   (Some (whitelistedTables orders_whitelisted)))) ->
        DirectDb.table i <> Some "orders").
Proof.
  assert (Hw : In "orders" (whitelistedTables orders_whitelisted))
    by (left; reflexivity).
  split; [exact Hw|]. split; [vm_compute; reflexivity|].
  exact (whitelisted_table_has_no_issue (engine := MiniRegex.engine)
           two_tables all_disabled "/app" 0%Z orders_whitelisted
           unprotected "postgres://db" "orders" Hw).
Defined.

(** ** The authority cannot be asked *)

Definition unconfigured (config : RLSScannerConfig) : Prop :=
  JS.truthy (supabaseUrl config) = false
  \/ JS.truthy (supabaseServiceRoleKey config) = false.

(** The call for table [t] fails: the request or the reading of its body
    is rejected, or the answer is not ok and the fall-back request fails
    in one of these ways too. *)
Definition unreachable (auth : Authority) (config : RLSScannerConfig)
  (t : string) : Prop :=
  match check_rls_status auth (supabaseUrl config)
          (supabaseServiceRoleKey config) t with
  | NetworkError _ | BadBody _ => True
  | NotOk =>
      match exec_sql auth (supabaseUrl config)
              (supabaseServiceRoleKey config) t with
      | NetworkError _ | BadBody _ | NotOk => True
      | Body _ => False
      end
  | Body _ => False
  end.

Lemma truthy_app : forall a b, JS.truthy a = true -> JS.truthy (a ++ b) = true.
Proof. intros [|c a] b H; [discriminate H | reflexivity]. Qed.

Lemma checkRLSStatus_down :
  forall auth config t,
    unconfigured config \/ unreachable auth config t ->
    exists msg,
      checkRLSStatus auth t (supabaseUrl config) (supabaseServiceRoleKey config)
      = failed msg
      /\ JS.truthy msg = true.
Proof.
  intros auth config t H. unfold checkRLSStatus.
  destruct (JS.truthy (supabaseUrl config)) eqn:Hu; cbn [negb orb];
    [|eexists; split; reflexivity].
  destruct (JS.truthy (supabaseServiceRoleKey config)) eqn:Hk; cbn [negb];
    [|eexists; split; reflexivity].
  destruct H as [[H|H]|H]; try congruence.
  unfold unreachable in H.
  destruct (check_rls_status auth _ _ t); try contradiction;
    try (eexists; split; [reflexivity | reflexivity]).
  unfold checkRLSViaDirectQuery.
  destruct (exec_sql auth _ _ t); try contradiction;
    eexists; split; reflexivity.
Qed.

Lemma tableIssues_down :
  forall auth now config t usages msg,
    checkRLSStatus auth t (supabaseUrl config) (supabaseServiceRoleKey config)
    = failed msg ->
    tableIssues auth now config t usages
    = [rlsDisabledIssue now t usages (failed msg)].
Proof.
  intros auth now config t usages msg H. unfold tableIssues. rewrite H.
  reflexivity.
Qed.

Lemma filter_keys_NoDup :
  forall {A} (f : string * A -> bool) (l : list (string * A)),
    NoDup (map fst l) -> NoDup (map fst (filter f l)).
Proof.
  intros A f l. induction l as [|x r IH]; intro Hnd; [constructor|].
  cbn in Hnd. inversion Hnd as [|y l' Hnotin Hnd']; subst.
  cbn [filter]. destruct (f x); [|apply IH; exact Hnd'].
  cbn [map]. constructor; [|apply IH; exact Hnd'].
  intro Hin. apply Hnotin. apply in_map_iff in Hin.
  destruct Hin as [tu [Heq Hin]]. apply filter_In in Hin.
  rewrite <- Heq. apply in_map. apply Hin.
Qed.

(** C3, as stated, fails: with the default configuration, which has no
    connection data, the scan of a project that uses two tables yields one
    critical rls-missing issue for each of them and no warning; and the
    direct-database scanner reports a refused connection as one critical
    issue. *)
Lemma scanRLS_unconfigured_counterexample :
  unconfigured (rlsScanner getDefaultConfig)
  /\ map (fun i => (id i, category i, severity i))
       (issues (scanRLS (engine := MiniRegex.engine) two_tables offline
                  "/app" 0%Z (rlsScanner getDefaultConfig)))
     = [ ("rls-disabled-orders", rls_missing, critical);
         ("rls-disabled-users", rls_missing, critical) ]
  /\ map DirectDb.severity
       (DirectDb.issues (DirectDb.scanRLS refusing "postgres://db" None))
     = [critical].
Proof. split; [left; reflexivity|]. split; vm_compute; reflexivity. Qed.

(** C3, amended: the RLS scanners turn a missing configuration, a failed
    request, a response that is not ok, a refused connection and a failed
    query into issues instead of raising.  When the HTTP authority is not
    configured or cannot be reached, scanRLS yields, for each referenced
    table that is not whitelisted, exactly one critical rls-missing issue
    whose message carries the failure reason, and no other issue.  The
    direct-database scanner yields exactly one issue and no per-table
    finding: a warning when the database URL is missing, a critical issue
    with the error message when the connection or the query fails. *)
Theorem authority_down_issues :
  forall {engine : RegExpEngine} (fs : FileSystem) (auth : Authority)
         (projectRoot : string) (now : Z) (config : RLSScannerConfig)
         (db : DirectDb.Database) (databaseUrl : string)
         (whitelisted : option (list string)),
    (rls_enabled_flag config = true ->
     (forall t, unconfigured config \/ unreachable auth config t) ->
     let referenced :=
       filter (fun tu => negb (JS.mem (fst tu) (whitelistedTables config)))
         (tableUsages fs (sourceFiles fs projectRoot config)) in
     let status t :=
       checkRLSStatus auth t (supabaseUrl config)
         (supabaseServiceRoleKey config) in
     issues (scanRLS fs auth projectRoot now config)
     = map (fun tu => rlsDisabledIssue now (fst tu) (snd tu) (status (fst tu)))
         referenced
     /\ NoDup (map fst referenced)
     /\ (forall t, exists msg, status t = failed msg /\ JS.truthy msg = true)
     /\ (forall i, In i (issues (scanRLS fs auth projectRoot now config)) ->
                   severity i = critical /\ category i = rls_missing))
    /\ (JS.truthy databaseUrl = false ->
        DirectDb.scanRLS db databaseUrl whitelisted
        = {| DirectDb.issues := [DirectDb.missingUrlIssue];
             DirectDb.filteredTables := [] |}
        /\ DirectDb.severity DirectDb.missingUrlIssue = warning)
    /\ (JS.truthy databaseUrl = true ->
        forall msg,
          DirectDb.connect db = Some msg
          \/ (DirectDb.connect db = None
              /\ DirectDb.query db = DirectDb.QueryFails msg) ->
          DirectDb.scanRLS db databaseUrl whitelisted
          = {| DirectDb.issues := [DirectDb.connectionErrorIssue msg];
               DirectDb.filteredTables := [] |}
          /\ DirectDb.severity (DirectDb.connectionErrorIssue msg) = critical).
Proof.
  intros engine fs auth projectRoot now config db databaseUrl whitelisted.
  split; [|split].
  - intros Hen Hdown referenced status.
    assert (Hissues : issues (scanRLS fs auth projectRoot now config)
              = map (fun tu => rlsDisabledIssue now (fst tu) (snd tu)
                                 (status (fst tu))) referenced).
    { rewrite (scanRLS_spec fs auth projectRoot now config Hen).
      subst referenced.
      induction (tableUsages fs (sourceFiles fs projectRoot config))
        as [|[t usages] r IH]; [reflexivity|].
      cbn [flat_map filter fst snd]. unfold perTable at 1. cbn [fst snd].
      destruct (JS.mem t (whitelistedTables config)); cbn [negb app];
        [exact IH|].
      destruct (checkRLSStatus_down auth config t (Hdown t)) as [msg [Hs _]].
      rewrite (tableIssues_down auth now config t usages msg Hs).
      cbn [map app fst snd]. subst status. cbn beta. rewrite Hs, IH.
      reflexivity. }
    split; [exact Hissues|]. split; [|split].
    + subst referenced. apply filter_keys_NoDup. apply tableUsages_keys.
    + intro t. apply checkRLSStatus_down. apply Hdown.
    + intros i Hi. rewrite Hissues in Hi. apply in_map_iff in Hi.
      destruct Hi as [tu [<- _]]. split; reflexivity.
  - intro Hurl. unfold DirectDb.scanRLS. rewrite Hurl.
    split; reflexivity.
  - intros Hurl msg H. unfold DirectDb.scanRLS. rewrite Hurl. cbn [negb].
    destruct H as [H|[H1 H2]].
    + rewrite H. split; reflexivity.
    + rewrite H1, H2. split; reflexivity.
Qed.

Lemma authority_down_issues_witness :
  rls_enabled_flag (rlsScanner getDefaultConfig) = true
  /\ (forall t, unconfigured (rlsScanner getDefaultConfig)
                \/ unreachable offline (rlsScanner getDefaultConfig) t)
  /\ JS.truthy "" = false
  /\ JS.truthy "postgres://db" = true
  /\ DirectDb.connect refusing = Some "connect ECONNREFUSED"
  /\ (forall i,
        In i (issues (scanRLS (engine := MiniRegex.engine) two_tables offline
                        "/app" 0%Z (rlsScanner getDefaultConfig))) ->
        severity i = critical /\ category i = rls_missing)
  /\ DirectDb.issues (DirectDb.scanRLS refusing "" None)
     = [DirectDb.missingUrlIssue]
  /\ DirectDb.issues (DirectDb.scanRLS refusing "postgres://db" None)
     = [DirectDb.connectionErrorIssue "connect ECONNREFUSED"].
Proof.
  assert (Hdown : forall t, unconfigured (rlsScanner getDefaultConfig)
                \/ unreachable offline (rlsScanner getDefaultConfig) t)
    by (intro t; left; left; reflexivity).
  pose proof (authority_down_issues (engine := MiniRegex.engine) two_tables
                offline "/app" 0%Z (rlsScanner getDefaultConfig) refusing ""
                None) as [Hhttp [Hmissing _]].
  pose proof (authority_down_issues (engine := MiniRegex.engine) two_tables
                offline "/app" 0%Z (rlsScanner getDefaultConfig) refusing
                "postgres://db" None) as [_ [_ Hfails]].
  split; [reflexivity|]. split; [exact Hdown|].
  split; [reflexivity|]. split; [reflexivity|]. split; [reflexivity|].
  split; [|split].
  - apply (Hhttp eq_refl Hdown).
  - rewrite (proj1 (Hmissing eq_refl)). reflexivity.
  - rewrite (proj1 (Hfails eq_refl "connect ECONNREFUSED"
                      (or_introl eq_refl))). reflexivity.
Defined.

End RLSScannerProofs.

(* ================================================================== *)
(** * Properties of the watch scheduler *)
(* ================================================================== *)

Module WatchdogProofs.
Import Watchdog.

Lemma last_cons :
  forall {A} (l : list A) (x a : A), last (x :: l) a = last l x.
Proof.
  intros A l. induction l as [|y r IH]; intros x a; [reflexivity|].
  change (last (x :: y :: r) a) with (last (y :: r) a).
  rewrite (IH y a), (IH y x). reflexivity.
Qed.

Section Facts.
Variable config : VibeSecurityConfig.
Variable loadConfig : nat -> VibeSecurityConfig.
Variable relative : string -> string.

Let d := debounceMs (watcher config).

(** After an event at time [t]: one timer is armed, due at [t + d], and
    it is the one [debounceTimer] holds; [seen] are the rescans so far. *)
Definition pending (seen : list (nat * Event)) (t : nat) (st : State) : Prop :=
  exists h,
    timers st = [{| handle := h; due := t + d |}]
    /\ debounceTimer st = Some h
    /\ clock st = t
    /\ rescans st = seen.

Lemma rescans_log_change :
  forall p st, rescans (log (EvChangeDetected p) st) = rescans st.
Proof.
  intros p st. unfold rescans, log. cbn [trace].
  rewrite filter_app. cbn. apply app_nil_r.
Qed.

Lemma scheduleRescan_idle :
  forall seen p st,
    timers st = [] -> rescans st = seen ->
    pending seen (clock st) (scheduleRescan config relative p st).
Proof.
  intros seen p st Ht Hr. exists (next_handle st).
  unfold scheduleRescan. fold d.
  destruct (debounceTimer st) as [h|]; cbn; rewrite ?Ht; cbn;
    repeat split; rewrite <- Hr; unfold rescans; cbn;
    rewrite filter_app; cbn; apply app_nil_r.
Qed.

Lemma on_event_pending :
  forall seen t st t' p,
    pending seen t st -> t <= t' -> t' < t + d ->
    pending seen t' (on_event config loadConfig relative st (t', p)).
Proof.
  intros seen t st t' p [h [Ht [Hd [Hc Hr]]]] Hle Hlt.
  unfold on_event, advance. cbn [fst snd]. rewrite Ht.
  cbn [List.length run_timers]. rewrite Ht. cbn [earliest due].
  destruct (Nat.leb_spec (t + d) t'); [lia|].
  exists (next_handle st).
  unfold scheduleRescan. fold d. cbn [debounceTimer set_clock].
  rewrite Hd, Hc. cbn. rewrite Ht. cbn. rewrite Nat.eqb_refl. cbn.
  replace (Nat.max t t') with t' by lia.
  repeat split. rewrite <- Hr. unfold rescans. cbn.
  rewrite filter_app. cbn. apply app_nil_r.
Qed.

Lemma burst_pending :
  forall seen evs t st,
    pending seen t st ->
    burst d t (map fst evs) ->
    pending seen (last (map fst evs) t)
      (fold_left (on_event config loadConfig relative) evs st).
Proof.
  intros seen evs. induction evs as [|[t' p] r IH]; intros t st Hp Hb;
    [exact Hp|].
  cbn [map fst burst] in Hb. destruct Hb as [Hle [Hlt Hb]].
  cbn [fold_left].
  replace (last (map fst ((t', p) :: r)) t) with (last (map fst r) t').
  - apply IH; [|exact Hb]. eapply on_event_pending; eauto.
  - cbn [map fst]. symmetry. apply last_cons.
Qed.

Lemma advance_fires :
  forall seen t st horizon,
    pending seen t st -> t + d <= horizon ->
    rescans (advance loadConfig horizon st)
    = (seen ++ [ (t + d, EvLoadConfig);
                 (t + d, EvRunFullScan (loadConfig (t + d))) ])%list
    /\ timers (advance loadConfig horizon st) = [].
Proof.
  intros seen t st horizon [h [Ht [Hd [Hc Hr]]]] Hle.
  unfold advance. rewrite Ht. cbn [List.length run_timers]. rewrite Ht.
  cbn [earliest due handle].
  destruct (Nat.leb_spec (t + d) horizon); [|lia].
  unfold callback, rescans, log, clearTimeout, set_clock. cbn.
  rewrite Ht, Hc. cbn. rewrite Nat.eqb_refl. cbn.
  replace (Nat.max t (t + d)) with (t + d) by lia.
  split; [|reflexivity].
  rewrite !filter_app. cbn.
  unfold rescans in Hr. rewrite Hr, <- app_assoc. reflexivity.
Qed.

Lemma advance_waits :
  forall seen t st horizon,
    pending seen t st -> horizon < t + d ->
    rescans (advance loadConfig horizon st) = seen.
Proof.
  intros seen t st horizon [h [Ht [Hd [Hc Hr]]]] Hlt.
  unfold advance. rewrite Ht. cbn [List.length run_timers]. rewrite Ht.
  cbn [earliest due handle].
  destruct (Nat.leb_spec (t + d) horizon); [lia|].
  exact Hr.
Qed.

End Facts.

(** C6: a burst of file events, each less than debounceMs after the one
    before, leads to exactly one firing of the timer, debounceMs after the
    last event of the burst; the firing loads the configuration and then
    calls runFullScan with it.  Before that time nothing fires. *)
Theorem burst_triggers_one_rescan :
  forall (config : VibeSecurityConfig)
         (loadConfig : nat -> VibeSecurityConfig)
         (relative : string -> string)
         (st : State) (t1 : nat) (p1 : string)
         (evs : list (nat * string)) (horizon : nat),
    timers st = [] ->
    clock st <= t1 ->
    burst (debounceMs (watcher config)) t1 (map fst evs) ->
    let fireAt := last (map fst evs) t1 + debounceMs (watcher config) in
    let final := run config loadConfig relative ((t1, p1) :: evs) horizon st in
    (fireAt <= horizon ->
     rescans final
     = (rescans st ++ [ (fireAt, EvLoadConfig);
                        (fireAt, EvRunFullScan (loadConfig fireAt)) ])%list)
    /\ (horizon < fireAt -> rescans final = rescans st).
Proof.
  intros config loadConfig relative st t1 p1 evs horizon Ht Hc Hb fireAt final.
  assert (Hp : pending config (rescans st)
                 (last (map fst evs) t1)
                 (fold_left (on_event config loadConfig relative)
                    ((t1, p1) :: evs) st)).
  { cbn [fold_left]. apply burst_pending; [|exact Hb].
    unfold on_event. cbn [fst snd].
    assert (Hadv : advance loadConfig t1 st = set_clock t1 st).
    { unfold advance. rewrite Ht. cbn. f_equal. lia. }
    rewrite Hadv.
    apply (scheduleRescan_idle config relative (rescans st) p1
             (set_clock t1 st)); [exact Ht | reflexivity]. }
  split; intro H.
  - apply (advance_fires config loadConfig _ _ _ horizon Hp H).
  - apply (advance_waits config loadConfig _ _ _ horizon Hp H).
Qed.

(** Three saves within a second, with the default delay of 500 ms. *)
Lemma burst_triggers_one_rescan_witness :
  timers initial = []
  /\ clock initial <= 1000
  /\ burst (debounceMs (watcher getDefaultConfig)) 1000 [1200; 1650]
  /\ rescans (run getDefaultConfig (fun _ => getDefaultConfig) (fun p => p)
                [(1000, "src/a.ts"); (1200, "src/a.ts"); (1650, ".env")]
                5000 initial)
     = [ (2150, EvLoadConfig); (2150, EvRunFullScan getDefaultConfig) ]
  /\ rescans (run getDefaultConfig (fun _ => getDefaultConfig) (fun p => p)
                [(1000, "src/a.ts"); (1200, "src/a.ts"); (1650, ".env")]
                2149 initial)
     = [].
Proof.
  assert (Hb : burst (debounceMs (watcher getDefaultConfig)) 1000
                 (map fst [(1200, "src/a.ts"); (1650, ".env")]))
    by (cbn; lia).
  assert (Hc : clock initial <= 1000) by (cbn; lia).
  split; [reflexivity|]. split; [exact Hc|]. split; [exact Hb|]. split.
  - apply (proj1 (burst_triggers_one_rescan getDefaultConfig
                    (fun _ => getDefaultConfig) (fun p => p) initial 1000
                    "src/a.ts" [(1200, "src/a.ts"); (1650, ".env")] 5000
                    eq_refl Hc Hb)).
    cbn; lia.
  - apply (proj2 (burst_triggers_one_rescan getDefaultConfig
                    (fun _ => getDefaultConfig) (fun p => p) initial 1000
                    "src/a.ts" [(1200, "src/a.ts"); (1650, ".env")] 2149
                    eq_refl Hc Hb)).
    cbn; lia.
Defined.

End WatchdogProofs.

(* ================================================================== *)
(** * Properties of the command line *)
(* ================================================================== *)

Module CLIProofs.
Import CLI.

Lemma criticalCount_zero :
  forall l,
    criticalCount l = 0 <-> (forall i, In i l -> severity i <> critical).
Proof.
  intro l. unfold criticalCount. induction l as [|x r IH].
  - cbn. split; [intros _ i [] | reflexivity].
  - cbn [filter]. destruct (severity x) eqn:Hx; cbn [Severity_eqb].
    + cbn [List.length]. split; [discriminate|].
      intro H. exfalso. apply (H x); [left; reflexivity | exact Hx].
    + rewrite IH. split.
      * intros H i [<-|Hi]; [congruence | apply H; exact Hi].
      * intros H i Hi. apply H. right. exact Hi.
    + rewrite IH. split.
      * intros H i [<-|Hi]; [congruence | apply H; exact Hi].
      * intros H i Hi. apply H. right. exact Hi.
Qed.

Lemma report_exit :
  forall l,
    (report l = Returns /\ criticalCount l = 0)
    \/ (report l = Exit 1 /\ criticalCount l <> 0).
Proof.
  intro l. unfold report. destruct l as [|x r]; [left; split; reflexivity|].
  destruct (Nat.ltb_spec 0 (criticalCount (x :: r))).
  - right. split; [reflexivity | lia].
  - left. split; [reflexivity | lia].
Qed.

(** C8: when the command line runs one scan to its end, the process ends
    with code 0 exactly when no issue of the scan is critical, and with a
    code other than 0 exactly when some issue is. *)
Theorem exit_code_reflects_critical :
  forall {engine : RegExpEngine} (fs : FileSystem) (projectRoot : string)
         (walkDir : string -> list string -> list string -> list string)
         (config : VibeSecurityConfig) (l : list Issue),
    enabled config = true ->
    collect fs projectRoot walkDir config = Some l ->
    found (runScan fs projectRoot walkDir (Some config)) = Some l
    /\ (exit_code fs projectRoot walkDir (Some config) = 0
        <-> forall i, In i l -> severity i <> critical)
    /\ (exit_code fs projectRoot walkDir (Some config) <> 0
        <-> exists i, In i l /\ severity i = critical).
Proof.
  intros engine fs projectRoot walkDir config l Hen Hl.
  unfold exit_code, runScan. rewrite Hen, Hl. cbn [negb termination found].
  split; [reflexivity|].
  assert (Hzero : match report l with
                  | Exit code => code
                  | Returns => 0
                  | Uncaught => 1
                  end = 0
                  <-> forall i, In i l -> severity i <> critical).
  { rewrite <- criticalCount_zero.
    destruct (report_exit l) as [[-> Hc]|[-> Hc]].
    - split; auto.
    - split; [discriminate | intro H; contradiction]. }
  split; [exact Hzero|].
  rewrite Hzero. split.
  - intro H. destruct (existsb (fun i => Severity_eqb (severity i) critical) l)
      eqn:E.
    + apply existsb_exists in E. destruct E as [i [Hi Hs]].
      exists i. split; [exact Hi|]. destruct (severity i); try discriminate Hs.
      reflexivity.
    + exfalso. apply H. intros i Hi Hs.
      assert (Ht : existsb (fun i => Severity_eqb (severity i) critical) l
                   = true).
      { apply existsb_exists. exists i. split; [exact Hi|].
        rewrite Hs. reflexivity. }
      congruence.
  - intros [i [Hi Hs]] H. exact (H i Hi Hs).
Qed.

(** A project with an exposed database URL, and the same project with the
    variable renamed. *)
Definition project (env : string) : FileSystem := {|
  glob := fun _ _ => [];
  readFileSync := fun p =>
    if String.eqb p "/app/.env.local" then Some env
    else if String.eqb p "/app/.gitignore" then Some ".env*"
    else if String.eqb p "/app/src/page.ts"
         then Some "export const revalidate = 60;"
    else None;
  existsSync := fun p =>
    String.eqb p "/app/.env.local" || String.eqb p "/app/.gitignore"
    || String.eqb p "/app/src";
  relative := JS.drop 5
|}.

Definition walk : string -> list string -> list string -> list string :=
  fun _ _ _ => ["/app/src/page.ts"].

Definition exposed : string := "NEXT_PUBLIC_DATABASE_URL=postgres://db".
Definition hidden : string := "DATABASE_URL=postgres://db".

Lemma exit_code_reflects_critical_witness :
  enabled getDefaultConfig = true
  /\ exit_code (engine := MiniRegex.engine) (project exposed) "/app" walk
       (Some getDefaultConfig) = 1
  /\ exit_code (engine := MiniRegex.engine) (project hidden) "/app" walk
       (Some getDefaultConfig) = 0
  /\ exists l,
       collect (engine := MiniRegex.engine) (project exposed) "/app" walk
         getDefaultConfig = Some l
       /\ (exit_code (engine := MiniRegex.engine) (project exposed) "/app" walk
             (Some getDefaultConfig) <> 0
           <-> exists i, In i l /\ severity i = critical).
Proof.
  split; [reflexivity|]. split; [vm_compute; reflexivity|].
  split; [vm_compute; reflexivity|].
  destruct (collect (engine := MiniRegex.engine) (project exposed) "/app" walk
              getDefaultConfig) as [l|] eqn:Hl; [|vm_compute in Hl; discriminate Hl].
  exists l. split; [reflexivity|].
  apply (exit_code_reflects_critical (engine := MiniRegex.engine)
           (project exposed) "/app" walk getDefaultConfig l eq_refl Hl).
Defined.

End CLIProofs.

(* ================================================================== *)
(** * Properties of a pass over a project *)
(* ================================================================== *)

Module PipelineProofs.
Import Facts.

(** The same issue, found at another instant. *)
Definition retime (t : Z) (i : SecurityIssue) : SecurityIssue :=
  {| id := id i; category := category i; severity := severity i;
     title := title i; message := message i; file := file i;
     line := line i; key := key i; table := table i; timestamp := t |}.

Lemma retime_ids : forall t l, map id (map (retime t) l) = map id l.
Proof. intros t l. rewrite map_map. reflexivity. Qed.

Lemma flat_map_retime :
  forall {A} t (f g : A -> list SecurityIssue) l,
    (forall x, In x l -> f x = map (retime t) (g x)) ->
    flat_map f l = map (retime t) (flat_map g l).
Proof.
  intros A t f g l. induction l as [|x r IH]; intro H; [reflexivity|].
  cbn. rewrite map_app, H by (left; reflexivity). f_equal.
  apply IH. intros y Hy. apply H. right. exact Hy.
Qed.

Lemma fold_left_retime :
  forall {A} t (f g : list SecurityIssue -> A -> list SecurityIssue) l acc,
    (forall a x, In x l -> f (map (retime t) a) x = map (retime t) (g a x)) ->
    fold_left f l (map (retime t) acc) = map (retime t) (fold_left g l acc).
Proof.
  intros A t f g l. induction l as [|x r IH]; intros acc H; [reflexivity|].
  cbn. rewrite H by (left; reflexivity). apply IH.
  intros a y Hy. apply H. right. exact Hy.
Qed.

Lemma has_id_retime :
  forall t x l, SQLInjection.has_id x (map (retime t) l) = SQLInjection.has_id x l.
Proof.
  intros t x l. unfold SQLInjection.has_id.
  induction l as [|i r IH]; [reflexivity|]. cbn. rewrite IH. reflexivity.
Qed.

Lemma has_location_retime :
  forall t rel L l,
    SQLInjection.has_location rel L (map (retime t) l)
    = SQLInjection.has_location rel L l.
Proof.
  intros t rel L l. unfold SQLInjection.has_location.
  induction l as [|i r IH]; [reflexivity|]. cbn. rewrite IH. reflexivity.
Qed.

Section World.
Context {engine : RegExpEngine}.
Variable fs : FileSystem.
Variable auth : RLSScanner.Authority.
Variable projectRoot : string.
Variable now : Z.

Lemma scanSecrets_retime :
  forall config,
    issues (SecretScanner.scanSecrets fs projectRoot now config)
    = map (retime now)
        (issues (SecretScanner.scanSecrets fs projectRoot 0%Z config)).
Proof.
  intro config. unfold SecretScanner.scanSecrets.
  destruct (SecretScanner.uniqueFiles fs projectRoot config); [reflexivity|].
  cbn [issues]. rewrite map_app. f_equal.
  - apply flat_map_retime. intros fe _. unfold SecretScanner.fileIssues.
    apply flat_map_retime. intros e _. unfold SecretScanner.entryIssue.
    destruct (SecretScanner.matchesSensitivePattern _ _); reflexivity.
  - unfold SecretScanner.gitignoreCheck.
    destruct (existsSync fs _); [|reflexivity].
    destruct (readFileSync fs _); [|reflexivity].
    destruct (negb _ && negb _); reflexivity.
Qed.

Lemma checkTables_retime :
  forall config entries checked,
    RLSScanner.checkTables auth now config checked entries
    = map (retime now) (RLSScanner.checkTables auth 0%Z config checked entries).
Proof.
  intros config entries.
  induction entries as [|[t usages] r IH]; intro checked; [reflexivity|].
  cbn [RLSScanner.checkTables].
  destruct (JS.mem t checked); [apply IH|].
  destruct (JS.mem t (whitelistedTables config)); [apply IH|].
  rewrite map_app, IH. f_equal.
  unfold RLSScanner.tableIssues. rewrite map_app.
  destruct (negb _); destruct (_ && _); reflexivity.
Qed.

Lemma scanRLS_retime :
  forall config,
    issues (RLSScanner.scanRLS fs auth projectRoot now config)
    = map (retime now)
        (issues (RLSScanner.scanRLS fs auth projectRoot 0%Z config)).
Proof.
  intro config. unfold RLSScanner.scanRLS.
  destruct (negb _); [reflexivity|].
  destruct (RLSScanner.tableUsages fs _); [reflexivity|].
  cbn [issues]. apply checkTables_retime.
Qed.

Lemma scanContent_retime :
  forall rel content,
    SQLInjection.scanContent now rel content
    = map (retime now) (SQLInjection.scanContent 0%Z rel content).
Proof.
  intros rel content. unfold SQLInjection.scanContent.
  assert (Hper : SQLInjection.perLinePass now rel content
                 = map (retime now) (SQLInjection.perLinePass 0%Z rel content)).
  { unfold SQLInjection.perLinePass.
    change (@nil SecurityIssue) with (map (retime now) []) at 1.
    apply fold_left_retime. intros a il _. unfold SQLInjection.lineStep.
    apply fold_left_retime. intros b p _.
    unfold SQLInjection.linePatternStep.
    destruct (regex_test _ _); [|reflexivity].
    rewrite has_id_retime. destruct (SQLInjection.has_id _ b); [reflexivity|].
    rewrite map_app. reflexivity. }
  rewrite Hper. unfold SQLInjection.wholeFilePass.
  apply fold_left_retime. intros a p _. unfold SQLInjection.wholeFileStep.
  apply fold_left_retime. intros b index _. unfold SQLInjection.matchStep.
  rewrite has_id_retime, has_location_retime.
  destruct (negb _ && negb _); [|reflexivity].
  rewrite map_app. reflexivity.
Qed.

Lemma scanSQLInjection_retime :
  forall dirs exts excl,
    issues (SQLInjection.scanSQLInjection now fs projectRoot dirs exts excl)
    = map (retime now)
        (issues (SQLInjection.scanSQLInjection 0%Z fs projectRoot dirs exts excl)).
Proof.
  intros dirs exts excl. unfold SQLInjection.scanSQLInjection. cbn [issues].
  apply flat_map_retime. intros dir _.
  destruct (existsSync fs _); [|reflexivity].
  apply flat_map_retime. intros ext _.
  apply flat_map_retime. intros filePath _.
  unfold SQLInjection.scanFileForSQLInjection.
  destruct (readFileSync fs filePath); [apply scanContent_retime|reflexivity].
Qed.

Lemma scanAPIKeys_retime :
  forall custom dirs exts excl,
    issues (APIKeyGuardian.scanAPIKeys fs projectRoot now custom dirs exts excl)
    = map (retime now)
        (issues (APIKeyGuardian.scanAPIKeys fs projectRoot 0%Z custom
                   dirs exts excl)).
Proof.
  intros custom dirs exts excl. unfold APIKeyGuardian.scanAPIKeys.
  cbn [issues]. rewrite map_app. f_equal.
  - unfold APIKeyGuardian.checkEnvForAPIKeys.
    apply flat_map_retime. intros envFile _.
    destruct (existsSync fs _); [|reflexivity].
    destruct (readFileSync fs _); [|reflexivity].
    apply flat_map_retime. intros il _.
    unfold APIKeyGuardian.envLineIssues.
    destruct (negb _ || _); [reflexivity|].
    destruct (negb _); [reflexivity|].
    apply flat_map_retime. intros rule _.
    apply flat_map_retime. intros keyPattern _.
    destruct (regex_test _ _); reflexivity.
  - unfold APIKeyGuardian.checkCodeForAPIKeys.
    change (@nil SecurityIssue) with (map (retime now) []) at 1.
    apply fold_left_retime. intros a dir _.
    destruct (existsSync fs _); [|reflexivity].
    apply fold_left_retime. intros b ext _.
    apply fold_left_retime. intros c filePath _.
    unfold APIKeyGuardian.codeFileStep.
    destruct (readFileSync fs filePath); [|reflexivity].
    apply fold_left_retime. intros d rule _.
    unfold APIKeyGuardian.codeRuleStep.
    destruct (negb _); [reflexivity|].
    apply fold_left_retime. intros e codePattern _.
    apply fold_left_retime. intros f il _.
    unfold APIKeyGuardian.codeLineStep.
    destruct (regex_test _ _); [|reflexivity].
    cbn [id APIKeyGuardian.codeIssue]. rewrite has_id_retime.
    destruct (SQLInjection.has_id _ f); [reflexivity|].
    rewrite map_app. reflexivity.
Qed.


(** The issues of a scanner of the pass, at the instant [now]. *)
Definition found (config : VibeSecurityConfig) (s : Orchestrator.Stage)
  : list SecurityIssue :=
  match Pipeline.scanners fs auth projectRoot config now s with
  | Orchestrator.Fulfilled l => l
  | Orchestrator.Rejected _ => []
  end.

Lemma found_retime :
  forall config s,
    found config s
    = map (retime now)
        (match Pipeline.scanners fs auth projectRoot config 0%Z s with
         | Orchestrator.Fulfilled l => l
         | Orchestrator.Rejected _ => []
         end).
Proof.
  intros config s. unfold found, Pipeline.scanners.
  destruct s.
  - apply scanSecrets_retime.
  - apply scanRLS_retime.
  - apply scanSQLInjection_retime.
  - apply scanAPIKeys_retime.
Qed.

Lemma gather_found :
  forall config l acc,
    OrchestratorProofs.gather
      (Pipeline.scanners fs auth projectRoot config now) l acc
    = ((acc ++ flat_map (found config) l)%list, None).
Proof.
  intros config l. induction l as [|s r IH]; intro acc.
  - cbn. rewrite app_nil_r. reflexivity.
  - cbn [OrchestratorProofs.gather flat_map].
    unfold found at 1.
    destruct (Pipeline.scanners fs auth projectRoot config now s) eqn:E.
    + rewrite IH, <- app_assoc. reflexivity.
    + unfold Pipeline.scanners in E. discriminate E.
Qed.

(** A pass over the project that starts while none is in flight returns
    the issues of its scanners, and releases the flag; it stores them
    when the statements after the last scanner complete. *)
Lemma runFullScan_pass :
  forall config sinks st,
    Orchestrator.isScanning st = false ->
    let out := Pipeline.runFullScan fs auth projectRoot config now sinks st in
    let all := flat_map (found config) (OrchestratorProofs.stages config) in
    snd out = Orchestrator.Returned all
    /\ Orchestrator.isScanning (fst out) = false
    /\ ((forall k, In k (OrchestratorProofs.tail config) ->
                   sinks k = Orchestrator.Completes) ->
        Orchestrator.latestIssues (fst out) = all).
Proof.
  intros config sinks st Hidle. unfold Pipeline.runFullScan. cbv zeta.
  rewrite (OrchestratorProofs.runFullScan_idle config
             (Pipeline.scanners fs auth projectRoot config now) sinks st Hidle).
  unfold OrchestratorProofs.pass_fault.
  rewrite gather_found.
  cbn [fst snd app Orchestrator.latestIssues Orchestrator.isScanning].
  split; [reflexivity|]. split; [reflexivity|].
  intro Hsinks. apply OrchestratorProofs.first_throw_none in Hsinks.
  rewrite Hsinks. reflexivity.
Qed.

End World.

Lemma pass_ids :
  forall {engine : RegExpEngine} fs auth projectRoot config t1 t2,
    map id (flat_map (found fs auth projectRoot t1 config)
              (OrchestratorProofs.stages config))
    = map id (flat_map (found fs auth projectRoot t2 config)
                (OrchestratorProofs.stages config)).
Proof.
  intros engine fs auth projectRoot config t1 t2.
  rewrite (flat_map_retime t1 (found fs auth projectRoot t1 config)
             (found fs auth projectRoot 0%Z config))
    by (intros s _; rewrite found_retime; reflexivity).
  rewrite (flat_map_retime t2 (found fs auth projectRoot t2 config)
             (found fs auth projectRoot 0%Z config))
    by (intros s _; rewrite found_retime; reflexivity).
  rewrite !retime_ids. reflexivity.
Qed.

(** C9: over a file tree, a configuration and an authority that do not
    change, two passes of runFullScan, one after the other at any two
    instants, return lists with the same sorted issue ids, however the
    statements after the last scanner end in either pass; and each pass
    in which these statements complete leaves its list in latestIssues. *)
Theorem two_passes_same_ids :
  forall {engine : RegExpEngine} (fs : FileSystem)
         (auth : RLSScanner.Authority) (projectRoot : string)
         (config : VibeSecurityConfig) (t1 t2 : Z)
         (sinks1 sinks2 : Orchestrator.Sinks) (st : Orchestrator.State),
    Orchestrator.isScanning st = false ->
    let out1 := Pipeline.runFullScan fs auth projectRoot config t1 sinks1 st in
    let out2 := Pipeline.runFullScan fs auth projectRoot config t2 sinks2
                  (fst out1) in
    exists l1 l2,
      snd out1 = Orchestrator.Returned l1
      /\ snd out2 = Orchestrator.Returned l2
      /\ ((forall k, In k (OrchestratorProofs.tail config) ->
                     sinks1 k = Orchestrator.Completes) ->
          Orchestrator.latestIssues (fst out1) = l1)
      /\ ((forall k, In k (OrchestratorProofs.tail config) ->
                     sinks2 k = Orchestrator.Completes) ->
          Orchestrator.latestIssues (fst out2) = l2)
      /\ OrchestratorProofs.sorted_ids l1 = OrchestratorProofs.sorted_ids l2.
Proof.
  intros engine fs auth projectRoot config t1 t2 sinks1 sinks2 st Hidle
    out1 out2.
  destruct (runFullScan_pass fs auth projectRoot t1 config sinks1 st Hidle)
    as [Hr1 [Hidle1 Hl1]].
  fold out1 in Hr1, Hidle1, Hl1.
  destruct (runFullScan_pass fs auth projectRoot t2 config sinks2 (fst out1)
              Hidle1)
    as [Hr2 [_ Hl2]].
  fold out2 in Hr2, Hl2.
  eexists. eexists.
  split; [exact Hr1|]. split; [exact Hr2|].
  split; [exact Hl1|]. split; [exact Hl2|].
  unfold OrchestratorProofs.sorted_ids. f_equal. apply pass_ids.
Qed.


(** A project with an environment file, a [.gitignore] and one source
    file; no authority is configured. *)
Definition app_ts : string :=
  "const rows = await supabase.from('orders').select('*');" ++ JS.nl
  ++ "const q = `SELECT * FROM users WHERE id = '${userId}'`;".

Definition whole_project : FileSystem := {|
  glob := fun p _ =>
    if String.eqb p ".env.local" then ["/app/.env.local"]
    else if String.eqb p "**/*.ts" then ["/app/src/app.ts"]
    else [];
  readFileSync := fun p =>
    if String.eqb p "/app/.env.local" then Some SecretScannerProofs.demo_env
    else if String.eqb p "/app/.gitignore" then Some "node_modules"
    else if String.eqb p "/app/src/app.ts" then Some app_ts
    else None;
  existsSync := fun p =>
    String.eqb p "/app/.env.local" || String.eqb p "/app/.gitignore"
    || String.eqb p "/app/src";
  relative := JS.drop 5
|}.

Lemma two_passes_same_ids_witness :
  let run t sinks st :=
    Pipeline.runFullScan (engine := MiniRegex.engine) whole_project
      RLSScannerProofs.offline "/app" getDefaultConfig t sinks st in
  let first := run 1000%Z OrchestratorProofs.sinks_complete
                 Orchestrator.initial in
  let second := run 2000%Z OrchestratorProofs.no_reporter (fst first) in
  Orchestrator.isScanning Orchestrator.initial = false
  /\ exists l1 l2,
       snd first = Orchestrator.Returned l1
       /\ snd second = Orchestrator.Returned l2
       /\ Orchestrator.latestIssues (fst first) = l1
       /\ OrchestratorProofs.sorted_ids l1 = OrchestratorProofs.sorted_ids l2
       /\ OrchestratorProofs.sorted_ids l1
          = [ "gitignore-env-missing";
              "rls-disabled-orders";
              "secret-.env.local-NEXT_PUBLIC_DATABASE_URL-2";
              "sqli-raw-sql-template-literal-src/app.ts-2" ].
Proof.
  cbv zeta. split; [reflexivity|].
  destruct (two_passes_same_ids (engine := MiniRegex.engine) whole_project
              RLSScannerProofs.offline "/app" getDefaultConfig 1000%Z 2000%Z
              OrchestratorProofs.sinks_complete OrchestratorProofs.no_reporter
              Orchestrator.initial eq_refl)
    as [l1 [l2 [H1 [H2 [Hl [_ Hs]]]]]].
  exists l1, l2. split; [exact H1|]. split; [exact H2|].
  split; [apply Hl; intros k _; reflexivity|]. split; [exact Hs|].
  assert (Hl1 : l1 =
            (match snd (Pipeline.runFullScan (engine := MiniRegex.engine)
                          whole_project RLSScannerProofs.offline "/app"
                          getDefaultConfig 1000%Z
                          OrchestratorProofs.sinks_complete
                          Orchestrator.initial) with
             | Orchestrator.Returned l => l
             | Orchestrator.Suspended _ => []
             end)) by (rewrite H1; reflexivity).
  rewrite Hl1. vm_compute. reflexivity.
Defined.

End PipelineProofs.

(* ================================================================== *)
(** * Facts about the string helpers *)
(* ================================================================== *)

Module StringFacts.

(** The string is empty or starts with a character that is not white
    space. *)
Definition starts_clean (s : string) : Prop :=
  match s with
  | EmptyString => True
  | String c _ => JS.is_space c = false
  end.

Lemma trimStart_clean : forall s, starts_clean (JS.trimStart s).
Proof.
  induction s as [|c r IH]; [exact I|].
  cbn. destruct (JS.is_space c) eqn:E; [exact IH | exact E].
Qed.

Lemma trimStart_fixed : forall s, starts_clean s -> JS.trimStart s = s.
Proof. intros [|c r] H; [reflexivity|]. cbn in *. rewrite H. reflexivity. Qed.

Lemma trimEnd_clean : forall s, starts_clean s -> starts_clean (JS.trimEnd s).
Proof.
  intros [|c r] H; [exact I|].
  cbn in *. destruct (JS.trimEnd r); [rewrite H|]; exact H.
Qed.

Lemma trimEnd_idem : forall s, JS.trimEnd (JS.trimEnd s) = JS.trimEnd s.
Proof.
  induction s as [|c r IH]; [reflexivity|].
  cbn [JS.trimEnd]. destruct (JS.trimEnd r) as [|d r'] eqn:E.
  - destruct (JS.is_space c) eqn:Hc; [reflexivity|].
    cbn. rewrite Hc. reflexivity.
  - replace (JS.trimEnd (String c (String d r')))
      with (match JS.trimEnd (String d r') with
            | EmptyString =>
                if JS.is_space c then EmptyString else String c EmptyString
            | String d' r'' => String c (String d' r'')
            end) by reflexivity.
    rewrite IH. reflexivity.
Qed.

Lemma trim_idem : forall s, JS.trim (JS.trim s) = JS.trim s.
Proof.
  intro s. unfold JS.trim.
  rewrite (trimStart_fixed (JS.trimEnd (JS.trimStart s)))
    by (apply trimEnd_clean, trimStart_clean).
  apply trimEnd_idem.
Qed.

Lemma trim_fixed :
  forall s, JS.trim s = s -> starts_clean s /\ JS.trimEnd s = s.
Proof.
  intros s H. split.
  - rewrite <- H. apply trimEnd_clean, trimStart_clean.
  - rewrite <- H at 1. unfold JS.trim. rewrite trimEnd_idem. exact H.
Qed.

Lemma trimEnd_app :
  forall a b,
    JS.trimEnd b <> EmptyString -> JS.trimEnd (a ++ b) = a ++ JS.trimEnd b.
Proof.
  induction a as [|c a IH]; intros b Hb; [reflexivity|].
  cbn [append JS.trimEnd]. fold JS.trimEnd. rewrite (IH b Hb).
  destruct (a ++ JS.trimEnd b) eqn:E; [|reflexivity].
  destruct a; cbn in E; [contradiction | discriminate E].
Qed.

Lemma indexOf_trimStart :
  forall c s, JS.indexOf c s = None -> JS.indexOf c (JS.trimStart s) = None.
Proof.
  intros c s. induction s as [|d r IH]; intro H; [reflexivity|].
  cbn [JS.trimStart]. destruct (JS.is_space d); [|exact H].
  apply IH. cbn in H. destruct (Ascii.eqb c d); [discriminate H|].
  destruct (JS.indexOf c r); [discriminate H | reflexivity].
Qed.

Lemma indexOf_trimEnd :
  forall c s, JS.indexOf c s = None -> JS.indexOf c (JS.trimEnd s) = None.
Proof.
  intros c s. induction s as [|d r IH]; intro H; [reflexivity|].
  cbn in H. destruct (Ascii.eqb c d) eqn:E; [discriminate H|].
  destruct (JS.indexOf c r) eqn:Hr; [discriminate H|].
  specialize (IH eq_refl). cbn [JS.trimEnd].
  destruct (JS.trimEnd r) as [|d' r'] eqn:Ht.
  - destruct (JS.is_space d); [reflexivity|]. cbn. rewrite E. reflexivity.
  - change (JS.indexOf c (String d (String d' r')))
      with (if Ascii.eqb c d then Some 0
            else option_map S (JS.indexOf c (String d' r'))).
    rewrite E, IH. reflexivity.
Qed.

Lemma indexOf_take :
  forall c s i, JS.indexOf c s = Some i -> JS.indexOf c (JS.take i s) = None.
Proof.
  intros c s. unfold JS.take. induction s as [|d r IH]; intros i H;
    [discriminate H|].
  cbn in H. destruct (Ascii.eqb c d) eqn:E.
  - injection H as <-. reflexivity.
  - destruct (JS.indexOf c r) as [j|] eqn:Hr; [|discriminate H].
    injection H as <-. cbn [substring JS.indexOf]. rewrite E.
    rewrite (IH j eq_refl). reflexivity.
Qed.

Lemma indexOf_app :
  forall c k x,
    JS.indexOf c k = None ->
    JS.indexOf c (k ++ String c x) = Some (String.length k).
Proof.
  intros c k x. induction k as [|d r IH]; intro H.
  - cbn. rewrite Ascii.eqb_refl. reflexivity.
  - cbn in H |- *. destruct (Ascii.eqb c d); [discriminate H|].
    destruct (JS.indexOf c r); [discriminate H|].
    rewrite (IH eq_refl). reflexivity.
Qed.

Lemma take_app : forall k x, JS.take (String.length k) (k ++ x) = k.
Proof.
  unfold JS.take. induction k as [|d r IH]; intro x.
  - destruct x; reflexivity.
  - cbn. rewrite IH. reflexivity.
Qed.

Lemma drop_app : forall k x, JS.drop (String.length k) (k ++ x) = x.
Proof. induction k as [|d r IH]; intro x; [reflexivity | exact (IH x)]. Qed.

Lemma drop_app_char :
  forall k c x, JS.drop (String.length k + 1) (k ++ String c x) = x.
Proof. induction k as [|d r IH]; intros c x; [reflexivity | exact (IH c x)]. Qed.

(** A prefix with no [c] in it cannot end inside [k ++ c...] unless it is
    a prefix of [k]. *)
Lemma prefix_app_char :
  forall p k c x,
    JS.indexOf c p = None ->
    String.prefix p k = false ->
    String.prefix p (k ++ String c x) = false.
Proof.
  induction p as [|a p IH]; intros k c x Hp Hk.
  - destruct k; discriminate Hk.
  - cbn in Hp. destruct (Ascii.eqb c a) eqn:E; [discriminate Hp|].
    destruct (JS.indexOf c p) eqn:Hp'; [discriminate Hp|].
    destruct k as [|b k].
    + cbn. destruct (Ascii.ascii_dec a c) as [->|]; [|reflexivity].
      rewrite Ascii.eqb_refl in E. discriminate E.
    + cbn in Hk |- *. destruct (Ascii.ascii_dec a b); [|reflexivity].
      apply IH; assumption.
Qed.

Lemma splitLines_length :
  forall s, List.length (JS.splitLines s) = JS.count_newlines s + 1.
Proof.
  induction s as [|c r IH]; [reflexivity|].
  assert (Hkeep : forall l : list string,
             List.length l = JS.count_newlines r + 1 ->
             List.length (match l with
                          | h :: t => String c h :: t
                          | [] => [String c EmptyString]
                          end) = JS.count_newlines r + 1).
  { intros [|h t] H; cbn in *; lia. }
  cbn [JS.splitLines JS.count_newlines].
  destruct (Ascii.eqb c (ascii_of_nat 10)) eqn:Elf.
  - cbn [List.length]. rewrite IH. lia.
  - cbn [Nat.add]. destruct (Ascii.eqb c (ascii_of_nat 13)) eqn:Ecr;
      [|apply Hkeep; exact IH].
    destruct r as [|c2 r2]; [apply Hkeep; exact IH|].
    destruct (Ascii.eqb c2 (ascii_of_nat 10)) eqn:E2;
      [|apply Hkeep; exact IH].
    cbn [JS.splitLines] in IH. rewrite E2 in IH. exact IH.
Qed.

Lemma count_newlines_take :
  forall s i, JS.count_newlines (JS.take i s) <= JS.count_newlines s.
Proof.
  unfold JS.take. induction s as [|c r IH]; intro i.
  - destruct i; cbn; lia.
  - destruct i as [|i]; cbn [substring JS.count_newlines]; [lia|].
    specialize (IH i). lia.
Qed.

End StringFacts.

(* ================================================================== *)
(** * The trace of a pass of the orchestrator *)
(* ================================================================== *)

Module OrchestratorTrace.
Import Orchestrator OrchestratorProofs.

(** X2: a pass from an idle state starts its scanners in the fixed order
    and stops starting them at the first one that throws.  When they all
    return it reads the reporter's flag and calls reportToTerminal (when
    the flag is set), printRLSRecipes and writeVibeSummary in this order,
    each on the list the pass returns, and stops at the first of these
    statements that throws.  A fault, of a scanner or of one of these
    statements, is logged once, as the last event of the pass. *)
Theorem runFullScan_trace :
  forall (config : VibeSecurityConfig) (scan : Scanners) (sinks : Sinks)
         (st : State),
    isScanning st = false ->
    let g := gather scan (stages config) [] in
    trace (fst (runFullScan config scan sinks st))
    = (trace st
       ++ map start_event (reached scan (stages config))
       ++ match snd g with
          | Some _ => []
          | None =>
              flat_map (call_event (fst g)) (run_upto sinks (tail config))
          end
       ++ match pass_fault config scan sinks with
          | Some msg => [EvConsoleError msg]
          | None => []
          end)%list.
Proof.
  intros config scan sinks st Hidle. cbv zeta.
  rewrite (runFullScan_idle config scan sinks st Hidle).
  reflexivity.
Qed.

(** The summary cannot be generated. *)
Definition summary_throws : Sinks :=
  fun k => match k with
           | WriteVibeSummary => Throws "summary failed"
           | _ => Completes
           end.

Lemma runFullScan_trace_witness :
  isScanning after_earlier_pass = false
  /\ trace (fst (runFullScan getDefaultConfig rls_throws sinks_complete
                   after_earlier_pass))
     = [EvScanSecrets; EvScanRLS; EvConsoleError "fetch failed"]
  /\ trace (fst (runFullScan getDefaultConfig all_return summary_throws
                   after_earlier_pass))
     = [ EvScanSecrets; EvScanRLS; EvScanSQLInjection; EvScanAPIKeys;
         EvReportToTerminal [fresh_issue]; EvPrintRLSRecipes [fresh_issue];
         EvWriteVibeSummary [fresh_issue]; EvConsoleError "summary failed" ]
  /\ trace (fst (runFullScan getDefaultConfig all_return no_reporter
                   after_earlier_pass))
     = [ EvScanSecrets; EvScanRLS; EvScanSQLInjection; EvScanAPIKeys;
         EvConsoleError
           "Cannot read properties of undefined (reading 'terminal')" ].
Proof.
  split; [reflexivity|].
  rewrite (runFullScan_trace getDefaultConfig rls_throws sinks_complete
             after_earlier_pass eq_refl).
  rewrite (runFullScan_trace getDefaultConfig all_return summary_throws
             after_earlier_pass eq_refl).
  rewrite (runFullScan_trace getDefaultConfig all_return no_reporter
             after_earlier_pass eq_refl).
  repeat split; reflexivity.
Defined.

(** A process in which the first pass is suspended and a second call has
    returned at once. *)
Definition busy_process : Process :=
  {| orch := first_pass_in_flight;
     suspended := [ {| stage := AwaitSecrets; allIssues := [];
                       run_config := getDefaultConfig |} ] |}.

Lemma busy_process_reachable : reachable busy_process.
Proof.
  apply (reach_step {| orch := first_pass_in_flight;
                       suspended := [ {| stage := AwaitSecrets; allIssues := [];
                                         run_config := getDefaultConfig |} ] |}).
  - apply (reach_step {| orch := initial; suspended := [] |});
      [apply reach_init|].
    apply (step_call getDefaultConfig {| orch := initial; suspended := [] |}
             first_pass_in_flight
             (Suspended {| stage := AwaitSecrets; allIssues := [];
                           run_config := getDefaultConfig |})).
    reflexivity.
  - apply (step_call getDefaultConfig
             {| orch := first_pass_in_flight;
                suspended := [ {| stage := AwaitSecrets; allIssues := [];
                                  run_config := getDefaultConfig |} ] |}
             first_pass_in_flight (Returned [])).
    reflexivity.
Qed.

Lemma at_most_one_scan_witness :
  reachable busy_process
  /\ List.length (suspended busy_process)
     = if isScanning (orch busy_process) then 1 else 0.
Proof.
  split; [exact busy_process_reachable|].
  exact (at_most_one_scan busy_process busy_process_reachable).
Defined.

End OrchestratorTrace.

(* ================================================================== *)
(** * The rescans of the watch scheduler *)
(* ================================================================== *)

Module WatchdogBursts.
Import Watchdog WatchdogProofs.

(** The events after which the timer gets to fire: the last one, and each
    one that the next event follows by [d] or more. *)
Fixpoint trailing (d : nat) (times : list nat) : list nat :=
  match times with
  | [] => []
  | t :: r =>
      match r with
      | [] => [t]
      | t' :: _ => if t + d <=? t' then t :: trailing d r else trailing d r
      end
  end.

(** The events are in time order. *)
Fixpoint in_order (last : nat) (times : list nat) : Prop :=
  match times with
  | [] => True
  | t :: r => last <= t /\ in_order t r
  end.

Section Facts.
Variable config : VibeSecurityConfig.
Variable loadConfig : nat -> VibeSecurityConfig.
Variable relative : string -> string.

Let d := debounceMs (watcher config).

(** What the timer armed by an event at [t] does when it fires. *)
Definition firing (t : nat) : list (nat * Event) :=
  [ (t + d, EvLoadConfig); (t + d, EvRunFullScan (loadConfig (t + d))) ].

Lemma on_event_late :
  forall seen t st t' p,
    pending config seen t st -> t + d <= t' ->
    pending config (seen ++ firing t)%list t'
      (on_event config loadConfig relative st (t', p)).
Proof.
  intros seen t st t' p [h [Ht [Hd [Hc Hr]]]] Hle.
  unfold on_event, advance. cbn [fst snd]. rewrite Ht.
  cbn [List.length run_timers]. rewrite Ht. cbn [earliest due handle].
  fold d. destruct (Nat.leb_spec (t + d) t'); [|lia].
  exists (next_handle st).
  unfold scheduleRescan, callback, rescans, log, clearTimeout, set_clock,
    setTimeout. fold d. cbn. rewrite Ht, Hc, Hd. cbn.
  rewrite Nat.eqb_refl. cbn.
  replace (Nat.max (Nat.max t (t + d)) t') with t' by lia.
  replace (Nat.max t (t + d)) with (t + d) by lia.
  repeat split.
  rewrite !filter_app. cbn. rewrite app_nil_r.
  unfold rescans in Hr. rewrite Hr, <- app_assoc. reflexivity.
Qed.

Lemma rescans_of_events :
  forall evs seen t st horizon,
    pending config seen t st ->
    in_order t (map fst evs) ->
    last (map fst evs) t + d <= horizon ->
    rescans (advance loadConfig horizon
               (fold_left (on_event config loadConfig relative) evs st))
    = (seen ++ flat_map firing (trailing d (t :: map fst evs)))%list.
Proof.
  induction evs as [|[t' p] r IH]; intros seen t st horizon Hp Hord Hh.
  - cbn [map last] in Hh. cbn [fold_left map trailing flat_map].
    rewrite (proj1 (advance_fires config loadConfig seen t st horizon Hp Hh)).
    rewrite app_nil_r. reflexivity.
  - cbn [map fst in_order] in Hord. destruct Hord as [Hle Hord].
    cbn [map fst] in Hh. rewrite last_cons in Hh.
    cbn [fold_left map fst]. cbn [trailing]. fold (trailing d (t' :: map fst r)).
    destruct (Nat.leb_spec (t + d) t') as [Hlate|Hsoon].
    + rewrite (IH (seen ++ firing t)%list t' _ horizon); [|  | exact Hord | exact Hh].
      * cbn [flat_map]. rewrite <- app_assoc. reflexivity.
      * apply on_event_late; assumption.
    + apply IH; [|exact Hord|exact Hh].
      eapply on_event_pending; eauto.
Qed.

End Facts.

(** X3: for any file events in time order, the rescans are exactly the firings
    of the timers left to run out: one debounceMs after the last event,
    and one debounceMs after each event that the next one follows by
    debounceMs or more.  Each firing loads the configuration and calls
    runFullScan with it. *)
Theorem rescans_are_trailing_edges :
  forall (config : VibeSecurityConfig)
         (loadConfig : nat -> VibeSecurityConfig)
         (relative : string -> string)
         (st : State) (t1 : nat) (p1 : string)
         (evs : list (nat * string)) (horizon : nat),
    timers st = [] ->
    clock st <= t1 ->
    in_order t1 (map fst evs) ->
    last (map fst evs) t1 + debounceMs (watcher config) <= horizon ->
    rescans (run config loadConfig relative ((t1, p1) :: evs) horizon st)
    = (rescans st
       ++ flat_map (firing config loadConfig)
            (trailing (debounceMs (watcher config)) (t1 :: map fst evs)))%list.
Proof.
  intros config loadConfig relative st t1 p1 evs horizon Ht Hc Hord Hh.
  unfold run. cbn [fold_left].
  apply rescans_of_events; [|exact Hord|exact Hh].
  unfold on_event. cbn [fst snd].
  assert (Hadv : advance loadConfig t1 st = set_clock t1 st).
  { unfold advance. rewrite Ht. cbn. f_equal. lia. }
  rewrite Hadv.
  apply (scheduleRescan_idle config relative (rescans st) p1
           (set_clock t1 st)); [exact Ht | reflexivity].
Qed.

(** Two saves in quick succession, then one a second later. *)
Lemma rescans_are_trailing_edges_witness :
  timers initial = []
  /\ clock initial <= 1000
  /\ in_order 1000 [1200; 2500]
  /\ rescans (run getDefaultConfig (fun _ => getDefaultConfig) (fun p => p)
                [(1000, "src/a.ts"); (1200, "src/a.ts"); (2500, ".env")]
                5000 initial)
     = [ (1700, EvLoadConfig); (1700, EvRunFullScan getDefaultConfig);
         (3000, EvLoadConfig); (3000, EvRunFullScan getDefaultConfig) ].
Proof.
  assert (Hord : in_order 1000 (map fst [(1200, "src/a.ts"); (2500, ".env")]))
    by (cbn; lia).
  assert (Hc : clock initial <= 1000) by (cbn; lia).
  split; [reflexivity|]. split; [exact Hc|]. split; [exact Hord|].
  rewrite (rescans_are_trailing_edges getDefaultConfig
             (fun _ => getDefaultConfig) (fun p => p) initial 1000 "src/a.ts"
             [(1200, "src/a.ts"); (2500, ".env")] 5000 eq_refl Hc Hord);
    [reflexivity | cbn; lia].
Defined.

End WatchdogBursts.

(* ================================================================== *)
(** * The webpack plugin starts the watchdog once *)
(* ================================================================== *)

Module WebpackPluginProofs.
Import WebpackPlugin.

Lemma fire_initialized :
  forall n p, initialized p = true -> snd (fire true n p) = [].
Proof.
  induction n as [|n IH]; intros p H; [reflexivity|].
  cbn [fire]. unfold afterEnvironment. rewrite H. cbn [negb].
  specialize (IH p H). destruct (fire true n p). exact IH.
Qed.

(** X4: however many times the hook runs, a plugin instance starts the
    watchdog at most once: once when it is applied in development mode and
    the hook runs at all, never in another mode. *)
Theorem plugin_starts_watchdog_once :
  forall (mode : string) (n : nat),
    snd (fire (apply mode) n new)
    = if String.eqb mode "development" && (0 <? n)
      then [StartWatchdog] else [].
Proof.
  intros mode n. unfold apply.
  destruct (String.eqb mode "development"); cbn [negb andb].
  - destruct n as [|n]; [reflexivity|].
    cbn [fire]. unfold afterEnvironment at 1. cbn [initialized new negb].
    pose proof (fire_initialized n {| initialized := true |} eq_refl) as H.
    destruct (fire true n {| initialized := true |}) as [p2 e2].
    cbn in H |- *. rewrite H. reflexivity.
  - destruct n; reflexivity.
Qed.

End WebpackPluginProofs.

(* ================================================================== *)
(** * What [parseEnvFile] reads *)
(* ================================================================== *)

Module EnvParsing.
Import SecretScanner StringFacts.

Lemma parseLines_from :
  forall l n e,
    In e (parseLines (JS.indexed_from n l)) ->
    exists k rawLine,
      nth_error l k = Some rawLine /\ parseLine (n + k) rawLine = Some e.
Proof.
  induction l as [|a r IH]; intros n e H; [contradiction|].
  cbn [JS.indexed_from parseLines] in H.
  assert (Hrest : In e (parseLines (JS.indexed_from (S n) r)) ->
                  exists k rawLine,
                    nth_error (a :: r) k = Some rawLine
                    /\ parseLine (n + k) rawLine = Some e).
  { intro Hr. destruct (IH _ _ Hr) as [k [raw [Hn Hp]]].
    exists (S k), raw. split; [exact Hn|].
    replace (n + S k) with (S n + k) by lia. exact Hp. }
  destruct (parseLine n a) as [e0|] eqn:E; [|exact (Hrest H)].
  destruct H as [<-|H]; [|exact (Hrest H)].
  exists 0, a. split; [reflexivity|]. rewrite Nat.add_0_r. exact E.
Qed.

Lemma parseLines_sorted :
  forall l n,
    StronglySorted lt (map e_line (parseLines (JS.indexed_from n l))).
Proof.
  induction l as [|a r IH]; intro n; [constructor|].
  cbn [JS.indexed_from parseLines].
  destruct (parseLine n a) as [e0|] eqn:E; [|apply IH].
  cbn [map]. constructor; [apply IH|].
  apply Forall_forall. intros x Hx. apply in_map_iff in Hx.
  destruct Hx as [e [<- He]].
  apply SecretScannerProofs.parseLines_line_gt in He.
  rewrite (SecretScannerProofs.parseLine_line _ _ _ E). lia.
Qed.

Lemma parseLine_key :
  forall index rawLine e,
    parseLine index rawLine = Some e ->
    JS.trim (e_key e) = e_key e
    /\ JS.indexOf "="%char (e_key e) = None
    /\ JS.startsWith "#" (JS.trim rawLine) = false.
Proof.
  intros index rawLine e. unfold parseLine.
  destruct (JS.truthy (JS.trim rawLine)); cbn [negb orb]; [|discriminate].
  destruct (JS.startsWith "#" (JS.trim rawLine)); [discriminate|].
  destruct (JS.indexOf "="%char (strip_export (JS.trim rawLine)))
    as [eqIndex|] eqn:E; [|discriminate].
  intro H. injection H as <-. cbn [e_key].
  split; [apply trim_idem|]. split; [|reflexivity].
  unfold JS.trim. apply indexOf_trimEnd, indexOf_trimStart, indexOf_take.
  exact E.
Qed.

(** X5: the entries parseEnvFile reads from a text come one per line, in
    the order of the lines: the line numbers increase strictly, each is
    the 1-based number of a line of the text that is not a comment, and
    the key of an entry has no white space around it and no equals
    sign. *)
Theorem parseContent_entries :
  forall (content : string),
    StronglySorted lt (map e_line (parseContent content))
    /\ forall e,
         In e (parseContent content) ->
         1 <= e_line e <= JS.count_newlines content + 1
         /\ (exists rawLine,
               nth_error (JS.splitLines content) (e_line e - 1) = Some rawLine
               /\ parseLine (e_line e - 1) rawLine = Some e
               /\ JS.startsWith "#" (JS.trim rawLine) = false)
         /\ JS.trim (e_key e) = e_key e
         /\ JS.indexOf "="%char (e_key e) = None.
Proof.
  intro content. split; [apply parseLines_sorted|].
  intros e He. unfold parseContent, JS.indexed in He.
  destruct (parseLines_from _ _ _ He) as [k [raw [Hn Hp]]].
  cbn [Nat.add] in Hp.
  pose proof (SecretScannerProofs.parseLine_line _ _ _ Hp) as Hline.
  destruct (parseLine_key _ _ _ Hp) as [Ht [Hi Hc]].
  assert (Hk : k < List.length (JS.splitLines content))
    by (apply nth_error_Some; congruence).
  rewrite splitLines_length in Hk.
  replace (e_line e - 1) with k by lia.
  split; [lia|]. split; [|split; assumption].
  exists raw. repeat split; assumption.
Qed.

(** ** Writing a definition and reading it back *)

Lemma startsWith_hash_app :
  forall k x,
    JS.startsWith "#" k = false ->
    JS.startsWith "#" (k ++ String "="%char x) = false.
Proof.
  intros k x H. unfold JS.startsWith in *.
  apply prefix_app_char; [reflexivity | exact H].
Qed.

Lemma strip_export_app :
  forall k x,
    JS.startsWith "export" k = false ->
    strip_export (k ++ String "="%char x) = k ++ String "="%char x.
Proof.
  intros k x H. unfold strip_export, JS.startsWith in *.
  rewrite prefix_app_char; [reflexivity | reflexivity | exact H].
Qed.

Lemma trim_definition :
  forall k x,
    JS.trim k = k -> JS.trimEnd (String "="%char x) = String "="%char x ->
    JS.trim (k ++ String "="%char x) = k ++ String "="%char x.
Proof.
  intros k x Hk Hx. destruct (trim_fixed k Hk) as [Hclean _].
  unfold JS.trim. rewrite trimStart_fixed.
  - rewrite trimEnd_app; rewrite Hx; [reflexivity | discriminate].
  - destruct k; [reflexivity | exact Hclean].
Qed.

Lemma trimEnd_equals :
  forall v, JS.trimEnd v = v -> JS.trimEnd (String "="%char v) = String "="%char v.
Proof.
  intros v Hv. cbn [JS.trimEnd]. rewrite Hv. destruct v; reflexivity.
Qed.

Lemma strip_trailing_quote_app :
  forall v q,
    is_quote q = true ->
    strip_trailing_quote (v ++ String q EmptyString) = v.
Proof.
  intros v q Hq. induction v as [|c r IH].
  - cbn. rewrite Hq. reflexivity.
  - cbn [append strip_trailing_quote]. fold strip_trailing_quote.
    rewrite IH. destruct r; reflexivity.
Qed.

Lemma trimEnd_quoted :
  forall a q,
    JS.is_space q = false ->
    JS.trimEnd (a ++ String q EmptyString) = a ++ String q EmptyString.
Proof.
  intros a q Hq.
  rewrite trimEnd_app; cbn; rewrite Hq; [reflexivity | discriminate].
Qed.

(** What [parseLine] makes of [cleaned] once it is trimmed, free of
    [export] and not a comment. *)
Lemma parseLine_definition :
  forall index k x,
    JS.trim k = k -> JS.indexOf "="%char k = None ->
    JS.startsWith "#" k = false -> JS.startsWith "export" k = false ->
    JS.trimEnd (String "="%char x) = String "="%char x ->
    parseLine index (k ++ String "="%char x)
    = Some {| e_key := k; e_value := strip_quotes (JS.trim x);
              e_line := index + 1 |}.
Proof.
  intros index k x Hk Heq Hhash Hexp Hx. unfold parseLine.
  rewrite (trim_definition k x Hk Hx).
  rewrite (startsWith_hash_app k x Hhash).
  replace (JS.truthy (k ++ String "="%char x)) with true
    by (destruct k; reflexivity).
  cbn [negb orb]. rewrite (strip_export_app k x Hexp).
  rewrite (indexOf_app "="%char k x Heq).
  rewrite take_app, Hk, drop_app_char. reflexivity.
Qed.


Lemma strip_export_export :
  forall r, starts_clean r -> strip_export ("export " ++ r) = r.
Proof.
  intros r Hclean.
  change (strip_export ("export " ++ r)) with (JS.trimStart r).
  apply trimStart_fixed. exact Hclean.
Qed.

(** X6: a definition written as KEY=value, as KEY="value" or behind export
    is read back as that key and that value, on the line it stands on:
    for a key without white space around it, without equals sign, that
    does not start with # or with export; the bare value must be trimmed
    and not begin or end with a quote, the quoted value may be any
    text. *)
Theorem parseLine_reads_definition :
  forall (index : nat) (k v : string),
    JS.trim k = k ->
    JS.indexOf "="%char k = None ->
    JS.startsWith "#" k = false ->
    JS.startsWith "export" k = false ->
    let entry := {| e_key := k; e_value := v; e_line := index + 1 |} in
    parseLine index (k ++ "=" ++ JS.dq ++ v ++ JS.dq) = Some entry
    /\ (JS.trim v = v -> strip_quotes v = v ->
        parseLine index (k ++ "=" ++ v) = Some entry
        /\ parseLine index ("export " ++ k ++ "=" ++ v) = Some entry).
Proof.
  intros index k v Hk Heq Hhash Hexp entry. subst entry.
  set (q := ascii_of_nat 34).
  assert (Hq : is_quote q = true) by reflexivity.
  split.
  - change (k ++ "=" ++ JS.dq ++ v ++ JS.dq)
      with (k ++ String "="%char (String q (v ++ String q EmptyString))).
    rewrite parseLine_definition; try assumption.
    + assert (Ht : JS.trim (String q (v ++ String q EmptyString))
                   = String q (v ++ String q EmptyString)).
      { unfold JS.trim. rewrite trimStart_fixed by reflexivity.
        apply (trimEnd_quoted (String q v) q). reflexivity. }
      rewrite Ht. cbn [strip_quotes]. rewrite Hq.
      rewrite strip_trailing_quote_app by exact Hq. reflexivity.
    + apply (trimEnd_quoted (String "="%char (String q v)) q). reflexivity.
  - intros Hv Hsq. destruct (trim_fixed v Hv) as [_ Hend].
    assert (Hplain : parseLine index (k ++ String "="%char v)
              = Some {| e_key := k; e_value := v; e_line := index + 1 |}).
    { rewrite parseLine_definition; try assumption.
      - rewrite Hv, Hsq. reflexivity.
      - apply trimEnd_equals. exact Hend. }
    split; [exact Hplain|].
    change ("export " ++ k ++ "=" ++ v)
      with ("export " ++ (k ++ String "="%char v)).
    assert (Hrest : JS.trim (k ++ String "="%char v) = k ++ String "="%char v)
      by (apply trim_definition; [exact Hk | apply trimEnd_equals; exact Hend]).
    destruct (trim_fixed _ Hrest) as [Hclean Hend'].
    assert (Hne : k ++ String "="%char v <> EmptyString)
      by (destruct k; discriminate).
    assert (Hline : JS.trim ("export " ++ (k ++ String "="%char v))
                    = "export " ++ (k ++ String "="%char v)).
    { unfold JS.trim. rewrite trimStart_fixed by reflexivity.
      rewrite trimEnd_app; rewrite Hend'; [reflexivity | exact Hne]. }
    unfold parseLine in Hplain |- *. rewrite Hline. rewrite Hrest in Hplain.
    cbn [JS.truthy append negb orb JS.startsWith prefix].
    destruct (Ascii.ascii_dec "#" "e") as [Hbad|_]; [discriminate Hbad|].
    pose proof (strip_export_export _ Hclean) as Hstrip.
    cbn [append] in Hstrip. rewrite Hstrip.
    rewrite (strip_export_app k v Hexp) in Hplain.
    replace (JS.truthy (k ++ String "="%char v)) with true in Hplain
      by (destruct k; reflexivity).
    rewrite (startsWith_hash_app k v Hhash) in Hplain.
    exact Hplain.
Qed.

Lemma parseLine_reads_definition_witness :
  JS.trim "NEXT_PUBLIC_API_URL" = "NEXT_PUBLIC_API_URL"
  /\ JS.indexOf "="%char "NEXT_PUBLIC_API_URL" = None
  /\ JS.startsWith "#" "NEXT_PUBLIC_API_URL" = false
  /\ JS.startsWith "export" "NEXT_PUBLIC_API_URL" = false
  /\ JS.trim "https://api.example.com" = "https://api.example.com"
  /\ strip_quotes "https://api.example.com" = "https://api.example.com"
  /\ parseLine 4 ("export NEXT_PUBLIC_API_URL=https://api.example.com")
     = Some {| e_key := "NEXT_PUBLIC_API_URL";
               e_value := "https://api.example.com"; e_line := 5 |}.
Proof.
  repeat (split; [reflexivity|]).
  exact (proj2 (proj2 (parseLine_reads_definition 4 "NEXT_PUBLIC_API_URL"
                         "https://api.example.com" eq_refl eq_refl eq_refl
                         eq_refl) eq_refl eq_refl)).
Defined.

End EnvParsing.

(* ================================================================== *)
(** * The maps the scanners build *)
(* ================================================================== *)

Module MapFacts.

(** The value bound to [k], [[]] where there is none. *)
Definition bound {A} (k : string) (m : JS.Map A) : list A :=
  match JS.map_get k m with Some v => v | None => [] end.

Lemma map_get_push :
  forall {A} k k' (x : A) m,
    JS.map_get k (JS.map_push k' x m)
    = if String.eqb k k' then Some (bound k m ++ [x])%list
      else JS.map_get k m.
Proof.
  intros A k k' x m. unfold bound. induction m as [|[k2 v] r IH].
  - cbn. destruct (String.eqb k k'); reflexivity.
  - cbn [JS.map_push]. destruct (String.eqb_spec k' k2) as [->|Hne].
    + cbn [JS.map_get]. destruct (String.eqb k k2); reflexivity.
    + cbn [JS.map_get]. destruct (String.eqb_spec k k2) as [->|Hne2].
      * destruct (String.eqb_spec k2 k'); [congruence | reflexivity].
      * exact IH.
Qed.

(** Pushing a list of items one after the other groups them by key, and
    keeps the order of the items within each group. *)
Lemma map_get_pushes :
  forall {A B} (key : B -> string) (val : B -> A) xs m k,
    let group := map val (filter (fun x => String.eqb k (key x)) xs) in
    JS.map_get k (fold_left (fun m x => JS.map_push (key x) (val x) m) xs m)
    = match group with
      | [] => JS.map_get k m
      | _ => Some (bound k m ++ group)%list
      end.
Proof.
  intros A B key val xs. induction xs as [|x r IH]; intros m k; [reflexivity|].
  cbn [fold_left filter]. cbv zeta in IH |- *. rewrite IH.
  unfold bound. rewrite map_get_push. unfold bound.
  destruct (String.eqb k (key x)); cbn [map].
  - destruct (map val (filter (fun x0 => String.eqb k (key x0)) r));
      [reflexivity|].
    rewrite <- app_assoc. reflexivity.
  - reflexivity.
Qed.

Lemma map_push_fst :
  forall {A} k (x : A) m,
    map fst (JS.map_push k x m)
    = if JS.mem k (map fst m) then map fst m else (map fst m ++ [k])%list.
Proof.
  intros A k x m. induction m as [|[k' v] r IH]; [reflexivity|].
  cbn [JS.map_push map fst]. unfold JS.mem in *. cbn [existsb].
  destruct (String.eqb k k'); [reflexivity|].
  cbn [map fst orb]. rewrite IH.
  destruct (existsb (String.eqb k) (map fst r)); reflexivity.
Qed.

Lemma uniq_acc_ext :
  forall l seen seen',
    (forall x, JS.mem x seen = JS.mem x seen') ->
    JS.uniq_acc seen l = JS.uniq_acc seen' l.
Proof.
  induction l as [|y r IH]; intros seen seen' H; [reflexivity|].
  cbn [JS.uniq_acc]. rewrite <- H. destruct (JS.mem y seen); [apply IH, H|].
  f_equal. apply IH. intro x. unfold JS.mem in *. cbn [existsb].
  rewrite H. reflexivity.
Qed.

(** The keys of the map come in the order of their first push. *)
Lemma map_pushes_fst :
  forall {A B} (key : B -> string) (val : B -> A) xs m,
    map fst (fold_left (fun m x => JS.map_push (key x) (val x) m) xs m)
    = (map fst m ++ JS.uniq_acc (map fst m) (map key xs))%list.
Proof.
  intros A B key val xs. induction xs as [|x r IH]; intro m.
  - cbn. rewrite app_nil_r. reflexivity.
  - cbn [fold_left map JS.uniq_acc]. rewrite IH, map_push_fst.
    destruct (JS.mem (key x) (map fst m)); [reflexivity|].
    rewrite <- app_assoc. cbn [app]. do 2 f_equal.
    apply uniq_acc_ext. intro y. unfold JS.mem.
    rewrite existsb_app. cbn [existsb]. rewrite orb_false_r.
    apply orb_comm.
Qed.

Lemma map_as_lookup :
  forall {A} (m : JS.Map A),
    NoDup (map fst m) -> m = map (fun k => (k, bound k m)) (map fst m).
Proof.
  intros A m. induction m as [|[k v] r IH]; intro Hnd; [reflexivity|].
  cbn [map fst] in Hnd |- *. inversion Hnd as [|y l Hnotin Hnd']; subst.
  f_equal.
  - unfold bound. cbn [JS.map_get]. rewrite String.eqb_refl. reflexivity.
  - rewrite (IH Hnd') at 1. apply map_ext_in. intros k' Hk'.
    unfold bound. cbn [JS.map_get].
    destruct (String.eqb_spec k' k) as [->|_]; [contradiction | reflexivity].
Qed.

Lemma map_push_NoDup :
  forall {A} k (x : A) m,
    NoDup (map fst m) -> NoDup (map fst (JS.map_push k x m)).
Proof.
  intros A k x m Hnd. rewrite map_push_fst.
  destruct (JS.mem k (map fst m)) eqn:Hm; [exact Hnd|].
  apply NoDup_app; [exact Hnd | repeat constructor; intros [] |].
  intros y Hy [<-|[]].
  apply Facts.mem_In in Hy. rewrite Hy in Hm. discriminate Hm.
Qed.

(** A map filled by pushes alone holds, for each key in the order of its
    first push, the values pushed under it, in the order of the pushes. *)
Lemma pushes_grouped :
  forall {A B} (key : B -> string) (val : B -> A) xs,
    fold_left (fun m x => JS.map_push (key x) (val x) m) xs []
    = map (fun k => (k, map val (filter (fun x => String.eqb k (key x)) xs)))
        (JS.uniq (map key xs)).
Proof.
  intros A B key val xs.
  set (m := fold_left (fun m x => JS.map_push (key x) (val x) m) xs []).
  assert (Hnd : NoDup (map fst m)).
  { subst m. apply Facts.fold_left_invariant; [constructor|].
    intros a x Ha _. apply map_push_NoDup. exact Ha. }
  rewrite (map_as_lookup m Hnd).
  assert (Hk : map fst m = JS.uniq (map key xs)).
  { subst m. rewrite map_pushes_fst. reflexivity. }
  rewrite Hk. apply map_ext. intro k. f_equal.
  unfold bound. subst m. rewrite (map_get_pushes key val xs [] k).
  cbv zeta. destruct (map val _); reflexivity.
Qed.

End MapFacts.

(* ================================================================== *)
(** * The key map and the soundness of the secret scanner *)
(* ================================================================== *)

Module SecretScannerLookup.
Import SecretScanner MapFacts Facts.

Section Facts.
Context {engine : RegExpEngine}.
Variable fs : FileSystem.

(** The places where the files define the key [k], in scan order. *)
Definition definitions (files : list string) (k : string) : list Location :=
  flat_map
    (fun f =>
       map (fun e => {| l_file := relative fs f; l_line := e_line e |})
         (filter (fun e => String.eqb k (e_key e)) (parseEnvFile fs f)))
    files.

Lemma definitions_flat :
  forall files k,
    definitions files k
    = map (fun fe : string * EnvEntry =>
             {| l_file := relative fs (fst fe); l_line := e_line (snd fe) |})
        (filter (fun fe : string * EnvEntry => String.eqb k (e_key (snd fe)))
           (flat_map (fun f => map (pair f) (parseEnvFile fs f)) files)).
Proof.
  intros files k. unfold definitions.
  induction files as [|f r IH]; [reflexivity|].
  cbn [flat_map]. rewrite filter_app, map_app, IH. f_equal.
  induction (parseEnvFile fs f) as [|e es IHe]; [reflexivity|].
  cbn [map filter fst snd]. destruct (String.eqb k (e_key e)); cbn [map];
    rewrite IHe; reflexivity.
Qed.

Lemma allEntries_flat :
  forall files,
    allEntries fs (fileEntries fs files)
    = fold_left
        (fun m (fe : string * EnvEntry) =>
           JS.map_push (e_key (snd fe))
             {| l_file := relative fs (fst fe); l_line := e_line (snd fe) |} m)
        (flat_map (fun f => map (pair f) (parseEnvFile fs f)) files) [].
Proof.
  intro files. unfold allEntries, fileEntries.
  rewrite <- fold_left_flat_map, <- fold_left_map.
  apply fold_left_ext_in. intros m f _. cbn [fst snd].
  unfold push_entries. rewrite <- fold_left_map. reflexivity.
Qed.

(** X7: the map allEntries that scanSecrets builds binds a key exactly
    when some scanned file defines it, to all the places that define it,
    in scan order; so the note of checkForDuplicateKey is absent exactly
    when no scanned file defines the key without its marker. *)
Theorem allEntries_lookup :
  forall (files : list string) (k key : string),
    let all := allEntries fs (fileEntries fs files) in
    JS.map_get k all
    = match definitions files k with
      | [] => None
      | l => Some l
      end
    /\ (checkForDuplicateKey key all = None
        <-> forall f e, In f files -> In e (parseEnvFile fs f) ->
                        e_key e <> stripMarker key).
Proof.
  intros files k key all.
  assert (Hget : forall k',
             JS.map_get k' all
             = match definitions files k' with [] => None | l => Some l end).
  { intro k'. subst all. rewrite allEntries_flat, definitions_flat.
    rewrite (map_get_pushes
               (fun fe : string * EnvEntry => e_key (snd fe))
               (fun fe : string * EnvEntry =>
                  {| l_file := relative fs (fst fe);
                     l_line := e_line (snd fe) |})).
    cbv zeta. destruct (map _ _); reflexivity. }
  split; [apply Hget|].
  unfold checkForDuplicateKey. rewrite Hget. split.
  - intros H f e Hf He Heq.
    destruct (definitions files (stripMarker key)) as [|l0 ls] eqn:Hd;
      [|discriminate H].
    assert (Hin : In {| l_file := relative fs f; l_line := e_line e |}
                    (definitions files (stripMarker key))).
    { unfold definitions. apply in_flat_map. exists f. split; [exact Hf|].
      apply in_map_iff. exists e. split; [reflexivity|].
      apply filter_In. split; [exact He|].
      rewrite Heq. apply String.eqb_refl. }
    rewrite Hd in Hin. exact Hin.
  - intro H. destruct (definitions files (stripMarker key)) as [|l0 ls] eqn:Hd;
      [reflexivity|].
    exfalso.
    assert (Hin : In l0 (definitions files (stripMarker key)))
      by (rewrite Hd; left; reflexivity).
    unfold definitions in Hin. apply in_flat_map in Hin.
    destruct Hin as [f [Hf Hin]]. apply in_map_iff in Hin.
    destruct Hin as [e [_ He]]. apply filter_In in He.
    destruct He as [He Heq]. apply String.eqb_eq in Heq.
    apply (H f e Hf He). symmetry. exact Heq.
Qed.

(** X8: scanSecrets reports nothing it has not found: each of its issues
    is the warning about .gitignore, or the issue of an entry of a scanned
    file whose key starts with NEXT_PUBLIC_ and is matched by a pattern of
    the table, with that pattern's severity and the entry's file, line
    and key. *)
Theorem scanSecrets_sound :
  forall (projectRoot : string) (now : Z) (config : SecretScannerConfig)
         (i : SecurityIssue),
    In i (issues (scanSecrets fs projectRoot now config)) ->
    i = gitignoreIssue now
    \/ exists f e p,
         In f (uniqueFiles fs projectRoot config)
         /\ In e (parseEnvFile fs f)
         /\ In p (sensitivePatterns config)
         /\ JS.startsWith marker (e_key e) = true
         /\ pattern_hits (e_key e) p = true
         /\ category i = secret_leak
         /\ severity i = sp_severity p
         /\ file i = Some (relative fs f)
         /\ line i = Some (e_line e)
         /\ key i = Some (e_key e).
Proof.
  intros projectRoot now config i H. unfold scanSecrets in H.
  destruct (uniqueFiles fs projectRoot config) as [|f0 fl] eqn:Hu;
    [contradiction|].
  cbn [issues] in H. apply in_app_or in H. destruct H as [H|H].
  - right. apply in_flat_map in H. destruct H as [[f es] [Hfe H]].
    unfold fileEntries in Hfe. apply in_map_iff in Hfe.
    destruct Hfe as [f' [Heq Hf]]. injection Heq as -> <-.
    unfold fileIssues in H. cbn [fst snd] in H.
    apply in_flat_map in H. destruct H as [e [He H]].
    unfold entryIssue, matchesSensitivePattern in H.
    destruct (JS.startsWith marker (e_key e)) eqn:Hm; cbn [negb] in H;
      [|contradiction].
    destruct (find (pattern_hits (e_key e)) (sensitivePatterns config))
      as [p|] eqn:Hp; [|contradiction].
    destruct H as [<-|[]]. apply find_some in Hp.
    exists f, e, p. repeat split; try tauto; assumption.
  - left. apply SecretScannerProofs.gitignoreCheck_In in H. apply H.
Qed.

End Facts.

Lemma allEntries_lookup_witness :
  checkForDuplicateKey "NEXT_PUBLIC_API_HOST"
    (allEntries SecretScannerProofs.demo_fs
       (fileEntries SecretScannerProofs.demo_fs ["/app/.env.local"]))
  <> None
  /\ JS.map_get "API_HOST"
       (allEntries SecretScannerProofs.demo_fs
          (fileEntries SecretScannerProofs.demo_fs ["/app/.env.local"]))
     = Some [ {| l_file := ".env.local"; l_line := 3 |} ].
Proof.
  destruct (allEntries_lookup SecretScannerProofs.demo_fs ["/app/.env.local"]
              "API_HOST" "NEXT_PUBLIC_API_HOST") as [Hget Hnote].
  split.
  - intro H. apply (proj1 Hnote H "/app/.env.local"
                      {| e_key := "API_HOST"; e_value := "localhost";
                         e_line := 3 |}).
    + left. reflexivity.
    + vm_compute. right. left. reflexivity.
    + reflexivity.
  - rewrite Hget. reflexivity.
Defined.

Lemma scanSecrets_sound_witness :
  exists i f e p,
    In i (issues (scanSecrets (engine := MiniRegex.engine)
                    SecretScannerProofs.demo_fs "/app" 0%Z
                    (secretScanner getDefaultConfig)))
    /\ i <> gitignoreIssue 0%Z
    /\ In e (parseEnvFile SecretScannerProofs.demo_fs f)
    /\ pattern_hits (engine := MiniRegex.engine) (e_key e) p = true
    /\ key i = Some (e_key e).
Proof.
  set (l := issues (scanSecrets (engine := MiniRegex.engine)
                      SecretScannerProofs.demo_fs "/app" 0%Z
                      (secretScanner getDefaultConfig))).
  assert (Hl : exists i r, l = i :: r /\ category i = secret_leak).
  { vm_compute. eexists. eexists. split; reflexivity. }
  destruct Hl as [i [r [Hl Hcat]]].
  assert (Hin : In i l) by (rewrite Hl; left; reflexivity).
  assert (Hne : i <> gitignoreIssue 0%Z)
    by (intro Heq; rewrite Heq in Hcat; discriminate Hcat).
  destruct (scanSecrets_sound (engine := MiniRegex.engine)
              SecretScannerProofs.demo_fs "/app" 0%Z
              (secretScanner getDefaultConfig) i Hin)
    as [Heq | [f [e [p [_ [He [_ [_ [Hp [_ [_ [_ [_ Hk]]]]]]]]]]]]];
    [contradiction|].
  exists i, f, e, p. repeat split; assumption.
Defined.

End SecretScannerLookup.

(* ================================================================== *)
(** * The report of the RLS scanner *)
(* ================================================================== *)

Module RLSReport.
Import RLSScanner Facts MapFacts.

Section Facts.
Context {engine : RegExpEngine}.
Variable fs : FileSystem.
Variable auth : Authority.
Variable projectRoot : string.
Variable now : Z.
Variable config : RLSScannerConfig.

(** The [.from('t')] calls of the files, in scan order, each with the
    file that holds it. *)
Definition calls (files : list string) : list (string * Query) :=
  flat_map (fun f => map (pair f) (findSupabaseQueries fs f)) files.

(** The tables the files use, in the order of their first use. *)
Definition tables (files : list string) : list string :=
  JS.uniq (map (fun fq => q_table (snd fq)) (calls files)).

(** The places where the files use the table [t], in scan order. *)
Definition usagesOf (files : list string) (t : string) : list Usage :=
  map (fun fq : string * Query =>
         {| u_file := relative fs (fst fq); u_line := q_line (snd fq);
            u_context := q_context (snd fq) |})
    (filter (fun fq : string * Query => String.eqb t (q_table (snd fq)))
       (calls files)).

Lemma tableUsages_grouped :
  forall files : list string,
    tableUsages fs files
    = map (fun t => (t, usagesOf files t)) (tables files).
Proof.
  intro files. unfold tableUsages, addFile, tables, usagesOf.
  rewrite <- (pushes_grouped
                (fun fq : string * Query => q_table (snd fq))
                (fun fq : string * Query =>
                   {| u_file := relative fs (fst fq);
                      u_line := q_line (snd fq);
                      u_context := q_context (snd fq) |})).
  unfold calls. rewrite <- fold_left_flat_map.
  apply fold_left_ext_in. intros m f _. rewrite <- fold_left_map.
  reflexivity.
Qed.

(** X9: the map tableUsages of scanRLS has one binding per table used,
    in the order in which the tables are first met, and binds each table
    to all the places that use it, in scan order; no table is bound
    twice and none to an empty list. *)
Theorem tableUsages_groups :
  forall files : list string,
    tableUsages fs files
    = map (fun t => (t, usagesOf files t)) (tables files)
    /\ NoDup (tables files)
    /\ forall t, In t (tables files) -> usagesOf files t <> [].
Proof.
  intro files. split; [apply tableUsages_grouped|].
  split; [apply SecretScannerProofs.uniq_NoDup|].
  intros t Ht. unfold tables in Ht.
  apply SecretScannerProofs.uniq_acc_In in Ht. destruct Ht as [Ht _].
  apply in_map_iff in Ht. destruct Ht as [fq [Hfq Hin]].
  unfold usagesOf. intro Hnil.
  assert (Hf : In fq (filter (fun fq0 : string * Query =>
                                String.eqb t (q_table (snd fq0)))
                        (calls files))).
  { apply filter_In. split; [exact Hin|]. rewrite Hfq.
    apply String.eqb_refl. }
  destruct (filter _ (calls files)); [contradiction | discriminate Hnil].
Qed.

(** The verdict on one table. *)
Definition verdict (files : list string) (t : string) : list SecurityIssue :=
  if JS.mem t (whitelistedTables config) then []
  else tableIssues auth now config t (usagesOf files t).

Lemma scanRLS_verdicts :
  issues (scanRLS fs auth projectRoot now config)
  = if rls_enabled_flag config
    then flat_map (verdict (sourceFiles fs projectRoot config))
           (tables (sourceFiles fs projectRoot config))
    else [].
Proof.
  destruct (rls_enabled_flag config) eqn:Hen.
  - rewrite (RLSScannerProofs.scanRLS_spec fs auth projectRoot now config Hen).
    rewrite tableUsages_grouped, flat_map_concat_map, map_map,
      <- flat_map_concat_map.
    reflexivity.
  - unfold scanRLS. rewrite Hen. reflexivity.
Qed.

Lemma tableIssues_verdict :
  forall t usages,
    let s := checkRLSStatus auth t (supabaseUrl config)
               (supabaseServiceRoleKey config) in
    tableIssues auth now config t usages
    = if negb (rlsEnabled s) then [rlsDisabledIssue now t usages s]
      else if negb (hasAuthPolicy s) && negb (has_error s)
           then [rlsNoAuthIssue now t usages] else [].
Proof.
  intros t usages s. unfold tableIssues. fold s.
  destruct (rlsEnabled s); cbn [negb andb app]; [|reflexivity].
  destruct (negb (hasAuthPolicy s) && negb (has_error s)); reflexivity.
Qed.

Lemma flat_map_NoDup :
  forall {A B} (f : A -> list B) (g : B -> option A) l,
    NoDup l ->
    (forall a b, In b (f a) -> g b = Some a) ->
    (forall a, List.length (f a) <= 1) ->
    NoDup (map g (flat_map f l)).
Proof.
  intros A B f g l Hnd Hg Hone. induction Hnd as [|a l Hnotin Hnd IH];
    [constructor|].
  cbn [flat_map]. rewrite map_app.
  specialize (Hone a). pose proof (Hg a) as Ha.
  destruct (f a) as [|b [|b' r]]; cbn [map app]; [exact IH | | cbn in Hone; lia].
  constructor; [|exact IH].
  rewrite (Ha b) by (left; reflexivity).
  intro Hin. apply in_map_iff in Hin. destruct Hin as [b2 [Hb2 Hin]].
  apply in_flat_map in Hin. destruct Hin as [a2 [Ha2 Hin]].
  rewrite (Hg _ _ Hin) in Hb2. injection Hb2 as ->. contradiction.
Qed.

(** X10: scanRLS reports the tables in the order of their first use and
    at most one issue per table: the critical one when the table's RLS
    is not known to be on, else the warning when no policy with
    auth.uid() is known and no error was met; a table is the subject of
    an issue only if a scanned file uses it and the white list does not
    hold it. *)
Theorem scanRLS_one_verdict_per_table :
  let files := sourceFiles fs projectRoot config in
  let found := issues (scanRLS fs auth projectRoot now config) in
  found = (if rls_enabled_flag config
           then flat_map (verdict files) (tables files) else [])
  /\ NoDup (map table found)
  /\ (forall i, In i found ->
        exists t,
          table i = Some t /\ In t (tables files)
          /\ JS.mem t (whitelistedTables config) = false
          /\ let s := checkRLSStatus auth t (supabaseUrl config)
                        (supabaseServiceRoleKey config) in
             if rlsEnabled s
             then i = rlsNoAuthIssue now t (usagesOf files t)
                  /\ hasAuthPolicy s = false /\ has_error s = false
             else i = rlsDisabledIssue now t (usagesOf files t) s).
Proof.
  intros files found.
  assert (Hfound : found = if rls_enabled_flag config
                           then flat_map (verdict files) (tables files)
                           else []) by apply scanRLS_verdicts.
  split; [exact Hfound|].
  destruct (rls_enabled_flag config);
    [|rewrite Hfound; split; [constructor | intros i []]].
  rewrite Hfound. split.
  - apply flat_map_NoDup.
    + apply SecretScannerProofs.uniq_NoDup.
    + intros t i Hi. unfold verdict in Hi.
      destruct (JS.mem t (whitelistedTables config)); [contradiction|].
      apply (RLSScannerProofs.tableIssues_table auth now config _ _ _ Hi).
    + intro t. unfold verdict.
      destruct (JS.mem t (whitelistedTables config)); [cbn; lia|].
      rewrite tableIssues_verdict. cbv zeta.
      destruct (negb _); [cbn; lia|]. destruct (_ && _); cbn; lia.
  - intros i Hi. apply in_flat_map in Hi. destruct Hi as [t [Ht Hi]].
    unfold verdict in Hi.
    destruct (JS.mem t (whitelistedTables config)) eqn:Hw; [contradiction|].
    exists t. rewrite tableIssues_verdict in Hi. cbv zeta in Hi |- *.
    destruct (rlsEnabled (checkRLSStatus auth t (supabaseUrl config)
                            (supabaseServiceRoleKey config))) eqn:Hs;
      cbn [negb] in Hi.
    + destruct (hasAuthPolicy _) eqn:Hp; cbn [negb andb] in Hi;
        [contradiction|].
      destruct (has_error _) eqn:He; cbn [negb] in Hi; [contradiction|].
      destruct Hi as [<-|[]]. repeat split; assumption.
    + destruct Hi as [<-|[]]. repeat split; assumption.
Qed.

End Facts.

End RLSReport.

(* ================================================================== *)
(** * The direct-database RLS scanner *)
(* ================================================================== *)

Module DirectDbProofs.
Import DirectDb Facts MapFacts.

Definition stub : list UsageStub :=
  [{| s_file := "database -> public"; s_line := 1 |}].

Lemma map_set_fst :
  forall {A} k (v : A) m,
    map fst (map_set k v m)
    = if JS.mem k (map fst m) then map fst m else (map fst m ++ [k])%list.
Proof.
  intros A k v m. induction m as [|[k' v'] r IH]; [reflexivity|].
  cbn [map_set map fst]. unfold JS.mem in *. cbn [existsb].
  destruct (String.eqb k k'); [reflexivity|].
  cbn [map fst orb]. rewrite IH.
  destruct (existsb (String.eqb k) (map fst r)); reflexivity.
Qed.

Lemma map_set_snd :
  forall {A} k (v : A) m,
    (forall b, In b m -> snd b = v) ->
    forall b, In b (map_set k v m) -> snd b = v.
Proof.
  intros A k v m. induction m as [|[k' v'] r IH]; intros H b Hb.
  - destruct Hb as [<-|[]]. reflexivity.
  - cbn [map_set] in Hb. destruct (String.eqb k k').
    + destruct Hb as [<-|Hb]; [reflexivity|]. apply H. right. exact Hb.
    + destruct Hb as [<-|Hb]; [apply (H (k', v')); left; reflexivity|].
      apply IH; [|exact Hb]. intros b' Hb'. apply H. right. exact Hb'.
Qed.

Lemma rows_result :
  forall whitelisted rows acc,
    let r := fold_left (rowStep whitelisted) rows acc in
    issues r
    = (issues acc
       ++ map rowIssue
            (filter (fun row => negb (is_whitelisted whitelisted
                                        (table_name row))) rows))%list
    /\ map fst (filteredTables r)
       = (map fst (filteredTables acc)
          ++ JS.uniq_acc (map fst (filteredTables acc))
               (map table_name rows))%list
    /\ ((forall b, In b (filteredTables acc) -> snd b = stub) ->
        forall b, In b (filteredTables r) -> snd b = stub).
Proof.
  intros whitelisted rows. induction rows as [|row rest IH]; intro acc.
  - cbn. rewrite !app_nil_r. repeat split. intros H b Hb. apply H, Hb.
  - cbn [fold_left filter map JS.uniq_acc]. cbv zeta in IH |- *.
    destruct (IH (rowStep whitelisted acc row)) as [Hi [Hk Hs]].
    rewrite Hi, Hk. clear Hi Hk.
    assert (Ht : filteredTables (rowStep whitelisted acc row)
                 = map_set (table_name row) stub (filteredTables acc)).
    { unfold rowStep. destruct (is_whitelisted _ _); reflexivity. }
    rewrite Ht in Hs |- *. split; [|split].
    + unfold rowStep. destruct (is_whitelisted _ _); cbn [issues negb map];
        [reflexivity|].
      rewrite <- app_assoc. reflexivity.
    + rewrite map_set_fst.
      destruct (JS.mem (table_name row) (map fst (filteredTables acc)));
        [reflexivity|].
      rewrite <- app_assoc. cbn [app]. do 2 f_equal.
      apply uniq_acc_ext. intro y. unfold JS.mem.
      rewrite existsb_app. cbn [existsb]. rewrite orb_false_r.
      apply orb_comm.
    + intros H b Hb. apply Hs; [|exact Hb].
      apply map_set_snd. exact H.
Qed.

Lemma stub_bindings :
  forall m : list (string * list UsageStub),
    (forall b, In b m -> snd b = stub) ->
    m = map (fun t => (t, stub)) (map fst m).
Proof.
  induction m as [|[k v] l IHl]; intro Hs; [reflexivity|].
  cbn [map fst]. f_equal.
  - f_equal. apply (Hs (k, v)). left. reflexivity.
  - apply IHl. intros b Hb. apply Hs. right. exact Hb.
Qed.

(** X11: when the direct-database scanner gets the catalogue, it reports
    one issue per row whose table is not white-listed, in row order, and
    returns every table of the catalogue, white-listed or not, once, in
    the order of its first row, each with the one stub usage. *)
Theorem scanRLS_reports_each_row :
  forall (db : Database) (databaseUrl : string)
         (whitelisted : option (list string)) (rows : list Row),
    JS.truthy databaseUrl = true ->
    connect db = None ->
    query db = QueryRows rows ->
    let r := scanRLS db databaseUrl whitelisted in
    issues r
    = map rowIssue
        (filter (fun row => negb (is_whitelisted whitelisted (table_name row)))
           rows)
    /\ filteredTables r
       = map (fun t => (t, stub)) (JS.uniq (map table_name rows)).
Proof.
  intros db databaseUrl whitelisted rows Hurl Hc Hq r. subst r.
  unfold scanRLS. rewrite Hurl, Hc, Hq. cbn [negb].
  destruct (rows_result whitelisted rows
              {| issues := []; filteredTables := [] |}) as [Hi [Hk Hs]].
  cbv zeta in Hi, Hk, Hs. cbn [issues filteredTables map app] in Hi, Hk, Hs.
  split; [exact Hi|].
  fold (JS.uniq (map table_name rows)) in Hk. rewrite <- Hk.
  apply stub_bindings. apply Hs. intros b [].
Qed.

Lemma scanRLS_reports_each_row_witness :
  let db := {| connect_ssl := ConnectFails "SSL off";
               connect_plain := Connected;
               query := QueryRows
                 [ {| table_name := "orders"; rls_enabled := false;
                      policy_count := Some 0 |};
                   {| table_name := "audit"; rls_enabled := true;
                      policy_count := Some 0 |};
                   {| table_name := "users"; rls_enabled := true;
                      policy_count := Some 2 |} ] |} in
  let r := scanRLS db "postgres://db" (Some ["audit"]) in
  map severity (issues r) = [critical; info]
  /\ map fst (filteredTables r) = ["orders"; "audit"; "users"].
Proof.
  cbv zeta.
  destruct (scanRLS_reports_each_row
              {| connect_ssl := ConnectFails "SSL off";
                 connect_plain := Connected;
                 query := QueryRows
                   [ {| table_name := "orders"; rls_enabled := false;
                        policy_count := Some 0 |};
                     {| table_name := "audit"; rls_enabled := true;
                        policy_count := Some 0 |};
                     {| table_name := "users"; rls_enabled := true;
                        policy_count := Some 2 |} ] |}
              "postgres://db" (Some ["audit"]) _
              eq_refl eq_refl eq_refl) as [Hi Hk].
  cbv zeta in Hi, Hk. rewrite Hi, Hk. split; reflexivity.
Defined.

(** X12: when the direct-database scanner has no URL, cannot connect or
    cannot query, it reports exactly one issue, about no table, and no
    table at all: the warning for a missing URL, else a critical issue
    that carries the fault's message. *)
Theorem scanRLS_failure_is_one_issue :
  forall (db : Database) (databaseUrl : string)
         (whitelisted : option (list string)),
    JS.truthy databaseUrl = false
    \/ connect db <> None
    \/ (exists msg, query db = QueryFails msg) ->
    let r := scanRLS db databaseUrl whitelisted in
    filteredTables r = []
    /\ exists i,
         issues r = [i] /\ table i = None /\ category i = rls_check
         /\ (severity i = warning <-> JS.truthy databaseUrl = false)
         /\ (JS.truthy databaseUrl = true ->
             exists msg, i = connectionErrorIssue msg
                         /\ (connect db = Some msg
                             \/ connect db = None
                                /\ query db = QueryFails msg)).
Proof.
  intros db databaseUrl whitelisted H r. subst r. unfold scanRLS.
  destruct (JS.truthy databaseUrl) eqn:Hurl; cbn [negb].
  - destruct (connect db) as [msg|] eqn:Hc.
    + split; [reflexivity|]. exists (connectionErrorIssue msg).
      repeat split; try discriminate.
      intros _. exists msg. split; [reflexivity | left; reflexivity].
    + destruct H as [H|[H|[msg H]]]; [discriminate H | congruence |].
      rewrite H. split; [reflexivity|]. exists (connectionErrorIssue msg).
      repeat split; try discriminate.
      intros _. exists msg. split; [reflexivity|]. right. split; reflexivity.
  - split; [reflexivity|]. exists missingUrlIssue.
    repeat split; discriminate.
Qed.

Lemma scanRLS_failure_is_one_issue_witness :
  let db := {| connect_ssl := ConnectFails "SSL required";
               connect_plain := ConnectFails "timeout";
               query := QueryRows [] |} in
  (JS.truthy "postgres://db" = false
   \/ connect db <> None
   \/ (exists msg, query db = QueryFails msg))
  /\ filteredTables (scanRLS db "postgres://db" None) = []
  /\ exists i,
       issues (scanRLS db "postgres://db" None) = [i]
       /\ table i = None
       /\ i = connectionErrorIssue "timeout".
Proof.
  cbv zeta.
  assert (H : JS.truthy "postgres://db" = false
              \/ connect {| connect_ssl := ConnectFails "SSL required";
                            connect_plain := ConnectFails "timeout";
                            query := QueryRows [] |} <> None
              \/ (exists msg,
                     query {| connect_ssl := ConnectFails "SSL required";
                              connect_plain := ConnectFails "timeout";
                              query := QueryRows [] |} = QueryFails msg)).
  { right. left. vm_compute. discriminate. }
  split; [exact H|].
  destruct (scanRLS_failure_is_one_issue _ "postgres://db" None H)
    as [Hf [i [Hi [Ht _]]]].
  split; [exact Hf|]. exists i. split; [exact Hi|]. split; [exact Ht|].
  vm_compute in Hi. injection Hi as Hi. symmetry. exact Hi.
Defined.

End DirectDbProofs.

(* ================================================================== *)
(** * What the SQL-injection scanner reports for one file *)
(* ================================================================== *)

Module SQLInjectionReport.
Import SQLInjection Facts SQLInjectionProofs StringFacts.

Section Facts.
Context {engine : RegExpEngine}.
Variable now : Z.
Variable rel : string.

(** X13: within one file no two issues of the SQL-injection scanner
    share an id. *)
Theorem scanContent_ids_distinct :
  forall content : string, NoDup (map id (scanContent now rel content)).
Proof.
  intro content. unfold scanContent.
  destruct (wholeFilePass_added now rel content (perLinePass now rel content))
    as [extra [Hacc [Hextra Hlines]]].
  rewrite Hacc, map_app. rewrite perLinePass_spec in *.
  apply NoDup_app.
  - apply candidates_NoDup.
  - clear Hacc. induction extra as [|i r IH]; [constructor|].
    cbn [map] in Hlines |- *. inversion Hlines as [|y l Hnotin Hnd]; subst.
    constructor.
    + intro Hin. apply in_map_iff in Hin. destruct Hin as [j [Hj Hin]].
      apply Hnotin. apply in_map_iff. exists j. split; [|exact Hin].
      destruct (Hextra i (or_introl eq_refl)) as [p [L [Hp [Hi _]]]].
      destruct (Hextra j (or_intror Hin)) as [p' [L' [Hp' [Hj' _]]]].
      subst i j. cbn [id multiIssue line] in Hj |- *.
      apply multiIssueId_inj in Hj; [|assumption|assumption].
      destruct Hj as [_ ->]. reflexivity.
    + apply IH; [|exact Hnd]. intros j Hj. apply Hextra. right. exact Hj.
  - intros x Hx Hx'.
    apply in_map_iff in Hx. destruct Hx as [i [Hi Hin]].
    apply in_map_iff in Hx'. destruct Hx' as [j [Hj Hin']].
    apply candidates_from_In in Hin.
    destruct Hin as [n [text [p [_ [Hp Heq]]]]].
    destruct (Hextra j Hin') as [p' [L' [Hp' [Hj' _]]]].
    subst i j. cbn [id lineIssue multiIssue] in Hi, Hj. rewrite <- Hi in Hj.
    exact (multi_is_no_line_id _ _ _ _ _ Hp' Hp Hj).
Qed.

(** The ground of an issue: a pattern, and a text that it matches at the
    line the issue names. *)
Definition grounded (content : string) (i : SecurityIssue) : Prop :=
  exists p L,
    In p SQL_INJECTION_PATTERNS
    /\ 1 <= L <= List.length (JS.splitLines content)
    /\ ((exists text,
           nth_error (JS.splitLines content) (L - 1) = Some text
           /\ regex_test (mkRegExp (source (regex p)) (flags (regex p))) text
              = true
           /\ i = lineIssue now p rel L text)
        \/ (exists index,
              In index (regex_exec_indices (fullRegex p) content)
              /\ L = JS.count_newlines (JS.take index content) + 1
              /\ i = multiIssue now p rel L)).

Lemma candidates_grounded :
  forall lines k i,
    In i (flat_map (lineCandidates now rel) (JS.indexed_from k lines)) ->
    exists n text p,
      nth_error lines n = Some text
      /\ In p (hits text)
      /\ i = lineIssue now p rel (k + n + 1) text.
Proof.
  induction lines as [|t r IH]; intros k i H; [contradiction|].
  cbn [JS.indexed_from flat_map] in H.
  apply in_app_or in H. destruct H as [H|H].
  - unfold lineCandidates in H. cbn [fst snd] in H.
    apply in_map_iff in H. destruct H as [p [Hi Hp]].
    exists 0, t, p. rewrite Nat.add_0_r.
    split; [reflexivity|]. split; [exact Hp | symmetry; exact Hi].
  - apply IH in H. destruct H as [n [text [p [Hn [Hp Hi]]]]].
    exists (S n), text, p. split; [exact Hn|]. split; [exact Hp|].
    rewrite Hi. f_equal. lia.
Qed.

(** X14: the SQL-injection scanner reports nothing it has not matched:
    each issue of a file names a line of that file and a pattern of the
    table that matches the text of that line, or that matches the whole
    file from an offset on that line; it is critical and carries the
    file's path. *)
Theorem scanContent_issues_grounded :
  forall (content : string) (i : SecurityIssue),
    In i (scanContent now rel content) ->
    grounded content i
    /\ severity i = critical
    /\ category i = general
    /\ file i = Some rel.
Proof.
  intros content i Hi.
  assert (Hg : grounded content i).
  { revert i Hi. unfold scanContent, wholeFilePass.
    apply (fold_left_invariant
             (fun acc => forall i, In i acc -> grounded content i)).
    - intros i Hi. rewrite perLinePass_spec in Hi.
      apply candidates_grounded in Hi.
      destruct Hi as [n [text [p [Hn [Hp Hi]]]]].
      assert (Hlt : n < List.length (JS.splitLines content))
        by (apply nth_error_Some; rewrite Hn; discriminate).
      exists p, (n + 1). split; [eapply hits_In; exact Hp|].
      split; [lia|]. left. exists text.
      replace (n + 1 - 1) with n by lia. split; [exact Hn|].
      split; [|exact Hi]. unfold hits in Hp. apply filter_In in Hp.
      apply Hp.
    - intros acc p Hacc Hp. unfold wholeFileStep.
      assert (Hall : forall idx,
                 In idx (regex_exec_indices (fullRegex p) content) ->
                 In idx (regex_exec_indices (fullRegex p) content))
        by (intros idx H; exact H).
      revert Hall.
      generalize (regex_exec_indices (fullRegex p) content) at 1 3.
      intros l Hall. revert acc Hacc.
      induction l as [|idx r IH]; intros acc Hacc; [exact Hacc|].
      cbn [fold_left]. apply IH.
      + intros idx' H. apply Hall. right. exact H.
      + intros i Hi. unfold matchStep in Hi.
        destruct (negb _ && negb _); [|apply Hacc; exact Hi].
        apply in_app_or in Hi. destruct Hi as [Hi|[<-|[]]];
          [apply Hacc; exact Hi|].
        exists p, (JS.count_newlines (JS.take idx content) + 1).
        split; [exact Hp|]. split.
        * rewrite splitLines_length.
          pose proof (count_newlines_take content idx). lia.
        * right. exists idx. split; [apply Hall; left; reflexivity|].
          split; reflexivity. }
  split; [exact Hg|].
  destruct Hg as [p [L [_ [_ [[text [_ [_ ->]]]|[index [_ [_ ->]]]]]]]];
    repeat split.
Qed.

End Facts.

Lemma scanContent_issues_grounded_witness :
  exists i,
    In i (scanContent (engine := MiniRegex.engine) 0%Z "src/db.ts"
            SQLInjectionProofs.two_lines)
    /\ line i = Some 1
    /\ severity i = critical
    /\ file i = Some "src/db.ts".
Proof.
  set (l := scanContent (engine := MiniRegex.engine) 0%Z "src/db.ts"
              SQLInjectionProofs.two_lines).
  assert (Hl : exists i r, l = i :: r /\ line i = Some 1).
  { vm_compute. eexists. eexists. split; reflexivity. }
  destruct Hl as [i [r [Hl Hline]]]. exists i.
  assert (Hin : In i l) by (rewrite Hl; left; reflexivity).
  destruct (scanContent_issues_grounded (engine := MiniRegex.engine)
              0%Z "src/db.ts" SQLInjectionProofs.two_lines i Hin)
    as [_ [Hs [_ Hf]]].
  repeat split; assumption.
Defined.

End SQLInjectionReport.

(* ================================================================== *)
(** * What the API key guardian reports *)
(* ================================================================== *)

Module APIKeyGuardianProofs.
Import APIKeyGuardian Facts.

Lemma indexed_from_In :
  forall {A} (l : list A) k n x,
    In (n, x) (JS.indexed_from k l) ->
    k <= n /\ nth_error l (n - k) = Some x.
Proof.
  intros A l. induction l as [|y r IH]; intros k n x H; [contradiction|].
  cbn [JS.indexed_from] in H. destruct H as [H|H].
  - injection H as -> ->. split; [lia|]. rewrite Nat.sub_diag. reflexivity.
  - apply IH in H. destruct H as [Hk Hn]. split; [lia|].
    replace (n - k) with (S (n - S k)) by lia. exact Hn.
Qed.

Lemma has_id_In :
  forall x l, SQLInjection.has_id x l = false -> ~ In x (map id l).
Proof.
  intros x l H Hin. apply in_map_iff in Hin. destruct Hin as [i [Hi Hin]].
  unfold SQLInjection.has_id in H.
  assert (Ht : existsb (fun i => String.eqb (id i) x) l = true).
  { apply existsb_exists. exists i. split; [exact Hin|].
    rewrite Hi. apply String.eqb_refl. }
  rewrite Ht in H. discriminate H.
Qed.

Section Facts.
Context {engine : RegExpEngine}.
Variable fs : FileSystem.
Variable projectRoot : string.
Variable now : Z.

(** The ground of a code issue: a file that was read and counts as
    client-side for a rule, and a line of it that a code pattern of the
    rule matches. *)
Definition grounded (rules : list APIKeyRule) (i : SecurityIssue) : Prop :=
  exists filePath content rule codePattern n text,
    readFileSync fs filePath = Some content
    /\ In rule rules
    /\ isClientSideFile (relative fs filePath) content
         (clientFilePatterns rule) = true
    /\ In codePattern (codePatterns rule)
    /\ nth_error (JS.splitLines content) n = Some text
    /\ regex_test (mkRegExp (source codePattern) (flags codePattern)) text
       = true
    /\ i = codeIssue now rule (relative fs filePath) n text.

(** What the loops of checkCodeForAPIKeys keep true of [issues]. *)
Definition sound (rules : list APIKeyRule) (acc : list SecurityIssue) : Prop :=
  NoDup (map id acc) /\ forall i, In i acc -> grounded rules i.

Lemma codeFileStep_sound :
  forall rules acc filePath,
    sound rules acc -> sound rules (codeFileStep fs now rules acc filePath).
Proof.
  intros rules acc filePath Hacc. unfold codeFileStep.
  destruct (readFileSync fs filePath) as [content|] eqn:Hread; [|exact Hacc].
  assert (Hsub : forall rule, In rule rules -> In rule rules)
    by (intros rule H; exact H).
  revert Hsub. generalize rules at 1 4. intros rs Hsub. revert acc Hacc.
  induction rs as [|rule rs IH]; intros acc Hacc; [exact Hacc|].
  cbn [fold_left]. apply IH; [intros r Hr; apply Hsub; right; exact Hr|].
  assert (Hrule : In rule rules) by (apply Hsub; left; reflexivity).
  unfold codeRuleStep.
  destruct (isClientSideFile (relative fs filePath) content
              (clientFilePatterns rule)) eqn:Hclient; cbn [negb];
    [|exact Hacc].
  apply fold_left_invariant; [exact Hacc|].
  intros acc1 codePattern Hacc1 Hpat.
  apply fold_left_invariant; [exact Hacc1|].
  intros acc2 [n text] [Hnd Hg] Hline. unfold codeLineStep. cbn [fst snd].
  destruct (regex_test _ text) eqn:Htest; [|split; assumption].
  destruct (SQLInjection.has_id _ acc2) eqn:Hknown; [split; assumption|].
  split.
  - rewrite map_app. apply NoDup_app; [exact Hnd | repeat constructor; intros [] |].
    intros x Hx [<-|[]]. exact (has_id_In _ _ Hknown Hx).
  - intros i Hi. apply in_app_or in Hi. destruct Hi as [Hi|[<-|[]]];
      [apply Hg; exact Hi|].
    apply indexed_from_In in Hline. destruct Hline as [_ Hline].
    rewrite Nat.sub_0_r in Hline.
    exists filePath, content, rule, codePattern, n, text.
    repeat split; assumption.
Qed.

(** X15: the code check of the API key guardian reports no id twice,
    and reports nothing it has not matched: each issue is the warning
    for a line of a file that was read and counts as client-side for a
    rule, matched by one of the rule's code patterns. *)
Theorem checkCodeForAPIKeys_sound :
  forall (rules : list APIKeyRule)
         (scanDirs extensions excludeDirs : list string),
    let found := checkCodeForAPIKeys fs projectRoot now rules scanDirs
                   extensions excludeDirs in
    NoDup (map id found)
    /\ forall i, In i found ->
         grounded rules i /\ severity i = warning
         /\ category i = secret_leak.
Proof.
  intros rules scanDirs extensions excludeDirs found.
  assert (H : sound rules found).
  { subst found. unfold checkCodeForAPIKeys.
    apply fold_left_invariant; [split; [constructor | intros i []]|].
    intros acc dir Hacc _.
    destruct (existsSync fs (path_join projectRoot dir)); [|exact Hacc].
    apply fold_left_invariant; [exact Hacc|].
    intros acc1 ext Hacc1 _.
    apply fold_left_invariant; [exact Hacc1|].
    intros acc2 filePath Hacc2 _. apply codeFileStep_sound. exact Hacc2. }
  destruct H as [Hnd Hg]. split; [exact Hnd|].
  intros i Hi. specialize (Hg i Hi). split; [exact Hg|].
  destruct Hg as [f [c [r [p [n [t [_ [_ [_ [_ [_ [_ ->]]]]]]]]]]]].
  split; reflexivity.
Qed.

(** X16: a file that is client-side for no rule adds nothing to the
    code check, whatever it holds. *)
Theorem server_file_adds_no_issue :
  forall (rules : list APIKeyRule) (acc : list SecurityIssue)
         (filePath : string),
    (forall content rule,
        readFileSync fs filePath = Some content -> In rule rules ->
        isClientSideFile (relative fs filePath) content
          (clientFilePatterns rule) = false) ->
    codeFileStep fs now rules acc filePath = acc.
Proof.
  intros rules acc filePath H. unfold codeFileStep.
  destruct (readFileSync fs filePath) as [content|]; [|reflexivity].
  specialize (H content).
  assert (Hall : forall rule, In rule rules ->
                   isClientSideFile (relative fs filePath) content
                     (clientFilePatterns rule) = false)
    by (intros rule Hr; apply H; [reflexivity | exact Hr]).
  clear H. induction rules as [|rule rs IH]; [reflexivity|].
  cbn [fold_left]. unfold codeRuleStep at 2.
  rewrite (Hall rule (or_introl eq_refl)). cbn [negb].
  apply IH. intros r Hr. apply Hall. right. exact Hr.
Qed.

(** The ground of an env issue: a line of one of the four env files that
    starts with NEXT_PUBLIC_ and that a key pattern of a rule matches. *)
Definition env_grounded (rules : list APIKeyRule) (i : SecurityIssue)
  : Prop :=
  exists envFile content rule keyPattern n rawLine,
    In envFile [".env"; ".env.local"; ".env.development"; ".env.production"]
    /\ readFileSync fs (path_join projectRoot envFile) = Some content
    /\ In rule rules
    /\ In keyPattern (envKeyPatterns rule)
    /\ nth_error (JS.splitLines content) n = Some rawLine
    /\ JS.startsWith "NEXT_PUBLIC_" (JS.trim rawLine) = true
    /\ regex_test (mkRegExp keyPattern "i") (JS.trim rawLine) = true
    /\ i = envIssue now rule envFile n (JS.trim rawLine).

(** X17: the env check of the API key guardian reports only lines of
    the four env files that start with NEXT_PUBLIC_ and that a key
    pattern of a rule matches; each issue is critical, and its key is
    the text of the line before its first equals sign. *)
Theorem checkEnvForAPIKeys_sound :
  forall (rules : list APIKeyRule) (i : SecurityIssue),
    In i (checkEnvForAPIKeys fs projectRoot now rules) ->
    env_grounded rules i
    /\ severity i = critical
    /\ exists trimmed,
         JS.startsWith "NEXT_PUBLIC_" trimmed = true
         /\ key i = Some (match JS.indexOf "="%char trimmed with
                          | Some k => JS.take k trimmed
                          | None => ""
                          end).
Proof.
  intros rules i Hi.
  assert (Hg : env_grounded rules i).
  { unfold checkEnvForAPIKeys in Hi. apply in_flat_map in Hi.
    destruct Hi as [envFile [Hfile Hi]].
    destruct (existsSync fs (path_join projectRoot envFile));
      [|contradiction].
    destruct (readFileSync fs (path_join projectRoot envFile))
      as [content|] eqn:Hread; [|contradiction].
    apply in_flat_map in Hi. destruct Hi as [[n rawLine] [Hline Hi]].
    apply indexed_from_In in Hline. destruct Hline as [_ Hline].
    rewrite Nat.sub_0_r in Hline.
    unfold envLineIssues in Hi. cbn [fst snd] in Hi.
    destruct (negb (JS.truthy (JS.trim rawLine))
              || JS.startsWith "#" (JS.trim rawLine)); [contradiction|].
    destruct (JS.startsWith "NEXT_PUBLIC_" (JS.trim rawLine)) eqn:Hpub;
      cbn [negb] in Hi; [|contradiction].
    apply in_flat_map in Hi. destruct Hi as [rule [Hrule Hi]].
    apply in_flat_map in Hi. destruct Hi as [keyPattern [Hpat Hi]].
    destruct (regex_test (mkRegExp keyPattern "i") (JS.trim rawLine))
      eqn:Htest; [|contradiction].
    destruct Hi as [<-|[]].
    exists envFile, content, rule, keyPattern, n, rawLine.
    repeat split; assumption. }
  split; [exact Hg|].
  destruct Hg as [f [c [r [p [n [t [_ [_ [_ [_ [_ [Hpub [_ ->]]]]]]]]]]]]].
  split; [reflexivity|]. exists (JS.trim t). split; [exact Hpub|].
  cbn [key envIssue]. unfold upToEquals.
  destruct (JS.indexOf "="%char (JS.trim t)) as [k|]; [|reflexivity].
  rewrite Nat.add_0_r. reflexivity.
Qed.

End Facts.

Definition guarded : FileSystem := {|
  glob := fun p _ =>
    if String.eqb p "**/*.ts" then ["/app/src/server/db.ts"] else [];
  readFileSync := fun p =>
    if String.eqb p "/app/.env" then Some "NEXT_PUBLIC_OPENAI_API_KEY=sk-1"
    else if String.eqb p "/app/src/server/db.ts"
         then Some "const k = process.env.OPENAI_API_KEY;"
    else None;
  existsSync := fun p => String.eqb p "/app/.env" || String.eqb p "/app/src";
  relative := JS.drop 5
|}.

Lemma server_file_adds_no_issue_witness :
  (forall content rule,
      readFileSync guarded "/app/src/server/db.ts" = Some content ->
      In rule DEFAULT_API_KEY_RULES ->
      isClientSideFile (engine := MiniRegex.engine)
        (relative guarded "/app/src/server/db.ts") content
        (clientFilePatterns rule) = false)
  /\ codeFileStep (engine := MiniRegex.engine) guarded 0%Z
       DEFAULT_API_KEY_RULES [] "/app/src/server/db.ts" = [].
Proof.
  assert (H : forall content rule,
             readFileSync guarded "/app/src/server/db.ts" = Some content ->
             In rule DEFAULT_API_KEY_RULES ->
             isClientSideFile (engine := MiniRegex.engine)
               (relative guarded "/app/src/server/db.ts") content
               (clientFilePatterns rule) = false).
  { intros content rule Hread Hrule.
    assert (Hc : content = "const k = process.env.OPENAI_API_KEY;")
      by (vm_compute in Hread; congruence).
    subst content.
    destruct Hrule as [<-|[<-|[<-|[<-|[]]]]]; vm_compute; reflexivity. }
  split; [exact H|].
  apply (server_file_adds_no_issue (engine := MiniRegex.engine) guarded 0%Z
           DEFAULT_API_KEY_RULES [] "/app/src/server/db.ts" H).
Defined.

Lemma checkEnvForAPIKeys_sound_witness :
  exists i,
    In i (checkEnvForAPIKeys (engine := MiniRegex.engine) guarded "/app" 0%Z
            DEFAULT_API_KEY_RULES)
    /\ key i = Some "NEXT_PUBLIC_OPENAI_API_KEY"
    /\ severity i = critical.
Proof.
  set (l := checkEnvForAPIKeys (engine := MiniRegex.engine) guarded "/app"
              0%Z DEFAULT_API_KEY_RULES).
  assert (Hl : exists i r, l = i :: r
                           /\ key i = Some "NEXT_PUBLIC_OPENAI_API_KEY").
  { vm_compute. eexists. eexists. split; reflexivity. }
  destruct Hl as [i [r [Hl Hkey]]]. exists i.
  assert (Hin : In i l) by (rewrite Hl; left; reflexivity).
  destruct (checkEnvForAPIKeys_sound (engine := MiniRegex.engine) guarded
              "/app" 0%Z DEFAULT_API_KEY_RULES i Hin) as [_ [Hs _]].
  repeat split; assumption.
Defined.

End APIKeyGuardianProofs.

(* ================================================================== *)
(** * What the reporter shows *)
(* ================================================================== *)

Module ReporterProofs.
Import Reporter Facts.

Definition has (s : Severity) (i : SecurityIssue) : bool :=
  Severity_eqb (severity i) s.

Definition bySeverityOrder (l : list SecurityIssue) : list SecurityIssue :=
  (filter (has critical) l ++ filter (has warning) l
   ++ filter (has info) l)%list.

Lemma insert_grouped :
  forall (x : SecurityIssue) (c w n : list SecurityIssue),
    Forall (fun i => severity i = critical) c ->
    Forall (fun i => severity i = warning) w ->
    Forall (fun i => severity i = info) n ->
    insert bySeverity x (c ++ w ++ n)
    = match severity x with
      | critical => (x :: c) ++ w ++ n
      | warning => c ++ (x :: w) ++ n
      | info => c ++ w ++ (x :: n)
      end%list.
Proof.
  intros x c w n Hc Hw Hn.
  assert (Hn' : insert bySeverity x n
                = match severity x with
                  | info => x :: n
                  | _ => insert bySeverity x n
                  end).
  { destruct (severity x) eqn:Hx; try reflexivity.
    destruct Hn as [|y r Hy _]; [reflexivity|].
    cbn [insert]. unfold bySeverity. rewrite Hx, Hy. reflexivity. }
  assert (Hfront : forall l, Forall (fun i => severity i = info) l ->
             severity x <> info ->
             insert bySeverity x l = x :: l).
  { intros l Hl Hx. destruct Hl as [|y r Hy _]; [reflexivity|].
    cbn [insert]. unfold bySeverity. rewrite Hy.
    destruct (severity x); [reflexivity | reflexivity | congruence]. }
  assert (Hw' : insert bySeverity x (w ++ n)%list
                = match severity x with
                  | critical => x :: w ++ n
                  | warning => x :: w ++ n
                  | info => w ++ x :: n
                  end%list).
  { induction Hw as [|y r Hy Hr IH].
    - cbn [app]. destruct (severity x) eqn:Hx.
      + apply Hfront; [exact Hn | congruence].
      + apply Hfront; [exact Hn | congruence].
      + rewrite Hn'. reflexivity.
    - cbn [app insert]. unfold bySeverity at 1. rewrite Hy.
      destruct (severity x) eqn:Hx; cbn; try reflexivity.
      rewrite IH. reflexivity. }
  induction Hc as [|y r Hy Hr IH].
  - cbn [app]. rewrite Hw'. destruct (severity x); reflexivity.
  - cbn [app insert]. unfold bySeverity at 1. rewrite Hy.
    destruct (severity x) eqn:Hx; cbn; try reflexivity.
    + rewrite IH. reflexivity.
    + rewrite IH. reflexivity.
Qed.

Lemma filter_has : forall s l, Forall (fun i => severity i = s) (filter (has s) l).
Proof.
  intros s l. apply Forall_forall. intros i Hi. apply filter_In in Hi.
  destruct Hi as [_ Hi]. unfold has in Hi.
  destruct (severity i), s; try discriminate Hi; reflexivity.
Qed.

(** X18: the order in which reportToTerminal shows the issues: all the
    critical ones, then the warnings, then the rest, each group in the
    order of the scan; no issue is dropped or shown twice. *)
Theorem sortedIssues_groups :
  forall issues : list SecurityIssue,
    sortedIssues issues = bySeverityOrder issues
    /\ List.length (sortedIssues issues) = List.length issues
    /\ forall i, In i (sortedIssues issues) <-> In i issues.
Proof.
  intro issues.
  assert (H : sortedIssues issues = bySeverityOrder issues).
  { unfold sortedIssues, sort, bySeverityOrder.
    induction issues as [|x r IH]; [reflexivity|].
    cbn [fold_right]. rewrite IH.
    rewrite insert_grouped by apply filter_has.
    cbn [filter]. destruct (severity x) eqn:Hx; unfold has; rewrite Hx;
      reflexivity. }
  rewrite H. unfold bySeverityOrder. split; [reflexivity|]. split.
  - rewrite !length_app. clear H.
    induction issues as [|x r IH]; [reflexivity|].
    cbn [filter]. destruct (severity x) eqn:Hx; unfold has in *; rewrite Hx;
      cbn [Severity_eqb List.length]; lia.
  - intro i. rewrite !in_app_iff, !filter_In. unfold has.
    destruct (severity i); cbn [Severity_eqb]; intuition discriminate.
Qed.

Lemma b_issues_same :
  forall (now : Z) (issues : list SecurityIssue),
    b_issues (formatIssuesForBrowser now issues) = issues.
Proof.
  intros now issues. cbn [formatIssuesForBrowser b_issues].
  induction issues as [|x l IH]; [reflexivity|].
  cbn [map]. rewrite IH. destruct x; reflexivity.
Qed.

(** X19: in the report for the browser the three counts of the summary
    add up to issueCount, which is the number of issues sent, and the
    issues are sent unchanged and in order. *)
Theorem formatIssuesForBrowser_counts :
  forall (now : Z) (issues : list SecurityIssue),
    let r := formatIssuesForBrowser now issues in
    issueCount r
    = s_critical (summary r) + s_warning (summary r) + s_info (summary r)
    /\ issueCount r = List.length (b_issues r)
    /\ b_issues r = issues.
Proof.
  intros now issues r. subst r. rewrite b_issues_same.
  cbn [formatIssuesForBrowser issueCount summary s_critical s_warning s_info].
  split; [|split; reflexivity].
  unfold count. induction issues as [|x l IH]; [reflexivity|].
  cbn [filter List.length].
  destruct (severity x); cbn [Severity_eqb List.length]; lia.
Qed.

End ReporterProofs.

(* ================================================================== *)
(** * What the recipe printer prints *)
(* ================================================================== *)

Module SQLRecipesProofs.
Import Reporter SQLRecipes Facts.

Lemma uniq_acc_complete :
  forall l seen x,
    In x l -> JS.mem x seen = false -> In x (JS.uniq_acc seen l).
Proof.
  induction l as [|y r IH]; intros seen x Hin Hs; [contradiction|].
  cbn [JS.uniq_acc]. destruct (String.eqb_spec x y) as [->|Hne].
  - rewrite Hs. left. reflexivity.
  - destruct Hin as [Heq|Hin]; [congruence|].
    destruct (JS.mem y seen); [apply IH; assumption|].
    right. apply IH; [exact Hin|].
    unfold JS.mem in *. cbn [existsb]. rewrite Hs.
    destruct (String.eqb_spec x y); [contradiction | reflexivity].
Qed.

Lemma uniq_In : forall l x, In x (JS.uniq l) <-> In x l.
Proof.
  intros l x. split.
  - intro H. apply SecretScannerProofs.uniq_acc_In in H. apply H.
  - intro H. apply uniq_acc_complete; [exact H | reflexivity].
Qed.

Definition alterLine (t : string) : string :=
  green ++ "  ALTER TABLE public." ++ t ++ " ENABLE ROW LEVEL SECURITY;"
  ++ reset.

Definition is_alter (l : string) : bool :=
  JS.startsWith (green ++ "  ALTER TABLE") l.

Lemma recipeLines_alter :
  forall t, filter is_alter (recipeLines t) = [alterLine t].
Proof. intro t. reflexivity. Qed.

(** X20: printRLSRecipes prints a recipe for each table that an issue
    of category rls-missing or rls-check names, once, in the order in
    which the issues first name it, and for no other table; it prints
    nothing when there is no such table. *)
Theorem printRLSRecipes_tables :
  forall issues : list SecurityIssue,
    let names := tableNames issues in
    NoDup names
    /\ (forall t, In t names <->
          t <> ""
          /\ exists i, In i issues
                       /\ (category i = rls_missing \/ category i = rls_check)
                       /\ table i = Some t)
    /\ filter is_alter (printRLSRecipes issues) = map alterLine names
    /\ List.length (printRLSRecipes issues)
       = match names with [] => 0 | _ => 6 + 25 * List.length names end.
Proof.
  intros issues names.
  split; [apply SecretScannerProofs.uniq_NoDup|]. split.
  - intro t. subst names. unfold tableNames. rewrite uniq_In.
    unfold defined. rewrite in_flat_map. split.
    + intros [o [Ho Ht]]. apply in_map_iff in Ho.
      destruct Ho as [i [Hi Hin]]. unfold rlsIssues in Hin.
      apply filter_In in Hin. destruct Hin as [Hin Hcat].
      destruct o as [t'|]; [|contradiction].
      destruct (JS.truthy t') eqn:Htr; [|contradiction].
      destruct Ht as [->|[]]. split.
      * intro He. subst t. discriminate Htr.
      * exists i. split; [exact Hin|]. split; [|exact Hi].
        destruct (category i); cbn in Hcat; try discriminate Hcat;
          [left | right]; reflexivity.
    + intros [Hne [i [Hin [Hcat Ht]]]]. exists (Some t). split.
      * apply in_map_iff. exists i. split; [exact Ht|].
        unfold rlsIssues. apply filter_In. split; [exact Hin|].
        destruct Hcat as [-> | ->]; reflexivity.
      * destruct t; [congruence|]. left. reflexivity.
  - assert (Hempty : rlsIssues issues = [] -> names = []).
    { intro H. subst names. unfold tableNames. rewrite H. reflexivity. }
    unfold printRLSRecipes. fold names.
    destruct (rlsIssues issues) as [|i0 r0];
      [rewrite Hempty by reflexivity; split; reflexivity|].
    clear Hempty. destruct names as [|t0 ts] eqn:Hn;
      [split; reflexivity|].
    rewrite <- Hn. clear Hn. split.
    + rewrite !filter_app. cbn [filter app].
      change (is_alter "") with false.
      replace (is_alter (cyan ++ bold ++ "  📝 OTOMATİK SQL REÇETELERİ"
                         ++ reset)) with false by reflexivity.
      replace (is_alter (dim ++ "  Aşağıdaki SQL'i Supabase SQL Editor'a yapıştırın:"
                         ++ reset)) with false by reflexivity.
      replace (is_alter (dim ++ "  ⚠️  " ++ JS.dq ++ "user_id" ++ JS.dq
                         ++ " sütununu tablolarınıza göre düzenleyin."
                         ++ reset)) with false by reflexivity.
      cbn [app]. rewrite app_nil_r.
      induction names as [|t ts' IH]; [reflexivity|].
      cbn [flat_map map]. rewrite filter_app, recipeLines_alter, IH.
      reflexivity.
    + rewrite !length_app. cbn [List.length].
      assert (Hl : List.length (flat_map recipeLines names)
                   = 25 * List.length names).
      { induction names as [|t ts' IH]; [reflexivity|].
        cbn [flat_map]. rewrite length_app, IH. cbn [List.length recipeLines].
        lia. }
      rewrite Hl. lia.
Qed.

End SQLRecipesProofs.

(* ================================================================== *)
(** * What the file walker returns *)
(* ================================================================== *)

Module WalkerProofs.
Import Walker.

(** Induction on a tree of entries. *)
Fixpoint Entry_tree_ind (P : Entry -> Prop)
  (Hfile : forall name, P (File name))
  (Hother : forall name, P (Other name))
  (Hclosed : forall name, P (Directory name None))
  (Hopen : forall name entries,
      Forall P entries -> P (Directory name (Some entries)))
  (e : Entry) : P e :=
  match e with
  | File name => Hfile name
  | Other name => Hother name
  | Directory name None => Hclosed name
  | Directory name (Some entries) =>
      Hopen name entries
        ((fix all (l : list Entry) : Forall P l :=
            match l with
            | [] => Forall_nil P
            | x :: r =>
                Forall_cons x
                  (Entry_tree_ind P Hfile Hother Hclosed Hopen x) (all r)
            end) entries)
  end.

(** The file [name] lies in the tree [entries] below the directories
    [dirs], all of which can be listed. *)
Inductive at_path : list Entry -> list string -> string -> Prop :=
| at_here : forall entries name,
    In (File name) entries -> at_path entries [] name
| at_below : forall entries d l dirs name,
    In (Directory d (Some l)) entries ->
    at_path l dirs name ->
    at_path entries (d :: dirs) name.

(** The path of a file below [dir]. *)
Definition path_of (dir : string) (dirs : list string) (name : string)
  : string :=
  path_join (fold_left path_join dirs dir) name.

Section Facts.
Variable extensions : list string.
Variable excludeDirs : list string.

Definition wanted (dirs : list string) (name : string) : Prop :=
  Forall (fun d => JS.mem d excludeDirs = false) dirs
  /\ existsb (fun ext => endsWith ext name) extensions = true.

Lemma walkEntry_spec :
  forall e dir p,
    In p (walkEntry extensions excludeDirs dir e)
    <-> exists dirs name,
          at_path [e] dirs name /\ wanted dirs name
          /\ p = path_of dir dirs name.
Proof.
  induction e as [name | name | name | name entries IH]
    using Entry_tree_ind; intros dir p.
  - cbn [walkEntry]. split.
    + destruct (existsb _ extensions) eqn:Hext; [|contradiction].
      intros [<-|[]]. exists [], name. split; [|split].
      * apply at_here. left. reflexivity.
      * split; [constructor | exact Hext].
      * reflexivity.
    + intros [dirs [n [Hat [[_ Hext] ->]]]].
      inversion Hat as [es n' Hin | es d l ds n' Hin _]; subst.
      * destruct Hin as [Heq|[]]. injection Heq as Heq. subst n.
        rewrite Hext. left. reflexivity.
      * destruct Hin as [Heq|[]]. discriminate Heq.
  - cbn [walkEntry]. split; [contradiction|].
    intros [dirs [n [Hat _]]].
    inversion Hat as [es n' Hin | es d l ds n' Hin _]; subst;
      destruct Hin as [Heq|[]]; discriminate Heq.
  - cbn [walkEntry]. split;
      [destruct (negb _); contradiction|].
    intros [dirs [n [Hat _]]].
    inversion Hat as [es n' Hin | es d l ds n' Hin _]; subst;
      destruct Hin as [Heq|[]]; discriminate Heq.
  - cbn [walkEntry]. split.
    + destruct (JS.mem name excludeDirs) eqn:Hex; cbn [negb];
        [contradiction|].
      intro Hp. apply in_flat_map in Hp. destruct Hp as [e [He Hp]].
      rewrite Forall_forall in IH. apply (IH e He) in Hp.
      destruct Hp as [dirs [n [Hat [[Hdirs Hext] ->]]]].
      exists (name :: dirs), n. split; [|split].
      * apply (at_below _ name entries); [left; reflexivity|].
        inversion Hat as [es n' Hin | es d l ds n' Hin Hsub]; subst.
        -- destruct Hin as [Heq|[]]. subst e. apply at_here. exact He.
        -- destruct Hin as [Heq|[]]. subst e.
           apply (at_below _ d l); [exact He | exact Hsub].
      * split; [constructor; [exact Hex | exact Hdirs] | exact Hext].
      * reflexivity.
    + intros [dirs [n [Hat [[Hdirs Hext] ->]]]].
      inversion Hat as [es n' Hin | es d l ds n' Hin Hsub]; subst;
        destruct Hin as [Heq|[]]; [discriminate Heq|].
      injection Heq as Hd1 Hl1. subst d l.
      inversion Hdirs as [|d0 ds0 Hd Hds]; subst.
      rewrite Hd. cbn [negb]. apply in_flat_map.
      rewrite Forall_forall in IH.
      inversion Hsub as [es n' Hin | es d' l' ds' n' Hin Hsub']; subst.
      * exists (File n). split; [exact Hin|].
        apply (IH _ Hin). exists [], n. split; [|split].
        -- apply at_here. left. reflexivity.
        -- split; [constructor | exact Hext].
        -- reflexivity.
      * exists (Directory d' (Some l')). split; [exact Hin|].
        apply (IH _ Hin). exists (d' :: ds'), n. split; [|split].
        -- apply (at_below _ d' l'); [left; reflexivity | exact Hsub'].
        -- split; [exact Hds | exact Hext].
        -- reflexivity.
Qed.

(** X21: walkDir returns exactly the files of the tree that have one of
    the extensions and lie below no excluded directory, each under its
    full path; it returns nothing for a directory that cannot be
    listed. *)
Theorem walkDir_spec :
  forall (listing : option (list Entry)) (currentDir p : string),
    In p (walkDir listing currentDir extensions excludeDirs)
    <-> exists entries dirs name,
          listing = Some entries
          /\ at_path entries dirs name
          /\ wanted dirs name
          /\ p = path_of currentDir dirs name.
Proof.
  intros listing currentDir p. destruct listing as [entries|]; cbn [walkDir].
  - rewrite in_flat_map. split.
    + intros [e [He Hp]]. apply walkEntry_spec in Hp.
      destruct Hp as [dirs [n [Hat [Hw ->]]]].
      exists entries, dirs, n. split; [reflexivity|].
      split; [|split; [exact Hw | reflexivity]].
      inversion Hat as [es n' Hin | es d l ds n' Hin Hsub]; subst;
        destruct Hin as [Heq|[]]; subst e.
      * apply at_here. exact He.
      * apply (at_below _ d l); [exact He | exact Hsub].
    + intros [es [dirs [n [Heq [Hat [Hw ->]]]]]]. injection Heq as <-.
      inversion Hat as [es n' Hin | es d l ds n' Hin Hsub]; subst.
      * exists (File n). split; [exact Hin|]. apply walkEntry_spec.
        exists [], n. split; [apply at_here; left; reflexivity|].
        split; [exact Hw | reflexivity].
      * exists (Directory d (Some l)). split; [exact Hin|].
        apply walkEntry_spec. exists (d :: ds), n.
        split; [apply (at_below _ d l); [left; reflexivity | exact Hsub]|].
        split; [exact Hw | reflexivity].
  - split; [contradiction|].
    intros [es [dirs [n [Heq _]]]]. discriminate Heq.
Qed.

End Facts.

End WalkerProofs.

(* ================================================================== *)
(** * The report and the exit code of the command line *)
(* ================================================================== *)

Module CLIReportProofs.
Import CLI CLIReport.

Definition is_warning (i : Issue) : bool := Severity_eqb (severity i) warning.

Lemma insert_split :
  forall (x : Issue) (w o : list Issue),
    Forall (fun i => severity i = warning) w ->
    Forall (fun i => severity i <> warning) o ->
    Reporter.insert byRank x (w ++ o)
    = (if is_warning x then (x :: w) ++ o else w ++ x :: o)%list.
Proof.
  intros x w o Hw Ho.
  assert (Hrank : forall s, s <> warning -> rank s = 2%Z)
    by (intros [] H; [reflexivity | congruence | reflexivity]).
  assert (Hfront : Reporter.insert byRank x o = x :: o).
  { destruct Ho as [|y r Hy _]; [reflexivity|].
    cbn [Reporter.insert]. unfold byRank. rewrite (Hrank _ Hy).
    destruct (severity x); reflexivity. }
  induction Hw as [|y r Hy Hr IH].
  - cbn [app]. rewrite Hfront. destruct (is_warning x); reflexivity.
  - cbn [app Reporter.insert]. unfold byRank at 1. rewrite Hy.
    unfold is_warning in *.
    destruct (severity x) eqn:Hx; cbn in *; try reflexivity;
      rewrite IH; reflexivity.
Qed.

(** X22: the report of the command line does not put the critical
    issues first: it shows the warnings, then the critical issues and
    the notes together, in the order of the scan. *)
Theorem sorted_puts_warnings_first :
  forall issues : list Issue,
    sorted issues
    = (filter is_warning issues
       ++ filter (fun i => negb (is_warning i)) issues)%list.
Proof.
  intro issues. unfold sorted, Reporter.sort.
  induction issues as [|x r IH]; [reflexivity|].
  cbn [fold_right]. rewrite IH. rewrite insert_split.
  - cbn [filter]. destruct (is_warning x); reflexivity.
  - apply Forall_forall. intros i Hi. apply filter_In in Hi.
    destruct Hi as [_ Hi]. unfold is_warning in Hi.
    destruct (severity i); try discriminate Hi. reflexivity.
  - apply Forall_forall. intros i Hi. apply filter_In in Hi.
    destruct Hi as [_ Hi]. unfold is_warning in Hi. intro Hs.
    rewrite Hs in Hi. discriminate Hi.
Qed.

Section Facts.
Context {engine : RegExpEngine}.
Variable fs : FileSystem.
Variable projectRoot : string.
Variable walkDir : string -> list string -> list string -> list string.

(** The configuration with another RLS switch and white list. *)
Definition with_rls (config : VibeSecurityConfig) (flag : bool)
  (whitelisted : list string) : VibeSecurityConfig :=
  {| enabled := enabled config;
     secretScanner := secretScanner config;
     rlsScanner :=
       {| rls_enabled_flag := flag;
          scanDirs := scanDirs (rlsScanner config);
          extensions := extensions (rlsScanner config);
          excludeDirs := excludeDirs (rlsScanner config);
          supabaseUrl := supabaseUrl (rlsScanner config);
          supabaseServiceRoleKey := supabaseServiceRoleKey (rlsScanner config);
          whitelistedTables := whitelisted |};
     reporter := reporter config;
     watcher := watcher config |}.

Lemma criticalCount_app :
  forall a b, criticalCount (a ++ b) = criticalCount a + criticalCount b.
Proof.
  intros a b. unfold criticalCount. rewrite filter_app, length_app.
  reflexivity.
Qed.

Lemma rlsIssues_not_critical :
  forall whitelisted filtered,
    criticalCount (rlsIssues whitelisted filtered) = 0.
Proof.
  intros whitelisted filtered. apply CLIProofs.criticalCount_zero.
  intros i Hi. unfold rlsIssues in Hi. apply in_flat_map in Hi.
  destruct Hi as [tu [_ Hi]].
  destruct (JS.mem (fst tu) whitelisted); [contradiction|].
  destruct Hi as [<-|[]]. discriminate.
Qed.

Lemma report_code :
  forall l,
    match report l with Exit code => code | Returns => 0 | Uncaught => 1 end
    = if 0 <? criticalCount l then 1 else 0.
Proof.
  intro l. unfold report. destruct l as [|x r]; [reflexivity|].
  destruct (0 <? criticalCount (x :: r)); reflexivity.
Qed.

(** X23: what the command line finds about RLS never changes its exit
    code: with the RLS check switched on or off, and whatever the white
    list, a scan of the same project ends with the same code. *)
Theorem rls_findings_never_change_exit_code :
  forall (config : VibeSecurityConfig) (flag : bool)
         (whitelisted : list string),
    exit_code fs projectRoot walkDir (Some (with_rls config flag whitelisted))
    = exit_code fs projectRoot walkDir (Some config).
Proof.
  intros config flag whitelisted.
  assert (He : forall c : VibeSecurityConfig,
             exit_code fs projectRoot walkDir (Some c)
             = if enabled c
               then match collect fs projectRoot walkDir c with
                    | Some l =>
                        match report l with
                        | Exit code => code | Returns => 0 | Uncaught => 1
                        end
                    | None => 1
                    end
               else 0).
  { intro c. unfold exit_code, runScan.
    destruct (enabled c); cbn [negb]; [|reflexivity].
    destruct (collect fs projectRoot walkDir c); reflexivity. }
  assert (Hc : forall c : VibeSecurityConfig,
             match collect fs projectRoot walkDir c with
             | Some l =>
                 match report l with
                 | Exit code => code | Returns => 0 | Uncaught => 1
                 end
             | None => 1
             end
             = let rc := rlsScanner c in
               let allFiles :=
                 flat_map
                   (fun dir =>
                      if existsSync fs (path_join projectRoot dir)
                      then walkDir (path_join projectRoot dir)
                             (extensions rc) (excludeDirs rc)
                      else [])
                   (scanDirs rc) in
               let allEnvEntries :=
                 envEntries fs projectRoot (envFiles (secretScanner c)) in
               let rest :=
                 criticalCount
                   (flat_map
                      (secretIssues (sensitivePatterns (secretScanner c)))
                      allEnvEntries)
                 + (criticalCount (scanSQLInjection fs allFiles)
                    + criticalCount
                        (scanAPIKeys fs allFiles allEnvEntries)) in
               if existsSync fs (path_join projectRoot ".gitignore") then
                 match readFileSync fs (path_join projectRoot ".gitignore")
                 with
                 | Some _ => if 0 <? rest then 1 else 0
                 | None => 1
                 end
               else if 0 <? rest then 1 else 0).
  { intro c. unfold collect. cbv zeta.
    assert (Hrls : criticalCount
                     (if rls_enabled_flag (rlsScanner c)
                      then rlsIssues (whitelistedTables (rlsScanner c))
                             (filterTables
                                (findSupabaseFromCalls fs
                                   (flat_map
                                      (fun dir =>
                                         if existsSync fs
                                              (path_join projectRoot dir)
                                         then walkDir
                                                (path_join projectRoot dir)
                                                (extensions (rlsScanner c))
                                                (excludeDirs (rlsScanner c))
                                         else [])
                                      (scanDirs (rlsScanner c)))))
                      else []) = 0).
    { destruct (rls_enabled_flag (rlsScanner c));
        [apply rlsIssues_not_critical | reflexivity]. }
    destruct (existsSync fs (path_join projectRoot ".gitignore")).
    - destruct (readFileSync fs (path_join projectRoot ".gitignore"))
        as [content|]; [|reflexivity].
      destruct (negb (JS.includes ".env" content)); rewrite report_code,
        !criticalCount_app, Hrls; cbn [criticalCount]; [|reflexivity].
      replace (criticalCount [gitignoreIssue]) with 0 by reflexivity.
      rewrite !Nat.add_0_r. reflexivity.
    - rewrite report_code, !criticalCount_app, Hrls. reflexivity. }
  rewrite !He, !Hc. reflexivity.
Qed.

End Facts.

End CLIReportProofs.

(* ================================================================== *)
(** * What the endpoint serves *)
(* ================================================================== *)

Module EndpointProofs.
Import Orchestrator OrchestratorProofs Endpoint.

(** X24: what the overlay is served after a pass that started while
    none was in flight: outside development a refusal without any issue;
    in development the issues of that pass when it reached the
    assignment of latestIssues, that is when no scanner threw and no
    statement after the last scanner threw, and the issues served before
    the pass otherwise, with a count that is their number. *)
Theorem GET_after_pass :
  forall (config : VibeSecurityConfig) (scan : Scanners) (sinks : Sinks)
         (st : State) (NODE_ENV : option string) (now : Z),
    isScanning st = false ->
    let g := gather scan (stages config) [] in
    let completed :=
      match snd g with
      | Some _ => false
      | None =>
          forallb (fun k => match sinks k with
                            | Completes => true
                            | Throws _ => false
                            end) (tail config)
      end in
    let served := if completed then fst g else latestIssues st in
    let r := GET NODE_ENV now (fst (runFullScan config scan sinks st)) in
    if JS.is_string NODE_ENV "development"
    then status r = 200
         /\ exists report,
              body r = Data report
              /\ Reporter.b_issues report = served
              /\ Reporter.issueCount report = List.length served
    else status r = 403 /\ exists msg, body r = ErrorBody msg.
Proof.
  intros config scan sinks st NODE_ENV now Hidle g completed served r.
  subst r. unfold GET.
  destruct (JS.is_string NODE_ENV "development"); cbn [negb status body].
  - split; [reflexivity|]. eexists. split; [reflexivity|].
    assert (Hs : latestIssues (fst (runFullScan config scan sinks st))
                 = served).
    { rewrite (runFullScan_idle config scan sinks st Hidle).
      cbn [fst latestIssues]. subst served completed. unfold pass_fault.
      fold g. destruct (snd g); [reflexivity|].
      induction (tail config) as [|k l IH]; [reflexivity|].
      cbn [first_throw forallb]. destruct (sinks k); [exact IH | reflexivity]. }
    unfold getLatestIssuesForBrowser, getLatestIssues. rewrite Hs.
    split; [apply ReporterProofs.b_issues_same | reflexivity].
  - split; [reflexivity|]. eexists. reflexivity.
Qed.

Lemma GET_after_pass_witness :
  isScanning after_earlier_pass = false
  /\ status (GET (Some "production") 0%Z
               (fst (runFullScan getDefaultConfig rls_throws sinks_complete
                       after_earlier_pass))) = 403
  /\ (exists report,
        body (GET (Some "development") 0%Z
                (fst (runFullScan getDefaultConfig rls_throws sinks_complete
                        after_earlier_pass))) = Data report
        /\ Reporter.b_issues report = latestIssues after_earlier_pass)
  /\ (exists report,
        body (GET (Some "development") 0%Z
                (fst (runFullScan getDefaultConfig all_return no_reporter
                        after_earlier_pass))) = Data report
        /\ Reporter.b_issues report = latestIssues after_earlier_pass)
  /\ (exists report,
        body (GET (Some "development") 0%Z
                (fst (runFullScan getDefaultConfig all_return sinks_complete
                        after_earlier_pass))) = Data report
        /\ Reporter.b_issues report = [fresh_issue]).
Proof.
  split; [reflexivity|]. split; [|split; [|split]].
  - apply (GET_after_pass getDefaultConfig rls_throws sinks_complete
             after_earlier_pass (Some "production") 0%Z eq_refl).
  - destruct (GET_after_pass getDefaultConfig rls_throws sinks_complete
                after_earlier_pass (Some "development") 0%Z eq_refl)
      as [_ [report [Hb [Hi _]]]].
    exists report. split; [exact Hb | exact Hi].
  - destruct (GET_after_pass getDefaultConfig all_return no_reporter
                after_earlier_pass (Some "development") 0%Z eq_refl)
      as [_ [report [Hb [Hi _]]]].
    exists report. split; [exact Hb | exact Hi].
  - destruct (GET_after_pass getDefaultConfig all_return sinks_complete
                after_earlier_pass (Some "development") 0%Z eq_refl)
      as [_ [report [Hb [Hi _]]]].
    exists report. split; [exact Hb | exact Hi].
Defined.

End EndpointProofs.

(* ================================================================== *)
(** * The RLS notes of the command line *)
(* ================================================================== *)

Module CLINotes.
Import CLI Facts MapFacts.

Section Facts.
Context {engine : RegExpEngine}.
Variable fs : FileSystem.

(** The [.from('t')] calls of the files, in scan order. *)
Definition calls (files : list string) : list (string * Usage) :=
  flat_map (fileUsages fs) files.

Definition real (u : Usage) : bool :=
  negb (JS.includes "security-watchdog" (u_file u)).

(** The usages of [t] outside the scanner's own files. *)
Definition realUsages (files : list string) (t : string) : list Usage :=
  filter real
    (map snd (filter (fun c : string * Usage => String.eqb t (fst c))
                (calls files))).

(** The tables the command line writes a note about. *)
Definition noted (whitelisted : list string) (files : list string)
  : list string :=
  filter (fun t => match realUsages files t with
                   | [] => false
                   | _ => negb (JS.mem t whitelisted)
                   end)
    (JS.uniq (map fst (calls files))).

Lemma filterTables_cons :
  forall (tu : string * list Usage) (m : JS.Map Usage),
    filterTables (tu :: m)
    = (match filter real (snd tu) with
       | [] => []
       | _ => [(fst tu, filter real (snd tu))]
       end ++ filterTables m)%list.
Proof. reflexivity. Qed.

Lemma rlsIssues_app :
  forall whitelisted (a b : JS.Map Usage),
    rlsIssues whitelisted (a ++ b)%list
    = (rlsIssues whitelisted a ++ rlsIssues whitelisted b)%list.
Proof. intros. unfold rlsIssues. apply flat_map_app. Qed.

Lemma notes_of_bindings :
  forall (whitelisted ts : list string) (us : string -> list Usage),
    let found := rlsIssues whitelisted
                   (filterTables (map (fun t => (t, us t)) ts)) in
    let keep := filter (fun t => match filter real (us t) with
                                 | [] => false
                                 | _ => negb (JS.mem t whitelisted)
                                 end) ts in
    map table found = map Some keep
    /\ map severity found = map (fun _ => info) keep
    /\ map message found
       = map (fun t => "Bu tablo "
                       ++ JS.of_nat (List.length (filter real (us t)))
                       ++ " yerde kullanılıyor. RLS'in aktif olduğundan emin olun.")
           keep.
Proof.
  intros whitelisted ts us. cbv zeta.
  induction ts as [|t r IH]; [repeat split|].
  cbn [map filter]. rewrite filterTables_cons, rlsIssues_app. cbn [fst snd].
  rewrite !map_app.
  destruct IH as [IH1 [IH2 IH3]]. rewrite IH1, IH2, IH3.
  destruct (filter real (us t)) as [|u l] eqn:Hreal; [repeat split|].
  unfold rlsIssues at 1 2 3. cbn [flat_map fst snd].
  destruct (JS.mem t whitelisted); cbn [negb app map table severity message];
    repeat split; cbv beta; rewrite Hreal; reflexivity.
Qed.

(** X25: the command line writes one note per table that is used
    outside the scanner's own files and is not white-listed, in the
    order of first use; every such note is of severity info, so none of
    them is critical. *)
Theorem rls_notes :
  forall (whitelisted files : list string),
    let found := rlsIssues whitelisted
                   (filterTables (findSupabaseFromCalls fs files)) in
    map table found = map Some (noted whitelisted files)
    /\ map severity found = map (fun _ => info) (noted whitelisted files)
    /\ map message found
       = map (fun t => "Bu tablo "
                       ++ JS.of_nat (List.length (realUsages files t))
                       ++ " yerde kullanılıyor. RLS'in aktif olduğundan emin olun.")
           (noted whitelisted files).
Proof.
  intros whitelisted files found. subst found.
  unfold findSupabaseFromCalls. fold (calls files).
  rewrite (pushes_grouped (fun c : string * Usage => fst c)
             (fun c : string * Usage => snd c)).
  apply (notes_of_bindings whitelisted (JS.uniq (map fst (calls files)))
           (fun t => map snd (filter (fun c : string * Usage =>
                                        String.eqb t (fst c))
                                (calls files)))).
Qed.

End Facts.

End CLINotes.
